(** * Whirlwind: arcade-cabinet input bridge firmware

    A shallow embedding of the three firmware sketches of the repository

    - [Refactored]: whirlwind_kb_only_refactored.ino, the keyboard variant
      with a separate shift handler, a bulk GPIO read, a 10 ms debounce
      gate and the range-check sync monitor;
    - [Original]: the first keyboard sketch ([handleInput]), with a 40 ms
      strict gate, the test [btn > 32] in front of its key events and the
      threshold-check sync monitor;
    - [Gamepad]: the dual-gamepad sketch, with an 8 ms strict gate and two
      packed 32-bit button reports.

    Conventions.  [unsigned long] and [uint32_t] are 32 bits wide on the
    RP2040: they are integers of [Z] and every subtraction of the source
    is written with its wrap-around ([sub32]).  The clock ([millis],
    [time_us_64]), the pins ([gpio_get_all], [digitalRead], [pulseIn]) and
    the USB state are inputs of the functions; what the firmware sends
    (key events, pin writes, HID reports) is returned as a list next to
    the new state. *)

From Stdlib Require Import ZArith Bool List Lia Ascii QArith Sorted.
From stdpp Require Import base list.

Local Open Scope Z_scope.

(** ** Machine arithmetic and output events *)

Definition wrap32 (z : Z) : Z := z mod 2 ^ 32.

(** [a - b] on two 32-bit unsigned operands. *)
Definition sub32 (a b : Z) : Z := wrap32 (a - b).

(** [a + b] on two 32-bit unsigned operands. *)
Definition add32 (a b : Z) : Z := wrap32 (a + b).

(** Arduino levels: [HIGH] is 1, [LOW] is 0.  With the pull-ups of the
    keyboard sketches a resting input reads [HIGH] and a pressed one
    [LOW]. *)
Definition HIGH : bool := true.
Definition LOW : bool := false.

Inductive key_event : Type :=
| KeyPress (k : Z)
| KeyRelease (k : Z).

Inductive pin_write : Type :=
| DigitalWrite (pin : Z) (level : bool).

Definition is_press (e : key_event) : bool :=
  match e with KeyPress _ => true | KeyRelease _ => false end.

(** Key codes of the Arduino Keyboard library used by the input tables. *)
Module Keyboard.
Definition KEY_LEFT_CTRL : Z := 128.
Definition KEY_LEFT_SHIFT : Z := 129.
Definition KEY_LEFT_ALT : Z := 130.
Definition KEY_UP_ARROW : Z := 218.
Definition KEY_DOWN_ARROW : Z := 217.
Definition KEY_LEFT_ARROW : Z := 216.
Definition KEY_RIGHT_ARROW : Z := 215.
Definition KEY_TAB : Z := 179.
Definition KEY_RETURN : Z := 176.
Definition KEY_ESC : Z := 177.
Definition KEY_F2 : Z := 195.
Definition KEY_F11 : Z := 204.
End Keyboard.

(** Threading a loop body over a list of indices: the state goes from one
    iteration to the next and the outputs are collected in order. *)
Fixpoint for_each {S E : Type} (body : nat -> S -> S * list E)
    (idx : list nat) (s : S) : S * list E :=
  match idx with
  | [] => (s, [])
  | i :: rest =>
      let '(s1, out1) := body i s in
      let '(s2, out2) := for_each body rest s1 in
      (s2, out1 ++ out2)
  end.

(** ** The refactored keyboard sketch *)
Module Refactored.
Import Keyboard.

Definition SW_INPUTS : nat := 26.
Definition HSyncPin : Z := 0.
Definition disablePin : Z := 1.
Definition ledPin : Z := 25.
Definition KEY_SPACE : Z := 32.
Definition DEBOUNCE_TIME : Z := 10.
Definition PULSE_COUNT : nat := 100.

Record digitalInput : Type := mkInput {
  pin : Z;
  debTimestamp : Z;
  state : bool;
  btn : Z;
  btn_shift : Z
}.

Definition chr (c : Ascii.ascii) : Z := Z.of_N (Ascii.N_of_ascii c).

(** The [inputs] table as compiled in; index 0 is the shift button. *)
Definition inputs_table : list digitalInput :=
  [ mkInput 6 0 HIGH (chr "1") (chr "1");
    mkInput 7 0 HIGH (chr "2") KEY_ESC;
    mkInput 8 0 HIGH KEY_UP_ARROW KEY_UP_ARROW;
    mkInput 10 0 HIGH KEY_DOWN_ARROW KEY_DOWN_ARROW;
    mkInput 16 0 HIGH KEY_LEFT_ARROW KEY_LEFT_ARROW;
    mkInput 14 0 HIGH KEY_RIGHT_ARROW KEY_RIGHT_ARROW;
    mkInput 12 0 HIGH KEY_LEFT_CTRL KEY_TAB;
    mkInput 20 0 HIGH KEY_LEFT_ALT KEY_RETURN;
    mkInput 18 0 HIGH KEY_SPACE KEY_F11;
    mkInput 22 0 HIGH KEY_LEFT_SHIFT KEY_LEFT_SHIFT;
    mkInput 24 0 HIGH (chr "z") (chr "z");
    mkInput 27 0 HIGH (chr "x") (chr "x");
    mkInput 9 0 HIGH (chr "r") (chr "r");
    mkInput 11 0 HIGH (chr "f") (chr "f");
    mkInput 17 0 HIGH (chr "d") (chr "d");
    mkInput 15 0 HIGH (chr "g") (chr "g");
    mkInput 13 0 HIGH (chr "a") (chr "a");
    mkInput 21 0 HIGH (chr "s") (chr "s");
    mkInput 19 0 HIGH (chr "q") (chr "q");
    mkInput 23 0 HIGH (chr "w") (chr "w");
    mkInput 26 0 HIGH (chr "e") (chr "e");
    mkInput 28 0 HIGH (chr "y") (chr "y");
    mkInput 4 0 HIGH (chr "5") (chr "6");
    mkInput 5 0 HIGH (chr "6") (chr "6");
    mkInput 3 0 HIGH KEY_F2 KEY_F2;
    mkInput 2 0 HIGH (chr "9") (chr "9") ].

(** The globals the handlers mutate. *)
Record firmware : Type := mkFirmware {
  inputs : list digitalInput;
  startBlock : bool
}.

(** [(gpioStates & (1UL << pin)) != 0] *)
Definition gpio_level (gpioStates pin : Z) : bool :=
  negb (Z.land gpioStates (Z.shiftl 1 pin) =? 0).

(** The condition of the debounce [if]:
    [inputs[i].state != buttonState &&
     millisNow - inputs[i].debTimestamp >= DEBOUNCE_TIME]. *)
Definition debounced (inp : digitalInput) (buttonState : bool)
    (millisNow : Z) : bool :=
  negb (eqb (state inp) buttonState)
  && (DEBOUNCE_TIME <=? sub32 millisNow (debTimestamp inp)).

(** The two assignments at the head of the accepted branch. *)
Definition commit (inp : digitalInput) (buttonState : bool)
    (millisNow : Z) : digitalInput :=
  mkInput (pin inp) millisNow buttonState (btn inp) (btn_shift inp).

(** The four key [if]s of [handleButtons], in source order. *)
Definition button_keys (inp : digitalInput) (shiftState buttonState : bool)
    : list key_event :=
  (if eqb shiftState HIGH && eqb buttonState LOW
   then [KeyPress (btn inp)] else [])
  ++ (if eqb shiftState HIGH && eqb buttonState HIGH
      then [KeyRelease (btn inp)] else [])
  ++ (if eqb shiftState LOW && eqb buttonState LOW
      then [KeyPress (btn_shift inp)] else [])
  ++ (if eqb shiftState LOW && eqb buttonState HIGH
      then [KeyRelease (btn_shift inp)] else []).

(** Whether the shift button, [inputs[0]], is confirmed pressed. *)
Definition shift_held (fw : firmware) : bool :=
  match inputs fw !! 0%nat with
  | Some shift => negb (state shift)
  | None => false
  end.

(** One iteration of the [for] loop of [handleButtons]. *)
Definition handleButton (millisNow gpioStates : Z) (i : nat)
    (fw : firmware) : firmware * list key_event :=
  match inputs fw !! i, inputs fw !! 0%nat with
  | Some inp, Some shift =>
      let buttonState := gpio_level gpioStates (pin inp) in
      let shiftState := state shift in
      if debounced inp buttonState millisNow then
        (mkFirmware
           (<[i := commit inp buttonState millisNow]> (inputs fw))
           (if eqb shiftState LOW && eqb buttonState LOW
            then true else startBlock fw),
         button_keys inp shiftState buttonState)
      else (fw, [])
  | _, _ => (fw, [])
  end.

(** [handleButtons]: every input but the shift button, one clock value
    and one GPIO snapshot for all of them. *)
Definition handleButtons (millisNow gpioStates : Z) (fw : firmware)
    : firmware * list key_event :=
  for_each (handleButton millisNow gpioStates)
    (seq 1 (SW_INPUTS - 1)) fw.

(** [handleShiftButton]: the shift button, [inputs[0]]. *)
Definition handleShiftButton (millisNow gpioStates : Z) (fw : firmware)
    : firmware * list key_event :=
  match inputs fw !! 0%nat with
  | Some shift =>
      let buttonState := gpio_level gpioStates (pin shift) in
      if debounced shift buttonState millisNow then
        let shiftState := buttonState in
        (mkFirmware
           (<[0%nat := commit shift buttonState millisNow]> (inputs fw))
           (if startBlock fw && eqb shiftState HIGH
            then false else startBlock fw),
         if negb (startBlock fw) && eqb shiftState HIGH
         then [KeyPress (btn shift); KeyRelease (btn shift)] else [])
      else (fw, [])
  | None => (fw, [])
  end.

(** *** Range-check sync monitor *)
Section SyncMonitor.
(** [fl] stands for the rounding of a real quotient to the [float]
    the source stores in [frequency].  The definitions make no
    assumption on it; the theorems assume what IEEE rounding
    guarantees (it is monotone and leaves representable numbers
    alone). *)
Variable fl : Q -> Q.

(** [frequency >= 12.0 && frequency <= 18.0] for
    [frequency = 100000.0 / totalDuration].  A zero divisor gives
    plus infinity, which fails the upper comparison. *)
Definition frequency_in_range (totalDuration : Z) : bool :=
  if totalDuration =? 0 then false
  else
    let frequency := fl (100000 / inject_Z totalDuration)%Q in
    Qle_bool 12 frequency && Qle_bool frequency 18.

(** The measuring [for] loop.  [pulseIn k] is the duration returned by
    the [k]-th call of [pulseIn(HSyncPin, HIGH)] of this cycle; the
    result is [totalDuration], [hasNoPulse] and the number of calls
    made. *)
Fixpoint measure (pulseIn : nat -> Z) (left pulseCount : nat)
    (totalDuration : Z) : Z * bool * nat :=
  match left with
  | O => (totalDuration, false, pulseCount)
  | S left' =>
      let pulseDuration := pulseIn pulseCount in
      let totalDuration := add32 totalDuration pulseDuration in
      if pulseDuration =? 0 then (totalDuration, true, S pulseCount)
      else measure pulseIn left' (S pulseCount) totalDuration
  end.

(** [freqBlock]: the pin writes of one cycle and the number of pulse
    measurements it took.  ([averageDuration] is never read.) *)
Definition freqBlock (pulseIn : nat -> Z) : list pin_write * nat :=
  let '(totalDuration, hasNoPulse, calls) :=
    measure pulseIn PULSE_COUNT 0%nat 0 in
  if negb hasNoPulse then
    ([DigitalWrite ledPin
        (if frequency_in_range totalDuration then HIGH else LOW);
      DigitalWrite disablePin
        (if frequency_in_range totalDuration then LOW else HIGH)],
     calls)
  else
    ([DigitalWrite ledPin LOW; DigitalWrite disablePin HIGH], calls).
End SyncMonitor.

(** What the theorems assume of the rounding: it is monotone, and it
    leaves alone the two bounds of the band and the two dyadic numbers
    [12 - 2^-11] and [18 + 2^-11], all four representable in a [float]. *)
Definition ieee_like (fl : Q -> Q) : Prop :=
  (forall x y, (x <= y)%Q -> (fl x <= fl y)%Q)
  /\ (fl 12 == 12)%Q
  /\ (fl 18 == 18)%Q
  /\ (fl (24575 # 2048) == 24575 # 2048)%Q
  /\ (fl (36865 # 2048) == 36865 # 2048)%Q.

(** The sum of [n] measurements of a cycle from the [c]-th on, and of
    the first [n], in microseconds. *)
Definition sum_from (pulseIn : nat -> Z) (c n : nat) : Z :=
  fold_right Z.add 0 (map pulseIn (seq c n)).

Definition total_of (pulseIn : nat -> Z) (n : nat) : Z :=
  sum_from pulseIn 0 n.

(** The average frequency of a full cycle, in kHz: 1000 over the mean
    duration in microseconds. *)
Definition average_frequency (pulseIn : nat -> Z) : Q :=
  (1000 / (inject_Z (total_of pulseIn PULSE_COUNT)
           / inject_Z (Z.of_nat PULSE_COUNT)))%Q.

(** *** Start-up and main loop *)

(** [setup]: every input takes the level [digitalRead] returns for its
    pin; the timestamps keep the 0 of the table. *)
Definition setup (digitalRead : Z -> bool) : firmware * list pin_write :=
  (mkFirmware
     (map (fun inp => mkInput (pin inp) (debTimestamp inp)
                        (digitalRead (pin inp)) (btn inp) (btn_shift inp))
          inputs_table)
     false,
   [DigitalWrite ledPin LOW; DigitalWrite disablePin HIGH]).

(** What one pass of [loop] reads: each handler calls [millis] and
    [gpio_get_all] for itself. *)
Record tick : Type := mkTick {
  millis_shift : Z;
  gpio_shift : Z;
  millis_buttons : Z;
  gpio_buttons : Z
}.

(** The snapshot in which [loop] reads input [i]. *)
Definition snapshot (tk : tick) (i : nat) : Z :=
  match i with O => gpio_shift tk | S _ => gpio_buttons tk end.

(** The keyboard part of [loop]: [handleShiftButton] then
    [handleButtons]. *)
Definition loop (tk : tick) (fw : firmware) : firmware * list key_event :=
  let '(fw1, keys1) :=
    handleShiftButton (millis_shift tk) (gpio_shift tk) fw in
  let '(fw2, keys2) :=
    handleButtons (millis_buttons tk) (gpio_buttons tk) fw1 in
  (fw2, keys1 ++ keys2).

(** Successive passes of [loop]. *)
Fixpoint run (ticks : list tick) (fw : firmware)
    : firmware * list key_event :=
  match ticks with
  | [] => (fw, [])
  | tk :: rest =>
      let '(fw1, keys1) := loop tk fw in
      let '(fw2, keys2) := run rest fw1 in
      (fw2, keys1 ++ keys2)
  end.

(** The states the firmware can be in between two passes of [loop]. *)
Inductive reachable : firmware -> Prop :=
| reachable_setup digitalRead : reachable (fst (setup digitalRead))
| reachable_loop tk fw : reachable fw -> reachable (fst (loop tk fw)).

(** No input but the shift button is touched in a snapshot: each reads
    at its confirmed level. *)
Definition others_quiet (gpioStates : Z) (fw : firmware) : Prop :=
  forall i inp, i <> 0%nat -> inputs fw !! i = Some inp ->
                gpio_level gpioStates (pin inp) = state inp.

(** The constant part of an input, and two states over one table. *)
Definition codes (inp : digitalInput) : Z * Z * Z :=
  (pin inp, btn inp, btn_shift inp).

Definition same_table (fw fw' : firmware) : Prop :=
  map codes (inputs fw) = map codes (inputs fw').

(** A key event that presses the shifted code of an input other than
    the shift button. *)
Definition shifted_press (fw : firmware) (e : key_event) : Prop :=
  exists i inp, i <> 0%nat /\ inputs fw !! i = Some inp
                /\ e = KeyPress (btn_shift inp).

(** Feeding input [i] of [handleButtons] a sequence of samples
    [(millisNow, gpioStates)]: the state after them and the number of
    accepted transitions, each of which sends one key event. *)
Fixpoint feed (samples : list (Z * Z)) (i : nat) (fw : firmware)
    : firmware * nat :=
  match samples with
  | [] => (fw, 0%nat)
  | (millisNow, gpioStates) :: rest =>
      let '(fw1, keys) := handleButton millisNow gpioStates i fw in
      let '(fw2, n) := feed rest i fw1 in
      (fw2, (length keys + n)%nat)
  end.

End Refactored.

(** ** The original keyboard sketch *)
Module Original.
Import Keyboard.

Definition SW_INPUTS : nat := 26.
Definition HSyncPin : Z := 0.
Definition disablePin : Z := 1.
Definition ledPin : Z := 25.
Definition debTime : Z := 40.
Definition samples : Z := 100.
Definition DEFAULT_FREQ : Z := 55.

Record digitalInput : Type := mkInput {
  pin : Z;
  state : bool;
  dbTime : Z;
  btn : Z;
  btn_shift : Z
}.

Definition chr (c : Ascii.ascii) : Z := Z.of_N (Ascii.N_of_ascii c).

(** The [inputs] table as compiled in.  [loop] passes [i == 0] as
    [isShift], so the shift input is the first entry. *)
Definition inputs_table : list digitalInput :=
  [ mkInput 4 HIGH 0 (chr "5") (chr "5");
    mkInput 5 HIGH 0 (chr "6") (chr "6");
    mkInput 3 HIGH 0 KEY_F2 KEY_F2;
    mkInput 2 HIGH 0 (chr "9") (chr "9");
    mkInput 6 HIGH 0 (chr "1") (chr "1");
    mkInput 7 HIGH 0 (chr "2") (chr "2");
    mkInput 8 HIGH 0 KEY_UP_ARROW KEY_UP_ARROW;
    mkInput 10 HIGH 0 KEY_DOWN_ARROW KEY_DOWN_ARROW;
    mkInput 16 HIGH 0 KEY_LEFT_ARROW KEY_LEFT_ARROW;
    mkInput 14 HIGH 0 KEY_RIGHT_ARROW KEY_RIGHT_ARROW;
    mkInput 12 HIGH 0 KEY_LEFT_CTRL KEY_LEFT_CTRL;
    mkInput 20 HIGH 0 KEY_LEFT_ALT KEY_LEFT_ALT;
    mkInput 18 HIGH 0 (chr " ") (chr " ");
    mkInput 22 HIGH 0 KEY_LEFT_SHIFT KEY_LEFT_SHIFT;
    mkInput 24 HIGH 0 (chr "z") (chr "z");
    mkInput 27 HIGH 0 (chr "x") (chr "x");
    mkInput 9 HIGH 0 (chr "r") (chr "r");
    mkInput 11 HIGH 0 (chr "f") (chr "f");
    mkInput 17 HIGH 0 (chr "d") (chr "d");
    mkInput 15 HIGH 0 (chr "g") (chr "g");
    mkInput 13 HIGH 0 (chr "a") (chr "a");
    mkInput 21 HIGH 0 (chr "s") (chr "s");
    mkInput 19 HIGH 0 (chr "q") (chr "q");
    mkInput 23 HIGH 0 (chr "w") (chr "w");
    mkInput 26 HIGH 0 (chr "e") (chr "e");
    mkInput 28 HIGH 0 (chr "y") (chr "y") ].

(** The globals of the input handler. *)
Record firmware : Type := mkFirmware {
  inputs : list digitalInput;
  startBlock : bool
}.

(** What one call of [handleInput] reads, in the order of the calls:
    [millis] and [digitalRead] in the condition, then [millis] and
    [digitalRead] again in the two assignments. *)
Record reading : Type := mkReading {
  millis_gate : Z;
  read_gate : bool;
  millis_commit : Z;
  read_commit : bool
}.

(** A call during which the clock and the pin keep one value. *)
Definition steady (now : Z) (level : bool) : reading :=
  mkReading now level now level.

(** [(isShift || inputs[0].state == HIGH) ? input->btn : input->btn_shift] *)
Definition resolved (isShift shiftState : bool) (input : digitalInput) : Z :=
  if isShift || eqb shiftState HIGH then btn input else btn_shift input.

(** [handleInput(&inputs[i], isShift)]. *)
Definition handleInput (rd : reading) (i : nat) (isShift : bool)
    (fw : firmware) : firmware * list key_event :=
  match inputs fw !! i with
  | Some input =>
      if (debTime <? sub32 (millis_gate rd) (dbTime input))
         && negb (eqb (read_gate rd) (state input))
      then
        let input' :=
          mkInput (pin input) (read_commit rd) (millis_commit rd)
            (btn input) (btn_shift input) in
        let inputs' := <[i := input']> (inputs fw) in
        match inputs' !! 0%nat with
        | Some first =>
            let btn := resolved isShift (state first) input' in
            let keys :=
              if 32 <? btn then
                [if eqb (state input') LOW
                 then KeyPress btn else KeyRelease btn]
              else [] in
            let startBlock1 :=
              if isShift && eqb (state input') LOW
              then true else startBlock fw in
            let startBlock2 :=
              if isShift && eqb (state input') HIGH && startBlock1
              then false else startBlock1 in
            (mkFirmware inputs' startBlock2, keys)
        | None => (fw, [])
        end
      else (fw, [])
  | None => (fw, [])
  end.

(** The input part of [loop]; [rd i] is what the call for input [i]
    reads. *)
Definition loop (rd : nat -> reading) (fw : firmware)
    : firmware * list key_event :=
  for_each (fun i => handleInput (rd i) i (i =? 0)%nat) (seq 0 SW_INPUTS) fw.

(** [setup]: the state of input [i] is what [digitalRead] returns for
    its pin and its debounce time what [millis] returns then. *)
Definition setup (digitalRead : Z -> bool) (millis : nat -> Z) : firmware :=
  mkFirmware
    (imap (fun i inp => mkInput (pin inp) (digitalRead (pin inp))
                          (millis i) (btn inp) (btn_shift inp))
          inputs_table)
    false.

(** *** Threshold-check sync monitor *)

(** The globals of [freqBlock]; the two [int]s are integers of [Z]
    (with [pulseIn] bounded by its one-second timeout no sum leaves the
    range of [int]). *)
Record sync : Type := mkSync {
  enableState : bool;
  prevEnState : bool;
  periodSum : Z;
  sCounter : Z
}.

Definition sync_init : sync := mkSync false false 0 0.

(** [freqBlock], with [periodIst] the value [pulseIn] returns. *)
Definition freqBlock (periodIst : Z) (s : sync) : sync * list pin_write :=
  let periodSum := periodSum s + periodIst in
  let sCounter := sCounter s + 1 in
  if samples <? sCounter then
    let periodAWG := Z.quot periodSum sCounter in
    let enableState := DEFAULT_FREQ <? periodAWG in
    if negb (eqb enableState (prevEnState s)) then
      (mkSync enableState enableState 0 0,
       [DigitalWrite disablePin (negb enableState);
        DigitalWrite ledPin enableState])
    else (mkSync enableState (prevEnState s) 0 0, [])
  else (mkSync (enableState s) (prevEnState s) periodSum sCounter, []).

(** Successive calls of [freqBlock], one per pass of [loop]. *)
Fixpoint sync_run (periods : list Z) (s : sync) : sync * list pin_write :=
  match periods with
  | [] => (s, [])
  | p :: rest =>
      let '(s1, w1) := freqBlock p s in
      let '(s2, w2) := sync_run rest s1 in
      (s2, w1 ++ w2)
  end.

End Original.

(** ** The dual-gamepad sketch *)
Module Gamepad.

Definition DEBOUNCE_MS : Z := 8.
Definition PICO_GPIO_MASK : Z := 0x1C7FFFFF.
Definition PICO_GPIO_COUNT : nat := 26.
Definition REPORT_ID_GAMEPAD_A : Z := 1.

(** Button to GPIO array: gamepad A, then gamepad B. *)
Definition buttons : list Z :=
  [ 8; 10; 16; 14;
    12; 20; 18; 22; 24; 28;
    2; 4; 6;
    9; 11; 17; 15;
    13; 21; 19; 23; 26; 27;
    3; 5; 7 ].

(** [GamepadInfo]: the report (one [uint32_t] button mask) and the
    dirty flag. *)
Record GamepadInfo : Type := mkGamepad {
  buttonStates : Z;
  needToSend : bool
}.

Record firmware : Type := mkFirmware {
  timers : list Z;
  states : list Z;
  gamepads : list GamepadInfo
}.

(** The globals as initialised: all timers and states 0, both reports
    empty and clean. *)
Definition init : firmware :=
  mkFirmware (replicate PICO_GPIO_COUNT 0) (replicate PICO_GPIO_COUNT 0)
    (replicate 2 (mkGamepad 0 false)).

Inductive hid_report : Type :=
| SendReport (report_id : Z) (mask : Z).

(** What one pass of [loop] reads. *)
Record tick : Type := mkTick {
  gpio_all : Z;
  time_us_64 : Z;
  usb_suspended : bool
}.

Inductive outcome : Type :=
| Rebooted
| Continued (fw : firmware) (sent : list hid_report).

(** [~gpio_get_all() & PICO_GPIO_MASK] *)
Definition gpio_now_of (tk : tick) : Z :=
  Z.land (Z.lnot (gpio_all tk)) PICO_GPIO_MASK.

(** [time_us_64() / 1000], stored in a [uint32_t]. *)
Definition time_now_of (tk : tick) : Z := wrap32 (time_us_64 tk / 1000).

(** [gamepads[g].needToSend = true] *)
Definition mark (g : nat) (pads : list GamepadInfo) : list GamepadInfo :=
  match pads !! g with
  | Some p => <[g := mkGamepad (buttonStates p) true]> pads
  | None => pads
  end.

(** [(gpio_now & (1ul << b)) ? 1 : 0]: in the inverted snapshot 1 is
    pressed. *)
Definition level (gpio_now b : Z) : Z :=
  if negb (Z.land gpio_now (Z.shiftl 1 b) =? 0) then 1 else 0.

(** [i < 13 ? 0 : 1]: the gamepad a button belongs to. *)
Definition group (i : nat) : nat := if (i <? 13)%nat then 0%nat else 1%nat.

(** One iteration of the button loop. *)
Definition debounce_button (gpio_now time_now : Z) (i : nat)
    (fw : firmware) : firmware :=
  match timers fw !! i, states fw !! i, buttons !! i with
  | Some timer, Some old, Some b =>
      if DEBOUNCE_MS <? sub32 time_now timer then
        let state := level gpio_now b in
        if negb (state =? old) then
          mkFirmware (<[i := time_now]> (timers fw))
            (<[i := state]> (states fw))
            (mark (group i) (gamepads fw))
        else fw
      else fw
  | _, _, _ => fw
  end.

(** The first [n] iterations of the button loop. *)
Definition buttons_pass (gpio_now time_now : Z) (n : nat) (fw : firmware)
    : firmware :=
  fold_left (fun fw i => debounce_button gpio_now time_now i fw)
    (seq 0 n) fw.

(** One iteration of the inner loop over [j] that rebuilds the mask of
    gamepad [i]: [buttonStates |= states[j] << (j - i*13)]. *)
Definition pack_step (sts : list Z) (i : nat) (mask : Z) (j : nat) : Z :=
  match sts !! j with
  | Some st => Z.lor mask (wrap32 (Z.shiftl st (Z.of_nat (j - i * 13))))
  | None => mask
  end.

(** The mask of gamepad [i]: the inner loop for [j] from [i*13] to
    [(i+1)*13 - 1], from 0. *)
Definition pack (sts : list Z) (i : nat) : Z :=
  fold_left (pack_step sts i) (seq (i * 13) 13) 0.

(** One iteration of the gamepad loop. *)
Definition send_gamepad (i : nat) (fw : firmware)
    : firmware * list hid_report :=
  match gamepads fw !! i with
  | Some p =>
      if needToSend p then
        let mask := pack (states fw) i in
        (mkFirmware (timers fw) (states fw)
           (<[i := mkGamepad mask false]> (gamepads fw)),
         [SendReport (REPORT_ID_GAMEPAD_A + Z.of_nat i) mask])
      else (fw, [])
  | None => (fw, [])
  end.

(** [loop].  The wait for [usb_hid.ready()] is the environment's; the
    LED write does not touch the state and is left out. *)
Definition loop (tk : tick) (fw : firmware) : outcome :=
  let gpio_now := gpio_now_of tk in
  let time_now := time_now_of tk in
  if usb_suspended tk && negb (gpio_now =? 0) then Rebooted
  else
    let fw1 := buttons_pass gpio_now time_now PICO_GPIO_COUNT fw in
    let '(fw2, sent) := for_each send_gamepad (seq 0 2) fw1 in
    Continued fw2 sent.

(** The states the firmware can be in between two passes of [loop]. *)
Inductive reachable : firmware -> Prop :=
| reachable_init : reachable init
| reachable_loop tk fw fw' sent :
    reachable fw -> loop tk fw = Continued fw' sent -> reachable fw'.

(** Whether one of the first [n] buttons belongs to gamepad [g] and
    has another confirmed state in [fw'] than in [fw]. *)
Definition changed_upto (n : nat) (fw fw' : firmware) (g : nat) : bool :=
  existsb
    (fun j => (group j =? g)%nat
              && negb (bool_decide (states fw' !! j = states fw !! j)))
    (seq 0 n).

Definition changed : firmware -> firmware -> nat -> bool :=
  changed_upto PICO_GPIO_COUNT.

(** The report a pass sends for gamepad [g]: none if no button of the
    group changed, else one with the mask packed from the states the
    pass leaves. *)
Definition report_of (fw fw' : firmware) (g : nat) : list hid_report :=
  if changed fw fw' g
  then [SendReport (REPORT_ID_GAMEPAD_A + Z.of_nat g) (pack (states fw') g)]
  else [].

(** What holds of the globals between two passes of [loop]: the arrays
    keep their sizes, every confirmed state is 0 or 1, and each report
    is clean and holds the packed states of its group. *)
Definition consistent (fw : firmware) : Prop :=
  length (timers fw) = PICO_GPIO_COUNT
  /\ length (states fw) = PICO_GPIO_COUNT
  /\ length (gamepads fw) = 2%nat
  /\ Forall (fun st => st = 0 \/ st = 1) (states fw)
  /\ (forall g p, gamepads fw !! g = Some p ->
                  needToSend p = false
                  /\ buttonStates p = pack (states fw) g).

(** Feeding button [i] a sequence of samples [(time_now, gpio_now)]:
    the state after them and the number of accepted transitions. *)
Fixpoint feed (samples : list (Z * Z)) (i : nat) (fw : firmware)
    : firmware * nat :=
  match samples with
  | [] => (fw, 0%nat)
  | (time_now, gpio_now) :: rest =>
      let fw1 := debounce_button gpio_now time_now i fw in
      let '(fw2, n) := feed rest i fw1 in
      (fw2, if decide (states fw1 !! i = states fw !! i) then n else S n)
  end.

End Gamepad.

(** ** Vocabulary of the statements *)

(** Sample times inside one span shorter than the window: the offsets
    from the start of the span are sorted and below [window]. *)
Definition burst (window : Z) (offsets : list Z) : Prop :=
  Sorted Z.le offsets /\ Forall (fun d => 0 <= d < window) offsets.

(** The level of an output pin after a list of writes, from the level it
    had before them. *)
Fixpoint pin_level (pin : Z) (level : bool) (writes : list pin_write)
    : bool :=
  match writes with
  | [] => level
  | DigitalWrite p l :: rest =>
      pin_level pin (if p =? pin then l else level) rest
  end.

(** The two nested conditions of the gamepad sketch's button loop, for a
    button on pin [b] with timestamp [timer] and confirmed state [old]:
    [time_now - timers[i] > DEBOUNCE_MS] and then [state != states[i]]. *)
Definition gamepad_accepts (gpio_now time_now timer old b : Z) : bool :=
  (Gamepad.DEBOUNCE_MS <? sub32 time_now timer)
  && negb (Gamepad.level gpio_now b =? old).

(** * Properties *)

(** ** Booleans, lists and wrap-around *)

Lemma bool_neq_eqb (a b : bool) : negb (eqb a b) = true <-> a <> b.
Proof. destruct a, b; simpl; split; congruence. Qed.

Lemma existsb_agree {A : Type} (f g : A -> bool) (l : list A) :
  (forall x, In x l -> f x = g x) -> existsb f l = existsb g l.
Proof.
  induction l as [|a l IH]; intros H; simpl; [reflexivity|].
  rewrite (H a) by now left. rewrite IH; [reflexivity|].
  intros x Hx. apply H. now right.
Qed.

(** ** The refactored sketch *)
Module RefactoredFacts.
Import Refactored.

Lemma debounced_iff (inp : digitalInput) (buttonState : bool)
    (millisNow : Z) :
  debounced inp buttonState millisNow = true <->
  buttonState <> state inp /\
  DEBOUNCE_TIME <= sub32 millisNow (debTimestamp inp).
Proof.
  unfold debounced.
  rewrite andb_true_iff, bool_neq_eqb, Z.leb_le. intuition congruence.
Qed.

Lemma debounced_same_level (inp : digitalInput) (millisNow : Z) :
  debounced inp (state inp) millisNow = false.
Proof. unfold debounced. now rewrite eqb_reflx. Qed.

(** Exactly one of the four key [if]s fires. *)
Lemma button_keys_one (inp : digitalInput) (shiftState buttonState : bool) :
  button_keys inp shiftState buttonState =
  [ match shiftState, buttonState with
    | true, false => KeyPress (btn inp)
    | true, true => KeyRelease (btn inp)
    | false, false => KeyPress (btn_shift inp)
    | false, true => KeyRelease (btn_shift inp)
    end ].
Proof. destruct shiftState, buttonState; reflexivity. Qed.

Lemma handleButton_accept millisNow gpioStates i fw inp shift :
  inputs fw !! i = Some inp ->
  inputs fw !! 0%nat = Some shift ->
  debounced inp (gpio_level gpioStates (pin inp)) millisNow = true ->
  handleButton millisNow gpioStates i fw =
  (mkFirmware
     (<[i := commit inp (gpio_level gpioStates (pin inp)) millisNow]>
        (inputs fw))
     (if negb (state shift) && negb (gpio_level gpioStates (pin inp))
      then true else startBlock fw),
   button_keys inp (state shift) (gpio_level gpioStates (pin inp))).
Proof.
  intros Hi H0 Hd. unfold handleButton. rewrite Hi, H0, Hd.
  unfold LOW. now destruct (state shift), (gpio_level gpioStates (pin inp)).
Qed.

Lemma handleButton_reject millisNow gpioStates i fw inp :
  inputs fw !! i = Some inp ->
  debounced inp (gpio_level gpioStates (pin inp)) millisNow = false ->
  handleButton millisNow gpioStates i fw = (fw, []).
Proof.
  intros Hi Hd. unfold handleButton. rewrite Hi, Hd.
  now destruct (inputs fw !! 0%nat).
Qed.

Lemma handleShiftButton_accept millisNow gpioStates fw shift :
  inputs fw !! 0%nat = Some shift ->
  debounced shift (gpio_level gpioStates (pin shift)) millisNow = true ->
  handleShiftButton millisNow gpioStates fw =
  (mkFirmware
     (<[0%nat := commit shift (gpio_level gpioStates (pin shift))
                   millisNow]> (inputs fw))
     (if gpio_level gpioStates (pin shift) then false else startBlock fw),
   if negb (startBlock fw) && gpio_level gpioStates (pin shift)
   then [KeyPress (btn shift); KeyRelease (btn shift)] else []).
Proof.
  intros H0 Hd. unfold handleShiftButton. rewrite H0, Hd. unfold HIGH.
  now destruct (startBlock fw), (gpio_level gpioStates (pin shift)).
Qed.

Lemma handleShiftButton_reject millisNow gpioStates fw shift :
  inputs fw !! 0%nat = Some shift ->
  debounced shift (gpio_level gpioStates (pin shift)) millisNow = false ->
  handleShiftButton millisNow gpioStates fw = (fw, []).
Proof. intros H0 Hd. unfold handleShiftButton. now rewrite H0, Hd. Qed.

(** What any button iteration leaves alone: the other inputs, the
    length of the table and, unless a shifted press fired, the lock. *)
Lemma handleButton_frame millisNow gpioStates i fw fw' keys :
  handleButton millisNow gpioStates i fw = (fw', keys) ->
  length (inputs fw') = length (inputs fw)
  /\ (forall j, j <> i -> inputs fw' !! j = inputs fw !! j)
  /\ startBlock fw' =
     startBlock fw || (shift_held fw && existsb is_press keys).
Proof.
  unfold handleButton, shift_held.
  destruct (inputs fw !! i) as [inp|] eqn:Hi;
    [destruct (inputs fw !! 0%nat) as [shift|] eqn:H0|].
  2,3: intros [= <- <-]; simpl; now rewrite ?andb_false_r, orb_false_r.
  destruct (debounced _ _ _).
  2: intros [= <- <-]; simpl; now rewrite ?andb_false_r, orb_false_r.
  intros [= <- <-]. simpl. split; [apply length_insert|]. split.
  - intros j Hj. now apply list_lookup_insert_ne.
  - rewrite button_keys_one. unfold LOW.
    destruct (state shift), (gpio_level gpioStates (pin inp)),
      (startBlock fw); reflexivity.
Qed.

Lemma handleButtons_frame_gen millisNow gpioStates idx fw fw' keys :
  0%nat ∉ idx ->
  for_each (handleButton millisNow gpioStates) idx fw = (fw', keys) ->
  length (inputs fw') = length (inputs fw)
  /\ (forall j, j ∉ idx -> inputs fw' !! j = inputs fw !! j)
  /\ startBlock fw' =
     startBlock fw || (shift_held fw && existsb is_press keys).
Proof.
  revert fw fw' keys.
  induction idx as [|i idx IH]; intros fw fw' keys H0; simpl.
  - intros [= <- <-]. simpl. now rewrite andb_false_r, orb_false_r.
  - destruct (handleButton millisNow gpioStates i fw) as [fw1 k1] eqn:E1.
    destruct (for_each _ idx fw1) as [fw2 k2] eqn:E2.
    intros [= <- <-].
    apply not_elem_of_cons in H0 as [H0i H0].
    apply handleButton_frame in E1 as (L1 & F1 & B1).
    apply IH in E2 as (L2 & F2 & B2); [|assumption].
    split; [congruence|]. split.
    + intros j Hj. apply not_elem_of_cons in Hj as [Hji Hj].
      now rewrite F2, F1.
    + assert (Hs : shift_held fw1 = shift_held fw).
      { unfold shift_held. now rewrite F1. }
      rewrite B2, B1, Hs, existsb_app.
      destruct (startBlock fw), (shift_held fw), (existsb is_press k1);
        reflexivity.
Qed.

Lemma handleButtons_frame millisNow gpioStates fw fw' keys :
  handleButtons millisNow gpioStates fw = (fw', keys) ->
  length (inputs fw') = length (inputs fw)
  /\ inputs fw' !! 0%nat = inputs fw !! 0%nat
  /\ startBlock fw' =
     startBlock fw || (shift_held fw && existsb is_press keys).
Proof.
  unfold handleButtons. intros H.
  assert (H0 : 0%nat ∉ seq 1 (SW_INPUTS - 1)).
  { rewrite list_elem_of_In, in_seq. lia. }
  destruct (handleButtons_frame_gen _ _ _ _ _ _ H0 H) as (L & F & B).
  auto.
Qed.

End RefactoredFacts.

(** ** The original sketch *)
Module OriginalFacts.
Import Original.

Lemma gate_iff (input : digitalInput) (now : Z) (level : bool) :
  (debTime <? sub32 now (dbTime input)) && negb (eqb level (state input))
  = true <->
  level <> state input /\ debTime < sub32 now (dbTime input).
Proof. rewrite andb_true_iff, bool_neq_eqb, Z.ltb_lt. tauto. Qed.

Lemma handleInput_accept now level i isShift fw input :
  inputs fw !! i = Some input ->
  level <> state input ->
  debTime < sub32 now (dbTime input) ->
  exists shiftHigh,
    (i <> 0%nat -> forall first, inputs fw !! 0%nat = Some first ->
                   shiftHigh = state first)
    /\ handleInput (steady now level) i isShift fw =
       (mkFirmware
          (<[i := mkInput (pin input) level now (btn input)
                    (btn_shift input)]> (inputs fw))
          (if isShift then negb level else startBlock fw),
        if 32 <? resolved isShift shiftHigh input then
          [if level then KeyRelease (resolved isShift shiftHigh input)
           else KeyPress (resolved isShift shiftHigh input)]
        else []).
Proof.
  intros Hi Hl Ht. unfold handleInput. rewrite Hi. simpl.
  assert (G := proj2 (gate_iff input now level) (conj Hl Ht)).
  rewrite G.
  pose proof (lookup_lt_Some _ _ _ Hi) as Hlen.
  destruct (<[i:=mkInput (pin input) level now (btn input)
                  (btn_shift input)]> (inputs fw) !! 0%nat)
    as [first|] eqn:H0.
  2: { apply lookup_ge_None in H0. rewrite length_insert in H0. lia. }
  exists (state first). split.
  - intros Hne f Hf. rewrite list_lookup_insert_ne in H0 by done.
    congruence.
  - unfold resolved, HIGH, LOW. simpl. f_equal.
    + f_equal. destruct isShift, level, (startBlock fw); reflexivity.
    + destruct isShift, (state first), level; reflexivity.
Qed.

(** The call as the source makes it: the condition is decided on the
    first reads of the clock and the pin, the two assignments store the
    second reads, and [inputs[0].state] is read after them. *)
Lemma handleInput_accept_reads rd i isShift fw input :
  inputs fw !! i = Some input ->
  read_gate rd <> state input ->
  debTime < sub32 (millis_gate rd) (dbTime input) ->
  exists first,
    <[i := mkInput (pin input) (read_commit rd) (millis_commit rd)
             (btn input) (btn_shift input)]> (inputs fw) !! 0%nat
    = Some first
    /\ handleInput rd i isShift fw =
       (mkFirmware
          (<[i := mkInput (pin input) (read_commit rd) (millis_commit rd)
                    (btn input) (btn_shift input)]> (inputs fw))
          (if isShift then negb (read_commit rd) else startBlock fw),
        if 32 <? resolved isShift (state first) input then
          [if read_commit rd
           then KeyRelease (resolved isShift (state first) input)
           else KeyPress (resolved isShift (state first) input)]
        else []).
Proof.
  intros Hi Hl Ht. unfold handleInput. rewrite Hi.
  assert (G := proj2 (gate_iff input (millis_gate rd) (read_gate rd))
                 (conj Hl Ht)).
  rewrite G.
  pose proof (lookup_lt_Some _ _ _ Hi) as Hlen.
  destruct (<[i:=mkInput (pin input) (read_commit rd) (millis_commit rd)
                  (btn input) (btn_shift input)]> (inputs fw) !! 0%nat)
    as [first|] eqn:H0.
  2: { apply lookup_ge_None in H0. rewrite length_insert in H0. lia. }
  exists first. split; [reflexivity|].
  unfold resolved, HIGH, LOW. simpl. f_equal.
  - f_equal. destruct isShift, (read_commit rd), (startBlock fw);
      reflexivity.
  - destruct isShift, (state first), (read_commit rd); reflexivity.
Qed.


End OriginalFacts.

(** ** The gamepad sketch *)
Module GamepadFacts.
Import Gamepad.

Lemma debounce_button_accept gpio_now time_now i fw timer old b :
  timers fw !! i = Some timer ->
  states fw !! i = Some old ->
  buttons !! i = Some b ->
  level gpio_now b <> old ->
  DEBOUNCE_MS < sub32 time_now timer ->
  debounce_button gpio_now time_now i fw =
  mkFirmware (<[i := time_now]> (timers fw))
    (<[i := level gpio_now b]> (states fw))
    (mark (group i) (gamepads fw)).
Proof.
  intros Ht Hs Hb Hl He. unfold debounce_button. rewrite Ht, Hs, Hb.
  apply Z.ltb_lt in He. rewrite He.
  apply Z.eqb_neq in Hl. now rewrite Hl.
Qed.

Lemma debounce_button_reject gpio_now time_now i fw timer old b :
  timers fw !! i = Some timer ->
  states fw !! i = Some old ->
  buttons !! i = Some b ->
  ~ (level gpio_now b <> old /\ DEBOUNCE_MS < sub32 time_now timer) ->
  debounce_button gpio_now time_now i fw = fw.
Proof.
  intros Ht Hs Hb Hn. unfold debounce_button. rewrite Ht, Hs, Hb.
  destruct (DEBOUNCE_MS <? sub32 time_now timer) eqn:He; [|reflexivity].
 
  destruct (level gpio_now b =? old) eqn:Hl; [reflexivity|].
  apply Z.ltb_lt in He. apply Z.eqb_neq in Hl. tauto.
Qed.

Lemma mark_lookup g pads p :
  pads !! g = Some p ->
  mark g pads !! g = Some (mkGamepad (buttonStates p) true).
Proof.
  intros H. unfold mark. rewrite H.
  apply list_lookup_insert_eq. eapply lookup_lt_Some; eauto.
Qed.

End GamepadFacts.

(** ** The debounce gate (C1, C2) *)




Lemma burst_tail window d ds : burst window (d :: ds) -> burst window ds.
Proof.
  intros [Hs Hf]. split; [now inversion Hs | now inversion Hf].
Qed.

Lemma burst_head window d ds :
  burst window (d :: ds) -> Forall (fun d' => 0 <= d' - d < window) ds.
Proof.
  intros [Hs Hf]. apply Sorted_StronglySorted in Hs; [|intros x y z; lia].
  inversion Hs as [|? ? _ Hle]; subst. inversion Hf as [|? ? Hd Hds]; subst.
  rewrite Forall_forall in *. intros x Hx.
  specialize (Hle x Hx). specialize (Hds x Hx). lia.
Qed.

Lemma sub32_offsets (t0 d d' : Z) :
  0 <= d' - d < 2 ^ 32 -> sub32 (wrap32 (t0 + d')) (wrap32 (t0 + d)) = d' - d.
Proof.
  intros H. unfold sub32, wrap32.
  rewrite Zminus_mod_idemp_l, Zminus_mod_idemp_r.
  replace (t0 + d' - (t0 + d)) with (d' - d) by lia.
  now apply Z.mod_small.
Qed.

Module RefactoredDebounce.
Import Refactored.

(** The two ways an iteration of the loop of [handleButtons] can go. *)
Lemma handleButton_cases millisNow gpioStates i fw inp shift :
  inputs fw !! i = Some inp ->
  inputs fw !! 0%nat = Some shift ->
  i <> 0%nat ->
  (exists fw' key,
      handleButton millisNow gpioStates i fw = (fw', [key])
      /\ inputs fw' !! i
         = Some (commit inp (gpio_level gpioStates (pin inp)) millisNow)
      /\ inputs fw' !! 0%nat = Some shift)
  \/ (~ (gpio_level gpioStates (pin inp) <> state inp
         /\ DEBOUNCE_TIME <= sub32 millisNow (debTimestamp inp))
      /\ handleButton millisNow gpioStates i fw = (fw, [])).
Proof.
  intros Hi H0 Hne.
  destruct (debounced inp (gpio_level gpioStates (pin inp)) millisNow)
    eqn:Hd.
  - left.
    rewrite (RefactoredFacts.handleButton_accept _ _ _ _ _ _ Hi H0 Hd).
    rewrite RefactoredFacts.button_keys_one. do 2 eexists.
    split; [reflexivity|]. simpl. split.
    + apply list_lookup_insert_eq. eapply lookup_lt_Some; eauto.
    + now rewrite list_lookup_insert_ne.
  - right. split.
    + intros Ha. apply RefactoredFacts.debounced_iff in Ha. congruence.
    + now apply (RefactoredFacts.handleButton_reject _ _ _ _ inp).
Qed.

Lemma kb_feed_rejected samples i fw inp :
  inputs fw !! i = Some inp ->
  Forall (fun s => ~ (gpio_level (snd s) (pin inp) <> state inp
                      /\ DEBOUNCE_TIME
                         <= sub32 (fst s) (debTimestamp inp))) samples ->
  feed samples i fw = (fw, 0%nat).
Proof.
  intros Hi. induction 1 as [|[now gpio] rest Hn _ IH]; simpl;
    [reflexivity|].
  simpl in Hn.
  rewrite (RefactoredFacts.handleButton_reject _ _ _ _ inp Hi), IH;
    [reflexivity|].
  destruct (debounced inp (gpio_level gpio (pin inp)) now) eqn:Hd;
    [|reflexivity].
  apply RefactoredFacts.debounced_iff in Hd. contradiction.
Qed.

(** Samples inside the window of the last change are all dropped. *)
Lemma kb_feed_within_window samples i fw inp :
  inputs fw !! i = Some inp ->
  Forall (fun s => sub32 (fst s) (debTimestamp inp) < DEBOUNCE_TIME)
    samples ->
  feed samples i fw = (fw, 0%nat).
Proof.
  intros Hi H. apply (kb_feed_rejected _ _ _ inp Hi).
  eapply Forall_impl; [exact H|]. simpl. intros s Hlt. lia.
Qed.

(** Samples at the confirmed level are all dropped. *)
Lemma kb_feed_same_level samples i fw inp :
  inputs fw !! i = Some inp ->
  Forall (fun s => gpio_level (snd s) (pin inp) = state inp) samples ->
  feed samples i fw = (fw, 0%nat).
Proof.
  intros Hi H. apply (kb_feed_rejected _ _ _ inp Hi).
  eapply Forall_impl; [exact H|]. simpl. intros s Heq. tauto.
Qed.

Lemma kb_feed_one_level samples i fw inp shift raw :
  inputs fw !! i = Some inp ->
  inputs fw !! 0%nat = Some shift ->
  i <> 0%nat ->
  Forall (fun s => gpio_level (snd s) (pin inp) = raw) samples ->
  (snd (feed samples i fw) <= 1)%nat.
Proof.
  intros Hi H0 Hne H. revert fw inp Hi H0 H.
  induction samples as [|[now gpio] rest IH]; intros fw inp Hi H0 H;
    simpl; [lia|].
  apply Forall_cons in H as [Hl Hrest]. simpl in Hl.
  destruct (handleButton_cases now gpio i fw inp shift Hi H0 Hne)
    as [(fw' & key & E & Hi' & H0') | (_ & E)]; rewrite E.
  - rewrite (kb_feed_same_level rest i fw' _ Hi'); [simpl; lia|].
    simpl. now rewrite Hl.
  - specialize (IH fw inp Hi H0 Hrest).
    destruct (feed rest i fw) as [fw2 n]. simpl in *. exact IH.
Qed.

Lemma kb_feed_burst t0 gpios offsets i fw inp shift :
  inputs fw !! i = Some inp ->
  inputs fw !! 0%nat = Some shift ->
  i <> 0%nat ->
  burst DEBOUNCE_TIME offsets ->
  length gpios = length offsets ->
  (snd (feed (zip (map (fun d => wrap32 (t0 + d)) offsets) gpios) i fw)
   <= 1)%nat.
Proof.
  intros Hi H0 Hne. revert gpios fw inp Hi H0.
  induction offsets as [|d ds IH]; intros gpios fw inp Hi H0 Hb Hlen;
    destruct gpios as [|gpio gpios]; simpl in *; try lia.
  destruct (handleButton_cases (wrap32 (t0 + d)) gpio i fw inp shift
              Hi H0 Hne) as [(fw' & key & E & Hi' & H0') | (_ & E)];
    rewrite E.
  - rewrite (kb_feed_within_window _ i fw' _ Hi'); [simpl; lia|].
    apply burst_head in Hb. simpl.
    apply Forall_forall. intros [now g] Hin. simpl.
    apply elem_of_zip_l in Hin. simpl in Hin.
    apply list_elem_of_fmap in Hin as (d' & -> & Hd').
    rewrite Forall_forall in Hb. specialize (Hb d' Hd').
    rewrite sub32_offsets; unfold DEBOUNCE_TIME in *; lia.
  - assert (IH' := IH gpios fw inp Hi H0 (burst_tail _ _ _ Hb)).
    destruct (feed _ i fw) as [fw2 n]. simpl in *. apply IH'. lia.
Qed.

End RefactoredDebounce.

Module GamepadDebounce.
Import Gamepad.

(** The two ways an iteration of the button loop can go. *)
Lemma debounce_button_cases gpio_now time_now i fw timer old b :
  timers fw !! i = Some timer ->
  states fw !! i = Some old ->
  buttons !! i = Some b ->
  (level gpio_now b <> old
   /\ DEBOUNCE_MS < sub32 time_now timer
   /\ timers (debounce_button gpio_now time_now i fw) !! i = Some time_now
   /\ states (debounce_button gpio_now time_now i fw) !! i
      = Some (level gpio_now b))
  \/ (~ (level gpio_now b <> old /\ DEBOUNCE_MS < sub32 time_now timer)
      /\ debounce_button gpio_now time_now i fw = fw).
Proof.
  intros Ht Hs Hb.
  destruct (decide (level gpio_now b = old)) as [Hl|Hl].
  { right. split; [tauto|].
    eapply GamepadFacts.debounce_button_reject; eauto; tauto. }
  destruct (Z_lt_dec DEBOUNCE_MS (sub32 time_now timer)) as [He|He].
  2: { right. split; [tauto|].
       eapply GamepadFacts.debounce_button_reject; eauto; tauto. }
  left. rewrite (GamepadFacts.debounce_button_accept _ _ _ _ _ _ _
                   Ht Hs Hb Hl He). simpl.
  repeat split; try assumption;
    apply list_lookup_insert_eq; eapply lookup_lt_Some; eauto.
Qed.

Lemma pad_feed_rejected samples i fw timer old b :
  timers fw !! i = Some timer ->
  states fw !! i = Some old ->
  buttons !! i = Some b ->
  Forall (fun s => ~ (level (snd s) b <> old
                      /\ DEBOUNCE_MS < sub32 (fst s) timer)) samples ->
  feed samples i fw = (fw, 0%nat).
Proof.
  intros Ht Hs Hb.
  induction 1 as [|[now gpio] rest Hn _ IH]; simpl; [reflexivity|].
  simpl in Hn.
  rewrite (GamepadFacts.debounce_button_reject _ _ _ _ _ _ _ Ht Hs Hb Hn).
  rewrite IH. now rewrite decide_True.
Qed.

(** Samples inside the window of the last change are all dropped. *)
Lemma pad_feed_within_window samples i fw timer old b :
  timers fw !! i = Some timer ->
  states fw !! i = Some old ->
  buttons !! i = Some b ->
  Forall (fun s => sub32 (fst s) timer < DEBOUNCE_MS) samples ->
  feed samples i fw = (fw, 0%nat).
Proof.
  intros Ht Hs Hb H. eapply pad_feed_rejected; eauto.
  eapply Forall_impl; [exact H|]. simpl. intros s Hlt. lia.
Qed.

(** Samples at the confirmed level are all dropped. *)
Lemma pad_feed_same_level samples i fw timer old b :
  timers fw !! i = Some timer ->
  states fw !! i = Some old ->
  buttons !! i = Some b ->
  Forall (fun s => level (snd s) b = old) samples ->
  feed samples i fw = (fw, 0%nat).
Proof.
  intros Ht Hs Hb H. eapply pad_feed_rejected; eauto.
  eapply Forall_impl; [exact H|]. simpl. intros s Heq. tauto.
Qed.

Lemma pad_feed_one_level samples i fw timer old b raw :
  timers fw !! i = Some timer ->
  states fw !! i = Some old ->
  buttons !! i = Some b ->
  Forall (fun s => level (snd s) b = raw) samples ->
  (snd (feed samples i fw) <= 1)%nat.
Proof.
  intros Ht Hs Hb H. revert fw timer old Ht Hs.
  induction H as [|[now gpio] rest Hl Hrest IH]; intros fw timer old Ht Hs;
    simpl; [lia|].
  simpl in Hl.
  destruct (debounce_button_cases gpio now i fw timer old b Ht Hs Hb)
    as [(Hne & _ & Ht' & Hs') | (_ & ->)].
  - rewrite Hl in Hs'.
    rewrite (pad_feed_same_level rest i _ now raw b Ht' Hs' Hb Hrest).
    simpl. destruct (decide _); lia.
  - specialize (IH fw timer old Ht Hs).
    destruct (feed rest i fw) as [fw2 n]. simpl in *.
    now rewrite decide_True.
Qed.

Lemma pad_feed_burst t0 gpios offsets i fw timer old b :
  timers fw !! i = Some timer ->
  states fw !! i = Some old ->
  buttons !! i = Some b ->
  burst DEBOUNCE_MS offsets ->
  length gpios = length offsets ->
  (snd (feed (zip (map (fun d => wrap32 (t0 + d)) offsets) gpios) i fw)
   <= 1)%nat.
Proof.
  intros Ht Hs Hb. revert gpios fw timer old Ht Hs.
  induction offsets as [|d ds IH]; intros gpios fw timer old Ht Hs Hbu Hlen;
    destruct gpios as [|gpio gpios]; simpl in *; try lia.
  destruct (debounce_button_cases gpio (wrap32 (t0 + d)) i fw timer old b
              Ht Hs Hb) as [(Hne & _ & Ht' & Hs') | (_ & ->)].
  - rewrite (pad_feed_within_window _ i _ _ _ b Ht' Hs' Hb).
    { simpl. destruct (decide _); lia. }
    apply burst_head in Hbu.
    apply Forall_forall. intros [now g] Hin. simpl.
    apply elem_of_zip_l in Hin. simpl in Hin.
    apply list_elem_of_fmap in Hin as (d' & -> & Hd').
    rewrite Forall_forall in Hbu. specialize (Hbu d' Hd').
    rewrite sub32_offsets; unfold DEBOUNCE_MS in *; lia.
  - assert (IH' := IH gpios fw timer old Ht Hs (burst_tail _ _ _ Hbu)).
    destruct (feed _ i fw) as [fw2 n]. simpl in *.
    rewrite decide_True by reflexivity. apply IH'. lia.
Qed.

End GamepadDebounce.

(** C2.  For one input of the refactored keyboard sketch and one button
    of the gamepad sketch, and every sequence of samples: samples taken
    while less than the debounce window has elapsed since the input's
    last-change timestamp are all dropped (no confirmed transition, the
    input is left as it was); samples whose times lie inside one span
    shorter than the window give at most one confirmed transition; and
    samples that all carry the same raw level give at most one confirmed
    transition, however many they are. *)
Theorem debounce_sequences :
  (forall i fw inp shift,
      Refactored.inputs fw !! i = Some inp ->
      Refactored.inputs fw !! 0%nat = Some shift ->
      i <> 0%nat ->
      (forall samples,
          Forall (fun s => sub32 (fst s) (Refactored.debTimestamp inp)
                           < Refactored.DEBOUNCE_TIME) samples ->
          Refactored.feed samples i fw = (fw, 0%nat))
      /\ (forall t0 gpios offsets,
          burst Refactored.DEBOUNCE_TIME offsets ->
          length gpios = length offsets ->
          (snd (Refactored.feed
                  (zip (map (fun d => wrap32 (t0 + d)) offsets) gpios) i fw)
           <= 1)%nat)
      /\ (forall samples raw,
          Forall (fun s => Refactored.gpio_level (snd s) (Refactored.pin inp)
                           = raw) samples ->
          (snd (Refactored.feed samples i fw) <= 1)%nat))
  /\ (forall i fw timer old b,
      Gamepad.timers fw !! i = Some timer ->
      Gamepad.states fw !! i = Some old ->
      Gamepad.buttons !! i = Some b ->
      (forall samples,
          Forall (fun s => sub32 (fst s) timer < Gamepad.DEBOUNCE_MS)
            samples ->
          Gamepad.feed samples i fw = (fw, 0%nat))
      /\ (forall t0 gpios offsets,
          burst Gamepad.DEBOUNCE_MS offsets ->
          length gpios = length offsets ->
          (snd (Gamepad.feed
                  (zip (map (fun d => wrap32 (t0 + d)) offsets) gpios) i fw)
           <= 1)%nat)
      /\ (forall samples raw,
          Forall (fun s => Gamepad.level (snd s) b = raw) samples ->
          (snd (Gamepad.feed samples i fw) <= 1)%nat)).
Proof.
  split.
  - intros i fw inp shift Hi H0 Hne. repeat split.
    + intros samples.
      now apply (RefactoredDebounce.kb_feed_within_window _ _ _ inp).
    + intros t0 gpios offsets.
      now apply (RefactoredDebounce.kb_feed_burst _ _ _ _ _ inp shift).
    + intros samples raw.
      now apply (RefactoredDebounce.kb_feed_one_level _ _ _ inp shift).
  - intros i fw timer old b Ht Hs Hb. repeat split.
    + intros samples.
      now apply (GamepadDebounce.pad_feed_within_window _ _ _ _ old b).
    + intros t0 gpios offsets.
      now apply (GamepadDebounce.pad_feed_burst _ _ _ _ _ timer old b).
    + intros samples raw.
      now apply (GamepadDebounce.pad_feed_one_level _ _ _ timer old b).
Qed.

(** A press of P2 START bouncing five times within 6 ms of being seen:
    one confirmed transition. *)
Lemma debounce_sequences_witness :
  let fw := fst (Refactored.setup (fun _ => HIGH)) in
  let samples :=
    zip (map (fun d => wrap32 (100 + d)) [0; 1; 2; 4; 6]%Z)
        [0; 2 ^ 7; 0; 2 ^ 7; 0]%Z in
  (snd (Refactored.feed samples 1%nat fw) <= 1)%nat
  /\ snd (Refactored.feed samples 1%nat fw) = 1%nat.
Proof.
  intros fw samples. split; [|reflexivity].
  refine (proj1 (proj2 (proj1 debounce_sequences 1%nat fw
            (Refactored.mkInput 7 0 HIGH 50 Keyboard.KEY_ESC)
            (Refactored.mkInput 6 0 HIGH 49 49) eq_refl eq_refl _))
            100 [0; 2 ^ 7; 0; 2 ^ 7; 0]%Z [0; 1; 2; 4; 6]%Z _ eq_refl).
  - discriminate.
  - split.
    + repeat constructor; simpl; lia.
    + repeat constructor; unfold Refactored.DEBOUNCE_TIME; lia.
Defined.

(** ** Shift-layer resolution (C3, C4) *)

(** C3, as the two keyboard sketches have it.  Refactored sketch: a
    confirmed pressed-edge of a non-shift input presses the input's
    shifted code and sets [startBlock] when the shift input is held, and
    presses its primary code (leaving [startBlock] as it is) when the
    shift input is not held.  Original sketch: the same code is selected
    and, when it is above 32, pressed; [startBlock] is not changed by a
    non-shift input.  (A pressed-edge of the original sketch is a call
    whose two reads of the pin are both low, for an input confirmed
    high.) *)
Theorem pressed_edge_resolution :
  (forall millisNow gpioStates i fw inp shift fw' keys,
      Refactored.inputs fw !! i = Some inp ->
      Refactored.inputs fw !! 0%nat = Some shift ->
      i <> 0%nat ->
      Refactored.handleButton millisNow gpioStates i fw = (fw', keys) ->
      Refactored.state inp = HIGH ->
      Refactored.gpio_level gpioStates (Refactored.pin inp) = LOW ->
      Refactored.DEBOUNCE_TIME
        <= sub32 millisNow (Refactored.debTimestamp inp) ->
      (Refactored.state shift = LOW ->
       keys = [KeyPress (Refactored.btn_shift inp)]
       /\ Refactored.startBlock fw' = true)
      /\ (Refactored.state shift = HIGH ->
          keys = [KeyPress (Refactored.btn inp)]
          /\ Refactored.startBlock fw' = Refactored.startBlock fw))
  /\ (forall rd i fw input first fw' keys,
      Original.inputs fw !! i = Some input ->
      Original.inputs fw !! 0%nat = Some first ->
      i <> 0%nat ->
      Original.handleInput rd i false fw = (fw', keys) ->
      Original.state input = HIGH ->
      Original.read_gate rd = LOW ->
      Original.read_commit rd = LOW ->
      Original.debTime
        < sub32 (Original.millis_gate rd) (Original.dbTime input) ->
      (Original.state first = LOW ->
       32 < Original.btn_shift input ->
       keys = [KeyPress (Original.btn_shift input)])
      /\ (Original.state first = HIGH ->
          32 < Original.btn input ->
          keys = [KeyPress (Original.btn input)])
      /\ Original.state <$> Original.inputs fw' !! i = Some LOW
      /\ Original.startBlock fw' = Original.startBlock fw).
Proof.
  split.
  - intros millisNow gpioStates i fw inp shift fw' keys Hi H0 _ Hrun Hst
      Hraw He.
    assert (Hd : Refactored.debounced inp
                   (Refactored.gpio_level gpioStates (Refactored.pin inp))
                   millisNow = true).
    { apply RefactoredFacts.debounced_iff. rewrite Hraw, Hst. now split. }
    rewrite (RefactoredFacts.handleButton_accept _ _ _ _ _ _ Hi H0 Hd)
      in Hrun.
    injection Hrun as <- <-. rewrite Hraw. simpl.
    split; intros ->; now split.
  - intros rd i fw input first fw' keys Hi H0 Hne Hrun Hst Hg Hc He.
    destruct (OriginalFacts.handleInput_accept_reads rd i false fw input Hi)
      as (first' & H0' & E); [rewrite Hg, Hst; discriminate | exact He |].
    rewrite list_lookup_insert_ne in H0' by done.
    assert (first' = first) as -> by congruence.
    rewrite E in Hrun. injection Hrun as <- <-.
    rewrite Hc. unfold Original.resolved. cbn [orb Original.inputs
      Original.startBlock].
    repeat split.
    + intros -> H32. apply Z.ltb_lt in H32. cbn [eqb LOW HIGH].
      now rewrite H32.
    + intros -> H32. apply Z.ltb_lt in H32. cbn [eqb LOW HIGH].
      now rewrite H32.
    + rewrite list_lookup_insert_eq by (eapply lookup_lt_Some; eauto).
      reflexivity.
Qed.

(** ESC: P2 START pressed while P1 START is held (refactored sketch);
    '6': P2 COIN pressed in the original sketch with the shift input
    up. *)
Lemma pressed_edge_resolution_witness :
  (let fw := fst (Refactored.setup (fun p => negb (p =? 6))) in
   let r := Refactored.handleButton 10 0 1%nat fw in
   snd r = [KeyPress Keyboard.KEY_ESC]
   /\ Refactored.startBlock (fst r) = true)
  /\ (let fw := Original.setup (fun _ => HIGH) (fun _ => 0) in
      let r := Original.handleInput (Original.steady 41 LOW) 1%nat false
                 fw in
      snd r = [KeyPress 54]).
Proof.
  split.
  - intros fw r.
    refine (proj1 (proj1 pressed_edge_resolution 10 0 1%nat fw
              (Refactored.mkInput 7 0 HIGH 50 Keyboard.KEY_ESC)
              (Refactored.mkInput 6 0 LOW 49 49) (fst r) (snd r)
              eq_refl eq_refl _ eq_refl eq_refl eq_refl _) eq_refl).
    + discriminate.
    + vm_compute. discriminate.
  - intros fw r.
    refine (proj1 (proj2 (proj2 pressed_edge_resolution
              (Original.steady 41 LOW) 1%nat fw
              (Original.mkInput 5 HIGH 0 54 54)
              (Original.mkInput 4 HIGH 0 53 53) (fst r) (snd r)
              eq_refl eq_refl _ eq_refl eq_refl eq_refl eq_refl eq_refl))
            eq_refl eq_refl).
    discriminate.
Defined.

(** C3 as stated fails on the original sketch.  With the shift input
    (GPIO 4) held at power-up, a confirmed press of the next input sends
    its shifted code and [startBlock] stays false. *)
Lemma original_press_without_latch :
  let fw := Original.setup (fun p => negb (p =? 4)) (fun _ => 0) in
  let r := Original.handleInput (Original.steady 41 LOW) 1%nat false fw in
  Original.state <$> Original.inputs fw !! 0%nat = Some LOW
  /\ Original.state <$> Original.inputs fw !! 1%nat = Some HIGH
  /\ Original.state <$> Original.inputs (fst r) !! 1%nat = Some LOW
  /\ snd r = [KeyPress 54]
  /\ Original.startBlock (fst r) = false.
Proof. vm_compute. repeat split. Qed.

(** C4, as the code has it.  In both keyboard sketches a confirmed
    released-edge of a non-shift input selects the code by the shift
    input's confirmed state when the release is processed: the shifted
    code if shift is held, the primary code otherwise; nothing else of
    the input's history enters.  The refactored sketch releases that
    code.  The original sketch releases it behind the test [btn > 32],
    so that the release of a code up to 32 is dropped: the space that
    its table gives P1 B3 is never released (nor pressed), where the
    refactored sketch sends [KEY_SPACE] for the same button.  (A
    released-edge of the original sketch is a call whose two reads of
    the pin are both high, for an input confirmed low.) *)
Theorem released_edge_resolution :
  (forall millisNow gpioStates i fw inp shift fw' keys,
      Refactored.inputs fw !! i = Some inp ->
      Refactored.inputs fw !! 0%nat = Some shift ->
      i <> 0%nat ->
      Refactored.handleButton millisNow gpioStates i fw = (fw', keys) ->
      Refactored.state inp = LOW ->
      Refactored.gpio_level gpioStates (Refactored.pin inp) = HIGH ->
      Refactored.DEBOUNCE_TIME
        <= sub32 millisNow (Refactored.debTimestamp inp) ->
      keys = [KeyRelease (if Refactored.state shift
                          then Refactored.btn inp
                          else Refactored.btn_shift inp)]
      /\ Refactored.startBlock fw' = Refactored.startBlock fw)
  /\ (forall rd i fw input first fw' keys,
      Original.inputs fw !! i = Some input ->
      Original.inputs fw !! 0%nat = Some first ->
      i <> 0%nat ->
      Original.handleInput rd i false fw = (fw', keys) ->
      Original.state input = LOW ->
      Original.read_gate rd = HIGH ->
      Original.read_commit rd = HIGH ->
      Original.debTime
        < sub32 (Original.millis_gate rd) (Original.dbTime input) ->
      let code := if Original.state first
                  then Original.btn input else Original.btn_shift input in
      Original.state <$> Original.inputs fw' !! i = Some HIGH
      /\ keys = if 32 <? code then [KeyRelease code] else []).
Proof.
  split.
  - intros millisNow gpioStates i fw inp shift fw' keys Hi H0 _ Hrun Hst
      Hraw He.
    assert (Hd : Refactored.debounced inp
                   (Refactored.gpio_level gpioStates (Refactored.pin inp))
                   millisNow = true).
    { apply RefactoredFacts.debounced_iff. rewrite Hraw, Hst. now split. }
    rewrite (RefactoredFacts.handleButton_accept _ _ _ _ _ _ Hi H0 Hd)
      in Hrun.
    injection Hrun as <- <-. rewrite Hraw. simpl.
    rewrite andb_false_r. now destruct (Refactored.state shift).
  - intros rd i fw input first fw' keys Hi H0 Hne Hrun Hst Hg Hc He code.
    destruct (OriginalFacts.handleInput_accept_reads rd i false fw input Hi)
      as (first' & H0' & E); [rewrite Hg, Hst; discriminate | exact He |].
    rewrite list_lookup_insert_ne in H0' by done.
    assert (first' = first) as -> by congruence.
    rewrite E in Hrun. injection Hrun as <- <-. subst code.
    rewrite Hc. unfold Original.resolved. cbn [orb Original.inputs].
    split.
    + rewrite list_lookup_insert_eq by (eapply lookup_lt_Some; eauto).
      reflexivity.
    + now destruct (Original.state first).
Qed.

(** P1 B3 (GPIO 18) held at power-up and then let go, the shift input
    up.  The refactored sketch releases [KEY_SPACE]; in the original
    sketch the state goes back to released and no key is sent. *)
Lemma released_edge_resolution_witness :
  (let fw := fst (Refactored.setup (fun p => negb (p =? 18))) in
   let r := Refactored.handleButton 10 (2 ^ 18) 8%nat fw in
   snd r = [KeyRelease Refactored.KEY_SPACE]
   /\ Refactored.startBlock (fst r) = Refactored.startBlock fw)
  /\ (let fw := Original.setup (fun p => negb (p =? 18)) (fun _ => 0) in
      let r := Original.handleInput (Original.steady 41 HIGH) 12%nat false
                 fw in
      Original.state <$> Original.inputs (fst r) !! 12%nat = Some HIGH
      /\ snd r = []).
Proof.
  split.
  - intros fw r.
    refine (proj1 released_edge_resolution 10 (2 ^ 18) 8%nat fw
              (Refactored.mkInput 18 0 LOW Refactored.KEY_SPACE
                 Keyboard.KEY_F11)
              (Refactored.mkInput 6 0 HIGH 49 49) (fst r) (snd r)
              eq_refl eq_refl _ eq_refl eq_refl eq_refl _).
    + discriminate.
    + vm_compute. discriminate.
  - intros fw r.
    refine (proj2 released_edge_resolution
              (Original.steady 41 HIGH) 12%nat fw
              (Original.mkInput 18 LOW 0 32 32)
              (Original.mkInput 4 HIGH 0 53 53) (fst r) (snd r)
              eq_refl eq_refl _ eq_refl eq_refl eq_refl eq_refl eq_refl).
    discriminate.
Defined.

(** ** The shift button (C5) *)
Module RefactoredShift.
Import Refactored.

(** [startBlock] is only ever set while the shift button is held. *)
Lemma lock_only_while_held fw :
  reachable fw -> startBlock fw = true -> shift_held fw = true.
Proof.
  induction 1 as [rd | tk fw Hr IH]; [discriminate|].
  unfold loop.
  destruct (handleShiftButton _ _ fw) as [fw1 k1] eqn:E1.
  destruct (handleButtons _ _ fw1) as [fw2 k2] eqn:E2. simpl.
  apply RefactoredFacts.handleButtons_frame in E2 as (_ & F0 & B).
  assert (Hh : shift_held fw2 = shift_held fw1)
    by (unfold shift_held; now rewrite F0).
  rewrite B, Hh.
  assert (H1 : startBlock fw1 = true -> shift_held fw1 = true).
  { revert E1. unfold handleShiftButton.
    destruct (inputs fw !! 0%nat) as [shift|] eqn:H0;
      [|intros [= <- _]; exact IH].
    destruct (debounced _ _ _); [|intros [= <- _]; exact IH].
    intros [= <- _]. unfold shift_held, HIGH. simpl.
    rewrite list_lookup_insert_eq by (eapply lookup_lt_Some; eauto).
    simpl. destruct (gpio_level _ _), (startBlock fw); simpl; congruence. }
  destruct (startBlock fw1); [intros _; now apply H1|].
  simpl. intros H. now apply andb_true_iff in H as [H _].
Qed.

(** [handleButtons] does nothing when no other input is touched. *)
Lemma buttons_quiet millisNow gpioStates idx fw :
  (forall i inp, i ∈ idx -> inputs fw !! i = Some inp ->
                 gpio_level gpioStates (pin inp) = state inp) ->
  for_each (handleButton millisNow gpioStates) idx fw = (fw, []).
Proof.
  induction idx as [|i idx IH]; intros Hq; simpl; [reflexivity|].
  assert (E : handleButton millisNow gpioStates i fw = (fw, [])).
  { unfold handleButton.
    destruct (inputs fw !! i) as [inp|] eqn:Hi; [|reflexivity].
    destruct (inputs fw !! 0%nat); [|reflexivity].
    rewrite (Hq i inp) by (auto; left).
    now rewrite RefactoredFacts.debounced_same_level. }
  rewrite E, IH; [reflexivity|].
  intros j inp Hj. apply Hq. now right.
Qed.

Lemma handleButtons_quiet millisNow gpioStates fw :
  others_quiet gpioStates fw ->
  handleButtons millisNow gpioStates fw = (fw, []).
Proof.
  intros Hq. apply buttons_quiet. intros i inp Hin. apply Hq.
  apply list_elem_of_In, in_seq in Hin. lia.
Qed.

(** One pass of [loop] while the shift button stays held. *)
Lemma loop_while_held tk fw shift fw' keys :
  inputs fw !! 0%nat = Some shift ->
  state shift = LOW ->
  gpio_level (gpio_shift tk) (pin shift) = LOW ->
  loop tk fw = (fw', keys) ->
  inputs fw' !! 0%nat = Some shift
  /\ startBlock fw' = startBlock fw || existsb is_press keys.
Proof.
  intros H0 Hst Hraw. unfold loop.
  rewrite (RefactoredFacts.handleShiftButton_reject _ _ _ shift H0).
  2:{ rewrite Hraw, <- Hst. apply RefactoredFacts.debounced_same_level. }
  destruct (handleButtons _ _ fw) as [fw2 k2] eqn:E2.
  intros [= <- <-]. simpl.
  apply RefactoredFacts.handleButtons_frame in E2 as (_ & F0 & B).
  split; [congruence|]. rewrite B. unfold shift_held.
  now rewrite H0, Hst.
Qed.

Lemma run_while_held hold fw shift fw' keys :
  inputs fw !! 0%nat = Some shift ->
  state shift = LOW ->
  Forall (fun tk => gpio_level (gpio_shift tk) (pin shift) = LOW) hold ->
  run hold fw = (fw', keys) ->
  inputs fw' !! 0%nat = Some shift
  /\ startBlock fw' = startBlock fw || existsb is_press keys.
Proof.
  intros H0 Hst Hh. revert fw fw' keys H0.
  induction Hh as [|tk hold Htk _ IH]; intros fw fw' keys H0; simpl.
  - intros [= <- <-]. simpl. now rewrite orb_false_r.
  - destruct (loop tk fw) as [fw1 k1] eqn:E1.
    destruct (run hold fw1) as [fw2 k2] eqn:E2.
    intros [= <- <-].
    destruct (loop_while_held _ _ _ _ _ H0 Hst Htk E1) as [H1 B1].
    destruct (IH _ _ _ H1 E2) as [H2 B2].
    split; [exact H2|].
    rewrite B2, B1, existsb_app. now rewrite orb_assoc.
Qed.

(** A pass of [loop] in which the shift button is pressed. *)
Lemma loop_shift_pressed tk fw shift fw' keys :
  inputs fw !! 0%nat = Some shift ->
  state shift = HIGH ->
  gpio_level (gpio_shift tk) (pin shift) = LOW ->
  DEBOUNCE_TIME <= sub32 (millis_shift tk) (debTimestamp shift) ->
  loop tk fw = (fw', keys) ->
  inputs fw' !! 0%nat = Some (commit shift LOW (millis_shift tk))
  /\ startBlock fw' = startBlock fw || existsb is_press keys.
Proof.
  intros H0 Hst Hraw He. unfold loop.
  rewrite (RefactoredFacts.handleShiftButton_accept _ _ _ shift H0).
  2:{ apply RefactoredFacts.debounced_iff. rewrite Hraw, Hst. now split. }
  rewrite Hraw. rewrite andb_false_r.
  destruct (handleButtons _ _ _) as [fw2 k2] eqn:E2.
  intros [= <- <-]. simpl.
  apply RefactoredFacts.handleButtons_frame in E2 as (_ & F0 & B).
  simpl in F0, B.
  rewrite list_lookup_insert_eq in F0 by (eapply lookup_lt_Some; eauto).
  split; [exact F0|]. rewrite B. unfold shift_held. simpl.
  now rewrite list_lookup_insert_eq by (eapply lookup_lt_Some; eauto).
Qed.

End RefactoredShift.

Module RefactoredTable.
Import Refactored.

Lemma same_table_commit i inp raw now (l : list digitalInput) :
  l !! i = Some inp ->
  map codes (<[i := commit inp raw now]> l) = map codes l.
Proof.
  intros Hi. change (map codes) with (fmap (M := list) codes).
  rewrite list_fmap_insert. apply list_insert_id.
  now rewrite list_lookup_fmap, Hi.
Qed.

Lemma handleButton_same_table millisNow gpioStates i fw fw' keys :
  handleButton millisNow gpioStates i fw = (fw', keys) -> same_table fw fw'.
Proof.
  unfold handleButton, same_table.
  destruct (inputs fw !! i) as [inp|] eqn:Hi;
    [destruct (inputs fw !! 0%nat)|]; try (intros [= <- _]; reflexivity).
  destruct (debounced _ _ _); intros [= <- _]; [|reflexivity].
  simpl. symmetry. now apply same_table_commit.
Qed.

Lemma for_each_same_table millisNow gpioStates idx fw fw' keys :
  for_each (handleButton millisNow gpioStates) idx fw = (fw', keys) ->
  same_table fw fw'.
Proof.
  revert fw fw' keys.
  induction idx as [|i idx IH]; intros fw fw' keys; simpl.
  - intros [= <- _]. reflexivity.
  - destruct (handleButton _ _ i fw) as [fw1 k1] eqn:E1.
    destruct (for_each _ idx fw1) as [fw2 k2] eqn:E2.
    intros [= <- _]. unfold same_table in *.
    etransitivity; [eapply handleButton_same_table; eauto | eauto].
Qed.

Lemma handleShiftButton_same_table millisNow gpioStates fw fw' keys :
  handleShiftButton millisNow gpioStates fw = (fw', keys) ->
  same_table fw fw'.
Proof.
  unfold handleShiftButton, same_table.
  destruct (inputs fw !! 0%nat) as [shift|] eqn:H0;
    [|intros [= <- _]; reflexivity].
  destruct (debounced _ _ _); intros [= <- _]; [|reflexivity].
  simpl. symmetry. now apply same_table_commit.
Qed.

Lemma loop_same_table tk fw fw' keys :
  loop tk fw = (fw', keys) -> same_table fw fw'.
Proof.
  unfold loop.
  destruct (handleShiftButton _ _ fw) as [fw1 k1] eqn:E1.
  destruct (handleButtons _ _ fw1) as [fw2 k2] eqn:E2.
  intros [= <- _]. unfold same_table.
  etransitivity; [eapply handleShiftButton_same_table; eauto|].
  eapply for_each_same_table; eauto.
Qed.

Lemma shifted_press_same_table fw fw' e :
  same_table fw fw' -> shifted_press fw e -> shifted_press fw' e.
Proof.
  intros Hs (i & inp & Hne & Hi & ->). unfold same_table in Hs.
  assert (H : codes <$> inputs fw' !! i = Some (codes inp)).
  { rewrite <- list_lookup_fmap.
    change (fmap codes (inputs fw')) with (map codes (inputs fw')).
    rewrite <- Hs. change (map codes) with (fmap (M := list) codes).
    now rewrite list_lookup_fmap, Hi. }
  destruct (inputs fw' !! i) as [inp'|] eqn:Hi'; [|discriminate].
  injection H as H. exists i, inp'. repeat split; try assumption.
  unfold codes in H. congruence.
Qed.

(** While the shift button is held every press of [handleButtons] is a
    shifted press. *)
Lemma handleButton_presses_held millisNow gpioStates i fw shift fw' keys :
  inputs fw !! 0%nat = Some shift ->
  state shift = LOW ->
  i <> 0%nat ->
  handleButton millisNow gpioStates i fw = (fw', keys) ->
  Forall (fun e => is_press e = true -> shifted_press fw e) keys.
Proof.
  intros H0 Hst Hne. unfold handleButton. rewrite H0.
  destruct (inputs fw !! i) as [inp|] eqn:Hi; [|intros [= _ <-]; constructor].
  destruct (debounced _ _ _); [|intros [= _ <-]; constructor].
  intros [= _ <-]. rewrite RefactoredFacts.button_keys_one, Hst.
  constructor; [|constructor].
  destruct (gpio_level _ _); simpl; [discriminate|].
  intros _. now exists i, inp.
Qed.

Lemma for_each_presses_held millisNow gpioStates idx fw shift fw' keys :
  inputs fw !! 0%nat = Some shift ->
  state shift = LOW ->
  0%nat ∉ idx ->
  for_each (handleButton millisNow gpioStates) idx fw = (fw', keys) ->
  Forall (fun e => is_press e = true -> shifted_press fw e) keys.
Proof.
  intros H0 Hst. revert fw fw' keys H0.
  induction idx as [|i idx IH]; intros fw fw' keys H0 Hidx; simpl.
  - intros [= _ <-]. constructor.
  - apply not_elem_of_cons in Hidx as [Hi Hidx].
    destruct (handleButton _ _ i fw) as [fw1 k1] eqn:E1.
    destruct (for_each _ idx fw1) as [fw2 k2] eqn:E2.
    intros [= _ <-]. apply Forall_app. split.
    + eapply handleButton_presses_held; eauto.
    + pose proof (handleButton_same_table _ _ _ _ _ _ E1) as Hs.
      apply RefactoredFacts.handleButton_frame in E1 as (_ & F & _).
      assert (H1 : inputs fw1 !! 0%nat = Some shift)
        by (rewrite F; auto).
      specialize (IH _ _ _ H1 Hidx E2).
      eapply Forall_impl; [exact IH|]. simpl. intros e He Hp.
      apply (shifted_press_same_table fw1 fw); [now symmetry | auto].
Qed.

Lemma loop_presses_held tk fw shift fw' keys :
  inputs fw !! 0%nat = Some shift ->
  state shift = LOW ->
  gpio_level (gpio_shift tk) (pin shift) = LOW ->
  loop tk fw = (fw', keys) ->
  Forall (fun e => is_press e = true -> shifted_press fw e) keys.
Proof.
  intros H0 Hst Hraw. unfold loop.
  rewrite (RefactoredFacts.handleShiftButton_reject _ _ _ shift H0).
  2:{ rewrite Hraw, <- Hst. apply RefactoredFacts.debounced_same_level. }
  destruct (handleButtons _ _ fw) as [fw2 k2] eqn:E2.
  intros [= _ <-]. simpl.
  eapply for_each_presses_held; eauto.
  rewrite list_elem_of_In, in_seq. lia.
Qed.

End RefactoredTable.

Module RefactoredHold.
Import Refactored.

Lemma run_app xs ys fw :
  run (xs ++ ys) fw =
  let '(fw1, k1) := run xs fw in
  let '(fw2, k2) := run ys fw1 in
  (fw2, k1 ++ k2).
Proof.
  revert fw. induction xs as [|x xs IH]; intros fw; simpl.
  - now destruct (run ys fw).
  - destruct (loop x fw) as [fw1 k1]. rewrite IH.
    destruct (run xs fw1) as [fw2 k2]. destruct (run ys fw2) as [fw3 k3].
    now rewrite app_assoc.
Qed.

Lemma run_presses_held hold fw shift fw' keys :
  inputs fw !! 0%nat = Some shift ->
  state shift = LOW ->
  Forall (fun tk => gpio_level (gpio_shift tk) (pin shift) = LOW) hold ->
  run hold fw = (fw', keys) ->
  Forall (fun e => is_press e = true -> shifted_press fw e) keys.
Proof.
  intros H0 Hst Hh. revert fw fw' keys H0.
  induction Hh as [|tk hold Htk Hh IH]; intros fw fw' keys H0; simpl.
  - intros [= _ <-]. constructor.
  - destruct (loop tk fw) as [fw1 k1] eqn:E1.
    destruct (run hold fw1) as [fw2 k2] eqn:E2.
    intros [= _ <-]. apply Forall_app. split.
    + eapply RefactoredTable.loop_presses_held; eauto.
    + destruct (RefactoredShift.loop_while_held _ _ _ _ _ H0 Hst Htk E1)
        as [H1 _].
      pose proof (RefactoredTable.loop_same_table _ _ _ _ E1) as Hs.
      eapply Forall_impl; [exact (IH _ _ _ H1 E2)|]. simpl.
      intros e He Hp.
      apply (RefactoredTable.shifted_press_same_table fw1 fw);
        [now symmetry | auto].
Qed.

(** A whole hold: the pass that confirms the press of the shift button
    and the passes during which it stays pressed. *)
Lemma hold_summary fw0 shift tk_press hold fw2 keys :
  inputs fw0 !! 0%nat = Some shift ->
  state shift = HIGH ->
  gpio_level (gpio_shift tk_press) (pin shift) = LOW ->
  DEBOUNCE_TIME <= sub32 (millis_shift tk_press) (debTimestamp shift) ->
  Forall (fun tk => gpio_level (gpio_shift tk) (pin shift) = LOW) hold ->
  run (tk_press :: hold) fw0 = (fw2, keys) ->
  inputs fw2 !! 0%nat = Some (commit shift LOW (millis_shift tk_press))
  /\ startBlock fw2 = startBlock fw0 || existsb is_press keys
  /\ Forall (fun e => is_press e = true -> shifted_press fw0 e) keys.
Proof.
  intros H0 Hst Hraw He Hh. simpl.
  destruct (loop tk_press fw0) as [fw1 k1] eqn:E1.
  destruct (run hold fw1) as [fw2' k2] eqn:E2.
  intros [= <- <-].
  destruct (RefactoredShift.loop_shift_pressed _ _ _ _ _ H0 Hst Hraw He E1)
    as [H1 B1].
  destruct (RefactoredShift.run_while_held hold fw1 _ _ _ H1 eq_refl Hh E2)
    as [H2 B2].
  split; [exact H2|]. split.
  { rewrite B2, B1, existsb_app. now rewrite orb_assoc. }
  pose proof (RefactoredTable.loop_same_table _ _ _ _ E1) as Hs.
  apply Forall_app. split.
  - clear B1 H1 E2 H2 B2 Hs. revert E1. unfold loop.
    rewrite (RefactoredFacts.handleShiftButton_accept _ _ _ shift H0).
    2:{ apply RefactoredFacts.debounced_iff. rewrite Hraw, Hst. now split. }
    rewrite Hraw, andb_false_r.
    destruct (handleButtons _ _ _) as [fw1' k'] eqn:E.
    intros [= <- <-]. simpl.
    match type of E with
    | handleButtons _ _ ?f = _ => set (fw1 := f) in *
    end.
    assert (L : inputs fw1 !! 0%nat
                = Some (commit shift LOW (millis_shift tk_press))).
    { subst fw1. simpl. apply list_lookup_insert_eq.
      eapply lookup_lt_Some; eauto. }
    assert (N : 0%nat ∉ seq 1 (SW_INPUTS - 1)).
    { rewrite list_elem_of_In, in_seq. lia. }
    assert (P := RefactoredTable.for_each_presses_held _ _ _ _ _ _ _
                   L eq_refl N E).
    eapply Forall_impl; [exact P|]. simpl. intros e Hp Hpress.
    eapply RefactoredTable.shifted_press_same_table; [|apply Hp, Hpress].
    unfold same_table. subst fw1. simpl.
    now apply RefactoredTable.same_table_commit.
  - eapply Forall_impl;
      [exact (run_presses_held hold fw1 _ _ _ H1 eq_refl Hh E2)|].
    simpl. intros e Hp Hpress.
    apply (RefactoredTable.shifted_press_same_table fw1 fw0);
      [now symmetry | auto].
Qed.

Lemma others_quiet_shift gpioStates fw shift' block :
  others_quiet gpioStates fw ->
  others_quiet gpioStates
    (mkFirmware (<[0%nat := shift']> (inputs fw)) block).
Proof.
  intros Hq i inp Hne. simpl.
  rewrite list_lookup_insert_ne by congruence. now apply Hq.
Qed.

(** Passes in which the shift button stays held and nothing else is
    touched change nothing and send nothing. *)
Lemma run_quiet_hold hold fw shift :
  inputs fw !! 0%nat = Some shift ->
  state shift = LOW ->
  Forall (fun tk => gpio_level (gpio_shift tk) (pin shift) = LOW
                    /\ others_quiet (gpio_buttons tk) fw) hold ->
  run hold fw = (fw, []).
Proof.
  intros H0 Hst. induction 1 as [|tk hold [Hraw Hq] _ IH]; simpl;
    [reflexivity|].
  unfold loop.
  rewrite (RefactoredFacts.handleShiftButton_reject _ _ _ shift H0).
  2:{ rewrite Hraw, <- Hst. apply RefactoredFacts.debounced_same_level. }
  rewrite (RefactoredShift.handleButtons_quiet _ _ _ Hq).
  now rewrite IH.
Qed.

End RefactoredHold.

Module RefactoredTap.
Import Refactored.

Lemma idle_unlocked fw shift :
  reachable fw -> inputs fw !! 0%nat = Some shift -> state shift = HIGH ->
  startBlock fw = false.
Proof.
  intros Hr H0 Hst. destruct (startBlock fw) eqn:B; [|reflexivity].
  apply (RefactoredShift.lock_only_while_held fw Hr) in B.
  unfold shift_held in B. rewrite H0, Hst in B. discriminate.
Qed.

(** The released-edge of the shift button. *)
Lemma shift_released millisNow gpioStates fw shift :
  inputs fw !! 0%nat = Some shift ->
  state shift = LOW ->
  gpio_level gpioStates (pin shift) = HIGH ->
  DEBOUNCE_TIME <= sub32 millisNow (debTimestamp shift) ->
  handleShiftButton millisNow gpioStates fw =
  (mkFirmware (<[0%nat := commit shift HIGH millisNow]> (inputs fw)) false,
   if startBlock fw then []
   else [KeyPress (btn shift); KeyRelease (btn shift)]).
Proof.
  intros H0 Hst Hraw He.
  rewrite (RefactoredFacts.handleShiftButton_accept _ _ _ shift H0).
  2:{ apply RefactoredFacts.debounced_iff. rewrite Hraw, Hst. now split. }
  rewrite Hraw. simpl. now destruct (startBlock fw).
Qed.

(** Press and release of the shift button with nothing else touched. *)
Lemma tap_alone fw0 shift tk_press hold tk_release :
  reachable fw0 ->
  inputs fw0 !! 0%nat = Some shift ->
  state shift = HIGH ->
  gpio_level (gpio_shift tk_press) (pin shift) = LOW ->
  DEBOUNCE_TIME <= sub32 (millis_shift tk_press) (debTimestamp shift) ->
  Forall (fun tk => gpio_level (gpio_shift tk) (pin shift) = LOW) hold ->
  gpio_level (gpio_shift tk_release) (pin shift) = HIGH ->
  DEBOUNCE_TIME <= sub32 (millis_shift tk_release) (millis_shift tk_press) ->
  Forall (fun tk => others_quiet (gpio_buttons tk) fw0)
    (tk_press :: hold ++ [tk_release]) ->
  snd (run (tk_press :: hold ++ [tk_release]) fw0)
  = [KeyPress (btn shift); KeyRelease (btn shift)].
Proof.
  intros Hr H0 Hst Hp Hpe Hh Hrl Hre Hq.
  pose proof (idle_unlocked _ _ Hr H0 Hst) as Hb.
  pose proof (lookup_lt_Some _ _ _ H0) as Hlen.
  inversion Hq as [|? ? Hq1 Hq23]; subst.
  apply Forall_app in Hq23 as [Hq2 Hq3].
  inversion Hq3 as [|? ? Hq3' _]; subst. clear Hq3 Hq.
  set (fw1 := mkFirmware
                (<[0%nat := commit shift LOW (millis_shift tk_press)]>
                   (inputs fw0)) (startBlock fw0)).
  assert (E1 : loop tk_press fw0 = (fw1, [])).
  { unfold loop.
    rewrite (RefactoredFacts.handleShiftButton_accept _ _ _ shift H0).
    2:{ apply RefactoredFacts.debounced_iff. rewrite Hp, Hst. now split. }
    rewrite Hp, andb_false_r. fold fw1.
    rewrite RefactoredShift.handleButtons_quiet; [reflexivity|].
    now apply RefactoredHold.others_quiet_shift. }
  assert (H1 : inputs fw1 !! 0%nat
               = Some (commit shift LOW (millis_shift tk_press))).
  { subst fw1. simpl. now apply list_lookup_insert_eq. }
  assert (E2 : run hold fw1 = (fw1, [])).
  { apply (RefactoredHold.run_quiet_hold hold fw1 _ H1 eq_refl).
    rewrite Forall_forall in *. intros tk Htk. split; [now apply Hh|].
    apply RefactoredHold.others_quiet_shift. now apply Hq2. }
  assert (E3 : snd (loop tk_release fw1)
               = [KeyPress (btn shift); KeyRelease (btn shift)]).
  { unfold loop.
    rewrite (shift_released _ _ fw1 _ H1 eq_refl Hrl Hre).
    rewrite RefactoredShift.handleButtons_quiet.
    - simpl. subst fw1. simpl. now rewrite Hb.
    - apply RefactoredHold.others_quiet_shift.
      now apply RefactoredHold.others_quiet_shift. }
  cbn [run]. rewrite E1, RefactoredHold.run_app, E2. cbn [run].
  destruct (loop tk_release fw1) as [fw3 k3]. simpl in *.
  now rewrite E3.
Qed.

End RefactoredTap.

(** C5, as the two keyboard sketches have it.  Refactored sketch: (1) a
    confirmed released-edge of the shift button sends a press immediately
    followed by a release of its primary code when [startBlock] is false,
    sends nothing when it is true, and leaves [startBlock] false; (2)
    over a hold that starts in a reachable state, [startBlock] is true at
    the release exactly when some press was sent during the hold, every
    such press being the shifted code of another input, so the release
    sends the pair if there was none and nothing otherwise; (3) a press
    and release of the shift button with no other input touched sends
    the pair and nothing else.  Original sketch: (4) the shift input is
    an ordinary key: its pressed-edge presses its primary code, its
    released-edge releases it (when the code is above 32), and
    [startBlock] is true after the press and false after the release. *)
Theorem shift_release_and_tap :
  (forall millisNow gpioStates fw shift fw' keys,
      Refactored.inputs fw !! 0%nat = Some shift ->
      Refactored.handleShiftButton millisNow gpioStates fw = (fw', keys) ->
      Refactored.state shift = LOW ->
      Refactored.gpio_level gpioStates (Refactored.pin shift) = HIGH ->
      Refactored.DEBOUNCE_TIME
        <= sub32 millisNow (Refactored.debTimestamp shift) ->
      keys = (if Refactored.startBlock fw then []
              else [KeyPress (Refactored.btn shift);
                    KeyRelease (Refactored.btn shift)])
      /\ Refactored.startBlock fw' = false)
  /\ (forall fw0 shift tk_press hold fw2 keys millisNow gpioStates fw3 keys3,
      Refactored.reachable fw0 ->
      Refactored.inputs fw0 !! 0%nat = Some shift ->
      Refactored.state shift = HIGH ->
      Refactored.gpio_level (Refactored.gpio_shift tk_press)
        (Refactored.pin shift) = LOW ->
      Refactored.DEBOUNCE_TIME
        <= sub32 (Refactored.millis_shift tk_press)
             (Refactored.debTimestamp shift) ->
      Forall (fun tk => Refactored.gpio_level (Refactored.gpio_shift tk)
                          (Refactored.pin shift) = LOW) hold ->
      Refactored.run (tk_press :: hold) fw0 = (fw2, keys) ->
      Refactored.gpio_level gpioStates (Refactored.pin shift) = HIGH ->
      Refactored.DEBOUNCE_TIME
        <= sub32 millisNow (Refactored.millis_shift tk_press) ->
      Refactored.handleShiftButton millisNow gpioStates fw2 = (fw3, keys3) ->
      Forall (fun e => is_press e = true -> Refactored.shifted_press fw0 e)
        keys
      /\ Refactored.startBlock fw2 = existsb is_press keys
      /\ keys3 = (if existsb is_press keys then []
                  else [KeyPress (Refactored.btn shift);
                        KeyRelease (Refactored.btn shift)])
      /\ Refactored.startBlock fw3 = false)
  /\ (forall fw0 shift tk_press hold tk_release,
      Refactored.reachable fw0 ->
      Refactored.inputs fw0 !! 0%nat = Some shift ->
      Refactored.state shift = HIGH ->
      Refactored.gpio_level (Refactored.gpio_shift tk_press)
        (Refactored.pin shift) = LOW ->
      Refactored.DEBOUNCE_TIME
        <= sub32 (Refactored.millis_shift tk_press)
             (Refactored.debTimestamp shift) ->
      Forall (fun tk => Refactored.gpio_level (Refactored.gpio_shift tk)
                          (Refactored.pin shift) = LOW) hold ->
      Refactored.gpio_level (Refactored.gpio_shift tk_release)
        (Refactored.pin shift) = HIGH ->
      Refactored.DEBOUNCE_TIME
        <= sub32 (Refactored.millis_shift tk_release)
             (Refactored.millis_shift tk_press) ->
      Forall (fun tk => Refactored.others_quiet
                          (Refactored.gpio_buttons tk) fw0)
        (tk_press :: hold ++ [tk_release]) ->
      snd (Refactored.run (tk_press :: hold ++ [tk_release]) fw0)
      = [KeyPress (Refactored.btn shift); KeyRelease (Refactored.btn shift)])
  /\ (forall now raw fw shift fw' keys,
      Original.inputs fw !! 0%nat = Some shift ->
      Original.handleInput (Original.steady now raw) 0%nat true fw
        = (fw', keys) ->
      raw <> Original.state shift ->
      Original.debTime < sub32 now (Original.dbTime shift) ->
      keys = (if 32 <? Original.btn shift
              then [if raw then KeyRelease (Original.btn shift)
                    else KeyPress (Original.btn shift)]
              else [])
      /\ Original.startBlock fw' = negb raw).
Proof.
  repeat apply conj.
  - intros millisNow gpioStates fw shift fw' keys H0 Hrun Hst Hraw He.
    rewrite (RefactoredTap.shift_released _ _ _ _ H0 Hst Hraw He) in Hrun.
    now injection Hrun as <- <-.
  - intros fw0 shift tk_press hold fw2 keys millisNow gpioStates fw3 keys3
      Hr H0 Hst Hp Hpe Hh Hrun Hrl Hre Hrel.
    destruct (RefactoredHold.hold_summary _ _ _ _ _ _ H0 Hst Hp Hpe Hh Hrun)
      as (H2 & B & P).
    rewrite (RefactoredTap.idle_unlocked _ _ Hr H0 Hst) in B. simpl in B.
    rewrite (RefactoredTap.shift_released _ _ _ _ H2 eq_refl Hrl Hre) in Hrel.
    injection Hrel as <- <-. rewrite B. auto.
  - exact RefactoredTap.tap_alone.
  - intros now raw fw shift fw' keys H0 Hrun Hl Ht.
    destruct (OriginalFacts.handleInput_accept now raw 0%nat true fw shift
                H0 Hl Ht) as (sh & _ & E).
    rewrite E in Hrun. injection Hrun as <- <-. now split.
Qed.

(** A tap of P1 START in the refactored sketch: pressed at 10 ms, held
    for one more pass, released at 30 ms, every other input at rest. *)
Lemma shift_release_and_tap_witness :
  let fw0 := fst (Refactored.setup (fun _ => HIGH)) in
  let rest := 2 ^ 32 - 1 in
  let pressed := 2 ^ 32 - 1 - 2 ^ 6 in
  snd (Refactored.run
         (Refactored.mkTick 10 pressed 10 rest
          :: [Refactored.mkTick 20 pressed 20 rest]
          ++ [Refactored.mkTick 30 rest 30 rest]) fw0)
  = [KeyPress 49; KeyRelease 49].
Proof.
  intros fw0 rest pressed.
  refine (proj1 (proj2 (proj2 shift_release_and_tap)) fw0
            (Refactored.mkInput 6 0 HIGH 49 49)
            (Refactored.mkTick 10 pressed 10 rest)
            [Refactored.mkTick 20 pressed 20 rest]
            (Refactored.mkTick 30 rest 30 rest)
            (Refactored.reachable_setup _) eq_refl eq_refl eq_refl _ _
            eq_refl _ _).
  - vm_compute. discriminate.
  - repeat constructor.
  - vm_compute. discriminate.
  - repeat constructor; intros i inp Hne Hi;
      do 26 (destruct i as [|i];
             [try congruence; injection Hi as <-; reflexivity|]);
      discriminate.
Defined.

(** C5 as stated fails on the original sketch.  From rest, the shift
    input (index 0, code 53) is pressed and released with nothing else
    touched: the released-edge sends one release only, the press having
    gone out at the pressed-edge.  With a shifted press of the next
    input during the hold, the released-edge of the shift input still
    sends its release. *)
Lemma original_shift_is_a_plain_key :
  let fw0 := Original.setup (fun _ => HIGH) (fun _ => 0) in
  let press := Original.handleInput (Original.steady 41 LOW) 0%nat true fw0 in
  let tap := Original.handleInput (Original.steady 100 HIGH) 0%nat true
               (fst press) in
  let other := Original.handleInput (Original.steady 60 LOW) 1%nat false
                 (fst press) in
  let release := Original.handleInput (Original.steady 100 HIGH) 0%nat true
                   (fst other) in
  snd press = [KeyPress 53]
  /\ snd tap = [KeyRelease 53]
  /\ snd other = [KeyPress 54]
  /\ snd release = [KeyRelease 53].
Proof. vm_compute. repeat split. Qed.

(** ** The packed reports of the gamepad sketch (C6, C10) *)
Module GamepadPack.
Import Gamepad.

Lemma wrap32_nonneg z : 0 <= wrap32 z.
Proof. unfold wrap32. apply Z.mod_pos_bound. lia. Qed.

(** One term of the mask: a state that is 0 or 1, shifted to its
    position. *)
Lemma term_testbit st (s : nat) k :
  st = 0 \/ st = 1 -> (s < 32)%nat ->
  Z.testbit (wrap32 (Z.shiftl st (Z.of_nat s))) k
  = (st =? 1) && (k =? Z.of_nat s).
Proof.
  intros [-> | ->] Hs.
  - rewrite Z.shiftl_0_l. unfold wrap32. rewrite Z.mod_0_l by lia.
    apply Z.bits_0.
  - rewrite Z.shiftl_1_l. unfold wrap32.
    rewrite Z.mod_small.
    + rewrite Z.pow2_bits_eqb by lia. simpl. apply Z.eqb_sym.
    + split; [apply Z.pow_nonneg; lia|].
      apply Z.pow_lt_mono_r; lia.
Qed.

Lemma fold_step_testbit sts i js acc k :
  Z.testbit (fold_left (pack_step sts i) js acc) k
  = Z.testbit acc k
    || existsb
         (fun j => match sts !! j with
                   | Some st =>
                       Z.testbit
                         (wrap32 (Z.shiftl st (Z.of_nat (j - i * 13)))) k
                   | None => false
                   end) js.
Proof.
  revert acc. induction js as [|j js IH]; intros acc; cbn [fold_left existsb].
  - now rewrite orb_false_r.
  - rewrite IH. unfold pack_step.
    destruct (sts !! j); [rewrite Z.lor_spec|]; simpl;
      now rewrite ?orb_assoc.
Qed.

Lemma fold_step_nonneg sts i js acc :
  0 <= acc -> 0 <= fold_left (pack_step sts i) js acc.
Proof.
  revert acc. induction js as [|j js IH]; intros acc Hacc; simpl; auto.
  apply IH. unfold pack_step. destruct (sts !! j); [|assumption].
  apply Z.lor_nonneg. split; [assumption | apply wrap32_nonneg].
Qed.

Lemma pack_nonneg sts i : 0 <= pack sts i.
Proof. apply fold_step_nonneg. lia. Qed.

(** Bit [k] of the mask of gamepad [i]. *)
Lemma pack_testbit sts i k :
  Forall (fun st => st = 0 \/ st = 1) sts ->
  Z.testbit (pack sts i) k
  = existsb
      (fun j => bool_decide (sts !! j = Some 1)
                && (k =? Z.of_nat (j - i * 13)))
      (seq (i * 13) 13).
Proof.
  intros Hbits. unfold pack.
  rewrite fold_step_testbit, Z.bits_0, orb_false_l.
  apply existsb_agree. intros j Hj. apply in_seq in Hj.
  destruct (sts !! j) as [st|] eqn:E; [|reflexivity].
  rewrite Forall_forall in Hbits.
  assert (Hst : st = 0 \/ st = 1).
  { apply Hbits. eapply list_elem_of_lookup_2; eauto. }
  rewrite term_testbit by (auto; lia).
  f_equal. destruct Hst as [-> | ->]; reflexivity.
Qed.

Lemma pack_testbit_high sts i k :
  Forall (fun st => st = 0 \/ st = 1) sts ->
  13 <= k -> Z.testbit (pack sts i) k = false.
Proof.
  intros Hbits Hk. rewrite pack_testbit by assumption.
  apply not_true_is_false. rewrite existsb_exists.
  intros (j & Hj & H). apply in_seq in Hj.
  apply andb_true_iff in H as [_ H]. apply Z.eqb_eq in H. lia.
Qed.

Lemma pack_testbit_low sts i (j : nat) :
  Forall (fun st => st = 0 \/ st = 1) sts ->
  (j < 13)%nat ->
  Z.testbit (pack sts i) (Z.of_nat j)
  = bool_decide (sts !! (i * 13 + j)%nat = Some 1).
Proof.
  intros Hbits Hj. rewrite pack_testbit by assumption.
  apply eq_true_iff_eq. rewrite existsb_exists. split.
  - intros (j' & Hj' & H). apply in_seq in Hj'.
    apply andb_true_iff in H as [H1 H2]. apply Z.eqb_eq in H2.
    replace (i * 13 + j)%nat with j' by lia. exact H1.
  - intros H. exists (i * 13 + j)%nat. split; [apply in_seq; lia|].
    rewrite H. simpl. apply Z.eqb_eq. f_equal. lia.
Qed.

(** The mask of a group fits in its 13 low bits. *)
Lemma pack_bound sts i :
  Forall (fun st => st = 0 \/ st = 1) sts -> 0 <= pack sts i < 2 ^ 13.
Proof.
  intros Hbits. pose proof (pack_nonneg sts i) as H0. split; [exact H0|].
  destruct (Z.eq_dec (pack sts i) 0) as [-> | Hne]; [lia|].
  apply Z.log2_lt_pow2; [lia|].
  destruct (Z_lt_dec (Z.log2 (pack sts i)) 13) as [Hlt|Hge]; [exact Hlt|].
  assert (Hb : Z.testbit (pack sts i) (Z.log2 (pack sts i)) = true)
    by (apply Z.bit_log2; lia).
  rewrite pack_testbit_high in Hb by (auto; lia). discriminate.
Qed.

Lemma fold_step_agree sts sts' i js acc :
  (forall j, In j js -> sts !! j = sts' !! j) ->
  fold_left (pack_step sts i) js acc = fold_left (pack_step sts' i) js acc.
Proof.
  revert acc. induction js as [|j js IH]; intros acc H; simpl; [reflexivity|].
  unfold pack_step at 2 4. rewrite (H j) by now left.
  apply IH. intros j' Hj'. apply H. now right.
Qed.

(** The mask of a group depends on the states of the group only. *)
Lemma pack_agree sts sts' i :
  (forall j, (j < 13)%nat -> sts !! (i * 13 + j)%nat
                             = sts' !! (i * 13 + j)%nat) ->
  pack sts i = pack sts' i.
Proof.
  intros H. apply fold_step_agree. intros j Hj. apply in_seq in Hj.
  replace j with (i * 13 + (j - i * 13))%nat by lia. apply H. lia.
Qed.

End GamepadPack.

Module GamepadPass.
Import Gamepad.

Lemma mark_length g pads : length (mark g pads) = length pads.
Proof. unfold mark. destruct (pads !! g); [apply length_insert | done]. Qed.

Lemma mark_lookup_ne g g' pads : g <> g' -> mark g pads !! g' = pads !! g'.
Proof.
  intros H. unfold mark. destruct (pads !! g); [|done].
  now apply list_lookup_insert_ne.
Qed.

Lemma level_bit gpio_now b : level gpio_now b = 0 \/ level gpio_now b = 1.
Proof. unfold level. destruct (negb _); auto. Qed.

Lemma buttons_pass_S gpio_now time_now n fw :
  buttons_pass gpio_now time_now (S n) fw
  = debounce_button gpio_now time_now n (buttons_pass gpio_now time_now n fw).
Proof. unfold buttons_pass. now rewrite seq_S, fold_left_app. Qed.

Lemma changed_upto_S n fw fw' g :
  changed_upto (S n) fw fw' g
  = changed_upto n fw fw' g
    || ((group n =? g)%nat
        && negb (bool_decide (states fw' !! n = states fw !! n))).
Proof.
  unfold changed_upto. rewrite seq_S, existsb_app. simpl.
  now rewrite orb_false_r.
Qed.

Lemma changed_upto_agree n fw fw1 fw2 g :
  (forall j, (j < n)%nat -> states fw1 !! j = states fw2 !! j) ->
  changed_upto n fw fw1 g = changed_upto n fw fw2 g.
Proof.
  intros H. apply existsb_agree. intros j Hj. apply in_seq in Hj.
  rewrite H by lia. reflexivity.
Qed.

(** The button loop, by induction on the number of iterations done:
    sizes and bits are kept, the buttons not yet visited are as they
    were, and the dirty flag of a group is raised exactly when one of
    its buttons changed. *)
Lemma buttons_pass_spec gpio_now time_now fw n :
  (n <= PICO_GPIO_COUNT)%nat ->
  length (timers fw) = PICO_GPIO_COUNT ->
  length (states fw) = PICO_GPIO_COUNT ->
  Forall (fun st => st = 0 \/ st = 1) (states fw) ->
  let fwn := buttons_pass gpio_now time_now n fw in
  length (timers fwn) = PICO_GPIO_COUNT
  /\ length (states fwn) = PICO_GPIO_COUNT
  /\ length (gamepads fwn) = length (gamepads fw)
  /\ Forall (fun st => st = 0 \/ st = 1) (states fwn)
  /\ (forall i, (n <= i)%nat ->
                timers fwn !! i = timers fw !! i
                /\ states fwn !! i = states fw !! i)
  /\ (forall g p, gamepads fw !! g = Some p ->
                  gamepads fwn !! g
                  = Some (mkGamepad (buttonStates p)
                            (needToSend p || changed_upto n fw fwn g))).
Proof.
  intros Hn Lt Ls Hbits. induction n as [|n IH]; intros fwn.
  - subst fwn. unfold buttons_pass. simpl. repeat split; auto.
    intros g p Hp. rewrite Hp. unfold changed_upto. simpl.
    rewrite orb_false_r. now destruct p.
  - destruct IH as (Lt' & Ls' & Lg' & Hb' & Hun & Hg); [lia|].
    subst fwn. rewrite buttons_pass_S.
    set (fwn := buttons_pass gpio_now time_now n fw) in *.
    destruct (Hun n (le_n n)) as [Htn Hsn].
    destruct (lookup_lt_is_Some_2 (timers fw) n) as [timer Ht]; [lia|].
    destruct (lookup_lt_is_Some_2 (states fw) n) as [old Hs]; [lia|].
    destruct (lookup_lt_is_Some_2 buttons n) as [b Hb];
      [change (length buttons) with PICO_GPIO_COUNT; lia|].
    rewrite Ht in Htn. rewrite Hs in Hsn.
    destruct (decide (level gpio_now b <> old
                      /\ DEBOUNCE_MS < sub32 time_now timer)) as [[Hl He]|Hr].
    + rewrite (GamepadFacts.debounce_button_accept _ _ _ _ _ _ _
                 Htn Hsn Hb Hl He). simpl.
      rewrite !length_insert, mark_length.
      repeat split; try assumption.
      * apply Forall_insert; [assumption | apply level_bit].
      * rewrite list_lookup_insert_ne by lia. apply Hun. lia.
      * rewrite list_lookup_insert_ne by lia. apply Hun. lia.
      * intros g p Hp. specialize (Hg g p Hp).
        rewrite changed_upto_S. simpl.
        rewrite list_lookup_insert_eq by lia. rewrite Hs.
        rewrite (bool_decide_eq_false_2 (Some (level gpio_now b) = Some old))
          by congruence.
        destruct (decide (group n = g)) as [<- | Hne].
        -- rewrite (GamepadFacts.mark_lookup _ _ _ Hg). simpl.
           rewrite Nat.eqb_refl. simpl.
           now rewrite !orb_true_r.
        -- rewrite mark_lookup_ne by assumption. rewrite Hg.
           apply Nat.eqb_neq in Hne. rewrite Hne. simpl.
           rewrite orb_false_r. do 3 f_equal.
           apply changed_upto_agree. intros j Hj. simpl.
           now rewrite list_lookup_insert_ne by lia.
    + rewrite (GamepadFacts.debounce_button_reject _ _ _ _ _ _ _
                 Htn Hsn Hb Hr).
      repeat split; try assumption.
      * apply Hun. lia.
      * apply Hun. lia.
      * intros g p Hp. rewrite (Hg g p Hp), changed_upto_S, Hsn, Hs.
        rewrite bool_decide_eq_true_2 by reflexivity. simpl.
        now rewrite andb_false_r, orb_false_r.
Qed.

End GamepadPass.

Module GamepadLoop.
Import Gamepad.

(** The gamepad loop over the two reports. *)
Lemma send_spec fw p0 p1 :
  gamepads fw = [p0; p1] ->
  for_each send_gamepad (seq 0 2) fw
  = (mkFirmware (timers fw) (states fw)
       [if needToSend p0 then mkGamepad (pack (states fw) 0) false else p0;
        if needToSend p1 then mkGamepad (pack (states fw) 1) false else p1],
     (if needToSend p0
      then [SendReport REPORT_ID_GAMEPAD_A (pack (states fw) 0)] else [])
     ++ (if needToSend p1
         then [SendReport (REPORT_ID_GAMEPAD_A + 1) (pack (states fw) 1)]
         else [])).
Proof.
  intros Hg. destruct fw as [ts sts pads]. simpl in Hg. subst pads.
  destruct p0 as [m0 []], p1 as [m1 []]; reflexivity.
Qed.

Lemma group_of_member g j :
  (g < 2)%nat -> (j < 13)%nat -> group (g * 13 + j) = g.
Proof.
  intros Hg Hj. unfold group.
  destruct (Nat.ltb_spec (g * 13 + j) 13); lia.
Qed.

(** A group counts as changed exactly when one of its 13 buttons has a
    new confirmed state. *)
Lemma changed_iff fw fw' g :
  (g < 2)%nat ->
  changed fw fw' g = true <->
  exists j, (j < 13)%nat
            /\ states fw' !! (g * 13 + j)%nat
               <> states fw !! (g * 13 + j)%nat.
Proof.
  intros Hg. unfold changed, changed_upto. rewrite existsb_exists. split.
  - intros (i & Hi & H). apply in_seq in Hi.
    apply andb_true_iff in H as [H1 H2]. apply Nat.eqb_eq in H1.
    apply negb_true_iff, bool_decide_eq_false in H2.
    assert (Hgi : (g * 13 <= i < g * 13 + 13)%nat).
    { unfold group, PICO_GPIO_COUNT in *.
      destruct (Nat.ltb_spec i 13); lia. }
    exists (i - g * 13)%nat. split; [lia|].
    now replace (g * 13 + (i - g * 13))%nat with i by lia.
  - intros (j & Hj & H). exists (g * 13 + j)%nat. split.
    + apply in_seq. unfold PICO_GPIO_COUNT. lia.
    + rewrite group_of_member, Nat.eqb_refl by assumption. simpl.
      now apply negb_true_iff, bool_decide_eq_false.
Qed.

Lemma unchanged_states fw fw' g :
  (g < 2)%nat -> changed fw fw' g = false ->
  forall j, (j < 13)%nat ->
            states fw' !! (g * 13 + j)%nat = states fw !! (g * 13 + j)%nat.
Proof.
  intros Hg Hc j Hj.
  destruct (decide (states fw' !! (g * 13 + j)%nat
                    = states fw !! (g * 13 + j)%nat)) as [E|N]; [exact E|].
  assert (changed fw fw' g = true) by (apply changed_iff; eauto).
  congruence.
Qed.

(** The two loops of a pass that goes on. *)
Lemma loop_two_loops tk fw fw' sent :
  loop tk fw = Continued fw' sent ->
  for_each send_gamepad (seq 0 2)
    (buttons_pass (gpio_now_of tk) (time_now_of tk) PICO_GPIO_COUNT fw)
  = (fw', sent).
Proof.
  unfold loop.
  destruct (usb_suspended tk && negb (gpio_now_of tk =? 0)); [discriminate|].
  destruct (for_each send_gamepad (seq 0 2) _) as [fw2 sent2].
  now intros [= <- <-].
Qed.

(** The gamepad loop after a button loop that left the flags as
    [buttons_pass_spec] says. *)
Lemma send_after_pass fw fw1 fw' sent :
  consistent fw ->
  length (timers fw1) = PICO_GPIO_COUNT ->
  length (states fw1) = PICO_GPIO_COUNT ->
  Forall (fun st => st = 0 \/ st = 1) (states fw1) ->
  (forall g p, gamepads fw !! g = Some p ->
               gamepads fw1 !! g
               = Some (mkGamepad (buttonStates p)
                         (needToSend p || changed fw fw1 g))) ->
  length (gamepads fw1) = length (gamepads fw) ->
  for_each send_gamepad (seq 0 2) fw1 = (fw', sent) ->
  consistent fw'
  /\ sent = report_of fw fw' 0 ++ report_of fw fw' 1
  /\ (forall g, (g < 2)%nat ->
                gamepads fw' !! g
                = Some (mkGamepad (pack (states fw') g) false)).
Proof.
  intros (Lt & Ls & Lg & Hbits & Hpads) Lt1 Ls1 Hb1 Hg1 Lg1.
  destruct (gamepads fw) as [|p0 [|p1 [|]]] eqn:Epads; try discriminate.
  pose proof (Hg1 0%nat p0 eq_refl) as G0.
  pose proof (Hg1 1%nat p1 eq_refl) as G1.
  destruct (Hpads 0%nat p0 eq_refl) as [N0 M0].
  destruct (Hpads 1%nat p1 eq_refl) as [N1 M1].
  rewrite N0, orb_false_l in G0. rewrite N1, orb_false_l in G1.
  destruct (gamepads fw1) as [|q0 [|q1 [|]]] eqn:Epads1; try discriminate.
  apply (inj Some) in G0. apply (inj Some) in G1. subst q0 q1.
  rewrite (send_spec fw1 _ _ Epads1). cbn [needToSend buttonStates].
  intros E. injection E as Efw Esent.
  assert (Est : states fw' = states fw1) by (now rewrite <- Efw).
  assert (Epd : gamepads fw'
                = [mkGamepad (pack (states fw1) 0) false;
                   mkGamepad (pack (states fw1) 1) false]).
  { rewrite <- Efw. cbn [gamepads]. f_equal; [|f_equal].
    - destruct (changed fw fw1 0) eqn:C; [reflexivity|]. f_equal.
      rewrite M0. apply GamepadPack.pack_agree. intros j Hj. symmetry.
      apply (unchanged_states fw fw1 0); auto.
    - destruct (changed fw fw1 1) eqn:C; [reflexivity|]. f_equal.
      rewrite M1. apply GamepadPack.pack_agree. intros j Hj. symmetry.
      apply (unchanged_states fw fw1 1); auto. }
  assert (Etm : timers fw' = timers fw1) by (now rewrite <- Efw).
  assert (Ech : forall g, changed fw fw' g = changed fw fw1 g).
  { intros g. unfold changed, changed_upto. now rewrite Est. }
  clear Efw. split; [|split].
  - unfold consistent. rewrite Est, Epd, Etm.
    split; [exact Lt1|]. split; [exact Ls1|]. split; [reflexivity|].
    split; [exact Hb1|].
    intros [|[|g]] p Hp; [| |discriminate];
      apply (inj Some) in Hp; subst p; split; reflexivity.
  - rewrite <- Esent. unfold report_of. rewrite !Ech, Est.
    reflexivity.
  - intros [|[|g]] Hg; [| |lia]; rewrite Epd, Est; reflexivity.
Qed.

(** One pass of [loop] from a consistent state. *)
Lemma loop_spec tk fw fw' sent :
  consistent fw ->
  loop tk fw = Continued fw' sent ->
  consistent fw'
  /\ sent = report_of fw fw' 0 ++ report_of fw fw' 1
  /\ (forall g, (g < 2)%nat ->
                gamepads fw' !! g
                = Some (mkGamepad (pack (states fw') g) false)).
Proof.
  intros Hc Hl. apply loop_two_loops in Hl.
  pose proof Hc as (Lt & Ls & _ & Hbits & _).
  destruct (GamepadPass.buttons_pass_spec (gpio_now_of tk) (time_now_of tk)
              fw PICO_GPIO_COUNT (le_n _) Lt Ls Hbits)
    as (Lt1 & Ls1 & Lg1 & Hb1 & _ & Hg1).
  exact (send_after_pass fw _ fw' sent Hc Lt1 Ls1 Hb1 Hg1 Lg1 Hl).
Qed.

Lemma init_consistent : consistent init.
Proof.
  unfold consistent. split; [reflexivity|]. split; [reflexivity|].
  split; [reflexivity|]. split.
  - apply Forall_forall. intros st Hst.
    apply elem_of_replicate in Hst as [-> _]. now left.
  - intros [|[|g]] p Hp; [| |discriminate];
      apply (inj Some) in Hp; subst p; split; reflexivity.
Qed.

Lemma reachable_consistent fw : reachable fw -> consistent fw.
Proof.
  induction 1 as [|tk fw fw' sent _ IH Hl]; [apply init_consistent|].
  now destruct (loop_spec _ _ _ _ IH Hl).
Qed.

End GamepadLoop.

(** C6.  In every reachable state of the gamepad sketch and for every
    pass of [loop] that goes on: the reports sent are, in order, the one
    of gamepad A and the one of gamepad B, each present exactly when a
    button of its group has a new confirmed state and each carrying the
    mask packed from the confirmed states the pass leaves.  For each
    group: the stored mask was the packing of the old states; after the
    pass it is the packing of the new ones and the dirty flag is clear;
    bit [j] of the mask is the state of button [j] of the group; a bit of
    the mask differs from the previous mask only at the position of a
    button of the group whose state changed; and a group without a
    change keeps its report as it was (and sends nothing). *)
Theorem gamepad_reports_isolated :
  forall tk fw fw' sent,
    Gamepad.reachable fw ->
    Gamepad.loop tk fw = Gamepad.Continued fw' sent ->
    sent = Gamepad.report_of fw fw' 0 ++ Gamepad.report_of fw fw' 1
    /\ forall g p,
        Gamepad.gamepads fw !! g = Some p ->
        Gamepad.buttonStates p = Gamepad.pack (Gamepad.states fw) g
        /\ (Gamepad.changed fw fw' g = true <->
            exists j, (j < 13)%nat
                      /\ Gamepad.states fw' !! (g * 13 + j)%nat
                         <> Gamepad.states fw !! (g * 13 + j)%nat)
        /\ exists p',
            Gamepad.gamepads fw' !! g = Some p'
            /\ Gamepad.needToSend p' = false
            /\ Gamepad.buttonStates p' = Gamepad.pack (Gamepad.states fw') g
            /\ (forall j, (j < 13)%nat ->
                  Z.testbit (Gamepad.buttonStates p') (Z.of_nat j)
                  = bool_decide
                      (Gamepad.states fw' !! (g * 13 + j)%nat = Some 1))
            /\ (forall k,
                  Z.testbit (Gamepad.buttonStates p') k
                  <> Z.testbit (Gamepad.buttonStates p) k ->
                  exists j, (j < 13)%nat /\ k = Z.of_nat j
                            /\ Gamepad.states fw' !! (g * 13 + j)%nat
                               <> Gamepad.states fw !! (g * 13 + j)%nat)
            /\ (Gamepad.changed fw fw' g = false -> p' = p).
Proof.
  intros tk fw fw' sent Hr Hl.
  pose proof (GamepadLoop.reachable_consistent fw Hr) as Hc.
  destruct (GamepadLoop.loop_spec tk fw fw' sent Hc Hl) as (Hc' & Hsent & Hp').
  split; [exact Hsent|]. intros g p Hp.
  destruct Hc as (_ & _ & Lg & Hbits & Hpads).
  destruct Hc' as (_ & _ & _ & Hbits' & _).
  assert (Hg : (g < 2)%nat) by (rewrite <- Lg; eapply lookup_lt_Some; eauto).
  destruct (Hpads g p Hp) as [Hn Hm].
  split; [exact Hm|]. split; [now apply GamepadLoop.changed_iff|].
  eexists. split; [apply Hp'; exact Hg|]. cbn [Gamepad.needToSend
    Gamepad.buttonStates].
  split; [reflexivity|]. split; [reflexivity|]. split; [|split].
  - intros j Hj. now apply GamepadPack.pack_testbit_low.
  - intros k Hk. rewrite Hm in Hk.
    destruct (Z_lt_dec k 0) as [Hneg|Hpos].
    { rewrite !Z.testbit_neg_r in Hk by assumption. congruence. }
    destruct (Z_le_dec 13 k) as [Hhigh|Hlow].
    { rewrite !GamepadPack.pack_testbit_high in Hk by assumption.
      congruence. }
    exists (Z.to_nat k). split; [lia|]. split; [lia|].
    intros Heq. apply Hk.
    replace k with (Z.of_nat (Z.to_nat k)) by lia.
    rewrite !GamepadPack.pack_testbit_low by (assumption || lia).
    now rewrite Heq.
  - intros Hu. destruct p as [m n]. simpl in Hn, Hm. subst n m. f_equal.
    apply GamepadPack.pack_agree. intros j Hj.
    now apply GamepadLoop.unchanged_states.
Qed.

(** The first pass after start-up with every pin low, 9 ms in. *)
Lemma gamepad_reports_isolated_witness :
  match Gamepad.loop (Gamepad.mkTick 0 9000 false) Gamepad.init with
  | Gamepad.Continued fw' sent =>
      sent = Gamepad.report_of Gamepad.init fw' 0
             ++ Gamepad.report_of Gamepad.init fw' 1
  | Gamepad.Rebooted => False
  end.
Proof.
  destruct (Gamepad.loop (Gamepad.mkTick 0 9000 false) Gamepad.init)
    as [|fw' sent] eqn:E.
  - vm_compute in E. discriminate.
  - exact (proj1 (gamepad_reports_isolated _ _ _ _ Gamepad.reachable_init E)).
Defined.

(** C10.  In every reachable state of the gamepad sketch, every report a
    pass of [loop] sends carries the identifier of gamepad A or B and the
    mask packed from the 13 confirmed states of that group, each 0 or 1;
    the mask is below 2^13, that is, its bits 13 and above (13 to 31 of
    the 32-bit word) are clear. *)
Theorem sent_masks_fit_13_bits :
  forall tk fw fw' sent report_id mask,
    Gamepad.reachable fw ->
    Gamepad.loop tk fw = Gamepad.Continued fw' sent ->
    In (Gamepad.SendReport report_id mask) sent ->
    (exists g, (g < 2)%nat
               /\ report_id = Gamepad.REPORT_ID_GAMEPAD_A + Z.of_nat g
               /\ mask = Gamepad.pack (Gamepad.states fw') g)
    /\ Forall (fun st => st = 0 \/ st = 1) (Gamepad.states fw')
    /\ 0 <= mask < 2 ^ 13
    /\ (forall k, 13 <= k -> Z.testbit mask k = false).
Proof.
  intros tk fw fw' sent report_id mask Hr Hl Hin.
  pose proof (GamepadLoop.reachable_consistent fw Hr) as Hc.
  destruct (GamepadLoop.loop_spec tk fw fw' sent Hc Hl)
    as ((_ & _ & _ & Hbits' & _) & Hsent & _).
  assert (Hg : exists g, (g < 2)%nat
                         /\ report_id
                            = Gamepad.REPORT_ID_GAMEPAD_A + Z.of_nat g
                         /\ mask = Gamepad.pack (Gamepad.states fw') g).
  { subst sent. apply in_app_or in Hin. unfold Gamepad.report_of in Hin.
    destruct Hin as [Hin|Hin]; [exists 0%nat | exists 1%nat];
      (destruct (Gamepad.changed fw fw' _); [|destruct Hin]);
      destruct Hin as [Hin|[]]; injection Hin as <- <-;
      (split; [lia | split; reflexivity]). }
  split; [exact Hg|]. split; [exact Hbits'|].
  destruct Hg as (g & _ & _ & ->). split.
  - now apply GamepadPack.pack_bound.
  - intros k Hk. now apply GamepadPack.pack_testbit_high.
Qed.

(** The report of gamepad A in the first pass with every pin low: the
    low bits of the buttons the GPIO mask lets through, nothing above. *)
Lemma sent_masks_fit_13_bits_witness :
  0 <= 7935 < 2 ^ 13 /\ (forall k, 13 <= k -> Z.testbit 7935 k = false).
Proof.
  refine (proj2 (proj2 (sent_masks_fit_13_bits
            (Gamepad.mkTick 0 9000 false) Gamepad.init _ _ 1 7935
            Gamepad.reachable_init _ _))).
  - vm_compute. reflexivity.
  - left. reflexivity.
Defined.

(** ** The range-check sync monitor (C7) *)
Module RefactoredSync.
Import Refactored.

Lemma add32_wrap t a : add32 (wrap32 t) a = wrap32 (t + a).
Proof. unfold add32, wrap32. now rewrite Zplus_mod_idemp_l. Qed.

(** A cycle without a zero reading runs to the end and sums all the
    measurements. *)
Lemma measure_full pulseIn left c t :
  (forall k, (c <= k < c + left)%nat -> pulseIn k <> 0) ->
  measure pulseIn left c (wrap32 t)
  = (wrap32 (t + sum_from pulseIn c left), false, (c + left)%nat).
Proof.
  revert c t. induction left as [|left IH]; intros c t H; simpl.
  - unfold sum_from. simpl. now rewrite Z.add_0_r, Nat.add_0_r.
  - destruct (Z.eqb_spec (pulseIn c) 0) as [E|_];
      [exfalso; apply (H c); [lia | exact E]|].
    rewrite add32_wrap, IH by (intros k Hk; apply H; lia).
    unfold sum_from. simpl. do 2 f_equal; [f_equal; lia | lia].
Qed.

(** A cycle with a zero reading stops right after the first one. *)
Lemma measure_zero pulseIn left c t :
  (exists k, (c <= k < c + left)%nat /\ pulseIn k = 0) ->
  exists z total,
    (c <= z < c + left)%nat /\ pulseIn z = 0
    /\ (forall k, (c <= k < z)%nat -> pulseIn k <> 0)
    /\ measure pulseIn left c t = (total, true, S z).
Proof.
  revert c t. induction left as [|left IH]; intros c t (k & Hk & Hz);
    [lia|]. simpl.
  destruct (Z.eqb_spec (pulseIn c) 0) as [E|N].
  - exists c, (add32 t (pulseIn c)). repeat split; try lia; auto.
  - destruct (IH (S c) (add32 t (pulseIn c))) as (z & total & Hr & Hz0 & Hb & E).
    { exists k. split; [|exact Hz].
      assert (k <> c) by (intros ->; contradiction). lia. }
    exists z, total. repeat split; try lia; auto.
    intros j Hj. destruct (Nat.eq_dec j c) as [->|]; [exact N|].
    apply Hb. lia.
Qed.

(** The comparisons of a quotient of integers, over the integers. *)
Lemma Qle_quotient (b : Z) (t : positive) (p : Z) (q : positive) :
  (inject_Z b / inject_Z (Z.pos t) <= p # q)%Q <-> b * Z.pos q <= p * Z.pos t.
Proof.
  unfold Qle, Qdiv, Qmult, Qinv, inject_Z. simpl. split; intros; lia.
Qed.

Lemma Qge_quotient (b : Z) (t : positive) (p : Z) (q : positive) :
  (p # q <= inject_Z b / inject_Z (Z.pos t))%Q <-> p * Z.pos t <= b * Z.pos q.
Proof.
  unfold Qle, Qdiv, Qmult, Qinv, inject_Z. simpl. split; intros; lia.
Qed.

(** With a rounding as IEEE has it, the band test on the rounded
    quotient is the band test on the exact one. *)
Lemma frequency_in_range_exact fl (t : positive) :
  ieee_like fl ->
  frequency_in_range fl (Z.pos t) = true
  <-> (12 <= 100000 / inject_Z (Z.pos t) <= 18)%Q.
Proof.
  intros (Hmono & H12 & H18 & Hlo & Hhi). unfold frequency_in_range.
  simpl Z.eqb. cbv iota.
  set (x := (100000 / inject_Z (Z.pos t))%Q).
  rewrite andb_true_iff, !Qle_bool_iff. split.
  - intros [Ha Hb]. split.
    + destruct (Qlt_le_dec x 12) as [Hlt|Hge]; [|exact Hge]. exfalso.
      assert (Hx : (x <= 24575 # 2048)%Q).
      { unfold x. apply (proj2 (Qle_quotient 100000 t 24575 2048)).
        assert (Hn : ~ 12 * Z.pos t <= 100000 * 1).
        { intros H. apply (Qlt_not_le _ _ Hlt).
          exact (proj2 (Qge_quotient 100000 t 12 1) H). }
        lia. }
      apply Hmono in Hx. rewrite Hlo in Hx.
      assert ((12 <= 24575 # 2048)%Q) as Habs by (eapply Qle_trans; eauto).
      revert Habs. unfold Qle. simpl. lia.
    + destruct (Qlt_le_dec 18 x) as [Hlt|Hle]; [|exact Hle]. exfalso.
      assert (Hx : (36865 # 2048 <= x)%Q).
      { unfold x. apply (proj2 (Qge_quotient 100000 t 36865 2048)).
        assert (Hn : ~ 100000 * 1 <= 18 * Z.pos t).
        { intros H. apply (Qlt_not_le _ _ Hlt).
          exact (proj2 (Qle_quotient 100000 t 18 1) H). }
        lia. }
      apply Hmono in Hx. rewrite Hhi in Hx.
      assert ((36865 # 2048 <= 18)%Q) as Habs by (eapply Qle_trans; eauto).
      revert Habs. unfold Qle. simpl. lia.
  - intros [Ha Hb]. split.
    + rewrite <- H12. now apply Hmono.
    + rewrite <- H18. now apply Hmono.
Qed.


Lemma sum_from_pos pulseIn c n :
  (forall k, (c <= k < c + n)%nat -> 0 < pulseIn k) ->
  (0 < n)%nat -> 0 < sum_from pulseIn c n.
Proof.
  revert c. induction n as [|n IH]; intros c H Hn; [lia|].
  unfold sum_from. simpl.
  assert (0 < pulseIn c) by (apply H; lia).
  destruct n as [|n]; [simpl; lia|].
  assert (0 < sum_from pulseIn (S c) (S n))
    by (apply IH; [intros k Hk; apply H|]; lia).
  unfold sum_from in *. lia.
Qed.

Lemma average_frequency_eq pulseIn (t : positive) :
  total_of pulseIn PULSE_COUNT = Z.pos t ->
  (average_frequency pulseIn == 100000 / inject_Z (Z.pos t))%Q.
Proof.
  intros E. unfold average_frequency. rewrite E.
  unfold Qeq, Qdiv, Qmult, Qinv, inject_Z. simpl. lia.
Qed.

End RefactoredSync.

(** C7.  One cycle of the range-check sync monitor, for every sequence
    of pulse measurements and every rounding of the frequency that is
    monotone and exact on representable numbers.  If some measurement
    among the first [PULSE_COUNT] is zero, the cycle ends right after the
    first zero (so after at most [PULSE_COUNT] measurements: it neither
    fails nor goes on) and writes the absent classification: LED low,
    amplifier disable line high.  If all [PULSE_COUNT] measurements are
    positive (their sum fitting the 32-bit accumulator, as the one-second
    timeout of [pulseIn] ensures), all are taken, and the cycle writes OK
    (LED high, disable line low) when the average frequency, 1000 over
    the mean duration in microseconds, lies in the inclusive band of 12
    to 18 kHz, and not-OK (LED low, disable line high) when it does
    not. *)
Theorem range_check_cycle :
  forall fl pulseIn,
    Refactored.ieee_like fl ->
    ((exists k, (k < Refactored.PULSE_COUNT)%nat /\ pulseIn k = 0) ->
     fst (Refactored.freqBlock fl pulseIn)
     = [DigitalWrite Refactored.ledPin LOW;
        DigitalWrite Refactored.disablePin HIGH]
     /\ exists z, (z < Refactored.PULSE_COUNT)%nat /\ pulseIn z = 0
                  /\ (forall k, (k < z)%nat -> pulseIn k <> 0)
                  /\ snd (Refactored.freqBlock fl pulseIn) = S z)
    /\ ((forall k, (k < Refactored.PULSE_COUNT)%nat -> 0 < pulseIn k) ->
        Refactored.total_of pulseIn Refactored.PULSE_COUNT < 2 ^ 32 ->
        snd (Refactored.freqBlock fl pulseIn) = Refactored.PULSE_COUNT
        /\ ((12 <= Refactored.average_frequency pulseIn <= 18)%Q ->
            fst (Refactored.freqBlock fl pulseIn)
            = [DigitalWrite Refactored.ledPin HIGH;
               DigitalWrite Refactored.disablePin LOW])
        /\ (~ (12 <= Refactored.average_frequency pulseIn <= 18)%Q ->
            fst (Refactored.freqBlock fl pulseIn)
            = [DigitalWrite Refactored.ledPin LOW;
               DigitalWrite Refactored.disablePin HIGH])).
Proof.
  intros fl pulseIn Hfl. split.
  - intros (k & Hk & Hz).
    destruct (RefactoredSync.measure_zero pulseIn Refactored.PULSE_COUNT
                0%nat 0) as (z & total & Hr & Hz0 & Hb & E).
    { exists k. split; [lia | exact Hz]. }
    unfold Refactored.freqBlock. rewrite E. simpl. split; [reflexivity|].
    exists z. repeat split; try lia; auto. intros j Hj. apply Hb. lia.
  - intros Hpos Hfit.
    assert (Hsum : 0 < Refactored.total_of pulseIn Refactored.PULSE_COUNT).
    { apply RefactoredSync.sum_from_pos;
        [intros k Hk; apply Hpos; lia | unfold Refactored.PULSE_COUNT; lia]. }
    assert (E : Refactored.measure pulseIn Refactored.PULSE_COUNT 0%nat 0
                = (Refactored.total_of pulseIn Refactored.PULSE_COUNT, false,
                   Refactored.PULSE_COUNT)).
    { change 0 with (wrap32 0) at 1.
      rewrite RefactoredSync.measure_full.
      - unfold wrap32. rewrite Z.mod_small; [reflexivity|].
        unfold Refactored.total_of in *. lia.
      - intros k Hk. assert (0 < pulseIn k) by (apply Hpos; lia). lia. }
    unfold Refactored.freqBlock. rewrite E. cbn [negb fst snd].
    split; [reflexivity|].
    destruct (Refactored.total_of pulseIn Refactored.PULSE_COUNT)
      as [|t|t] eqn:Et; try lia.
    pose proof (RefactoredSync.frequency_in_range_exact fl t Hfl) as Hx.
    pose proof (RefactoredSync.average_frequency_eq pulseIn t Et) as Ha.
    rewrite <- Ha in Hx. split.
    + intros Hband. apply Hx in Hband. now rewrite Hband.
    + intros Hout.
      destruct (Refactored.frequency_in_range fl (Z.pos t)) eqn:F;
        [|reflexivity].
      exfalso. apply Hout. now apply Hx.
Qed.

(** A cycle of 100 pulses of 70 microseconds, 14.3 kHz: OK. *)
Lemma range_check_cycle_witness :
  fst (Refactored.freqBlock (fun x => x) (fun _ => 70))
  = [DigitalWrite Refactored.ledPin HIGH;
     DigitalWrite Refactored.disablePin LOW].
Proof.
  assert (Hfl : Refactored.ieee_like (fun x => x)).
  { split; [auto|]. repeat split; reflexivity. }
  refine (proj1 (proj2 (proj2 (range_check_cycle (fun x => x) (fun _ => 70)
            Hfl) _ _)) _).
  - intros k _. lia.
  - vm_compute. reflexivity.
  - split; vm_compute; discriminate.
Defined.

(** ** The threshold-check sync monitor (C8) *)
Module OriginalSync.
Import Original.

(** While the counter has not passed [samples], [freqBlock] only
    accumulates. *)
Lemma sync_run_accumulates periods s :
  0 <= sCounter s ->
  sCounter s + Z.of_nat (length periods) <= samples ->
  sync_run periods s
  = (mkSync (enableState s) (prevEnState s)
       (periodSum s + fold_right Z.add 0 periods)
       (sCounter s + Z.of_nat (length periods)), []).
Proof.
  revert s. induction periods as [|p periods IH]; intros s H0 Hle.
  - simpl. rewrite !Z.add_0_r. now destruct s.
  - cbn [sync_run]. unfold freqBlock.
    cbn [length] in Hle. rewrite Nat2Z.inj_succ in Hle.
    destruct (Z.ltb_spec samples (sCounter s + 1)) as [Hgt|_]; [lia|].
    rewrite IH; cbn [sCounter periodSum enableState prevEnState]; try lia.
    cbn [length fold_right app]. rewrite Nat2Z.inj_succ.
    do 2 f_equal; lia.
Qed.

(** The sample that takes the counter past [samples] decides. *)
Lemma freqBlock_decides p s :
  sCounter s = samples ->
  let periodAWG := Z.quot (periodSum s + p) (samples + 1) in
  let enabled := DEFAULT_FREQ <? periodAWG in
  freqBlock p s
  = (mkSync enabled enabled 0 0,
     if eqb enabled (prevEnState s) then []
     else [DigitalWrite disablePin (negb enabled);
           DigitalWrite ledPin enabled]).
Proof.
  intros Hc periodAWG enabled. unfold freqBlock. rewrite Hc.
  change (samples <? samples + 1) with true. cbv iota.
  fold periodAWG. fold enabled.
  destruct (eqb enabled (prevEnState s)) eqn:E; simpl; [|reflexivity].
  apply eqb_prop in E. now rewrite <- E.
Qed.

End OriginalSync.

(** C8, as the code has it: the decision cycle of the threshold-check
    sync monitor is 101 samples long.  From a reset accumulator, 100
    calls of [freqBlock] only accumulate: no decision, no reset, no
    write.  The 101st call takes the mean over the 101 samples (the
    integer quotient), resets the accumulator, classifies enabled exactly
    when that mean exceeds [DEFAULT_FREQ], and writes the two output
    lines only when the classification differs from the previous one. *)
Theorem threshold_cycle_is_101_samples :
  forall periods p s,
    Original.sCounter s = 0 ->
    Original.periodSum s = 0 ->
    length periods = 100%nat ->
    Original.sync_run periods s
    = (Original.mkSync (Original.enableState s) (Original.prevEnState s)
         (fold_right Z.add 0 periods) 100, [])
    /\ (let mean := Z.quot (fold_right Z.add 0 periods + p) 101 in
        let enabled := Original.DEFAULT_FREQ <? mean in
        Original.sync_run (periods ++ [p]) s
        = (Original.mkSync enabled enabled 0 0,
           if eqb enabled (Original.prevEnState s) then []
           else [DigitalWrite Original.disablePin (negb enabled);
                 DigitalWrite Original.ledPin enabled])).
Proof.
  intros periods p s Hc Hs Hlen.
  assert (E : Original.sync_run periods s
              = (Original.mkSync (Original.enableState s)
                   (Original.prevEnState s)
                   (fold_right Z.add 0 periods) 100, [])).
  { rewrite OriginalSync.sync_run_accumulates;
      rewrite ?Hc, ?Hs, ?Hlen; unfold Original.samples; try lia.
    reflexivity. }
  split; [exact E|]. intros mean enabled.
  assert (A : forall xs ys s0,
             Original.sync_run (xs ++ ys) s0
             = let '(s1, w1) := Original.sync_run xs s0 in
               let '(s2, w2) := Original.sync_run ys s1 in
               (s2, w1 ++ w2)).
  { induction xs as [|x xs IH]; intros ys s0; simpl.
    - now destruct (Original.sync_run ys s0).
    - destruct (Original.freqBlock x s0) as [s1 w1]. rewrite IH.
      destruct (Original.sync_run xs s1) as [s2 w2].
      destruct (Original.sync_run ys s2) as [s3 w3].
      now rewrite app_assoc. }
  rewrite A, E. cbn [Original.sync_run].
  rewrite OriginalSync.freqBlock_decides by reflexivity.
  cbn [Original.periodSum Original.prevEnState app].
  now rewrite app_nil_r.
Qed.

(** 100 measurements of 60 microseconds: nothing decided yet. *)
Lemma threshold_cycle_is_101_samples_witness :
  Original.sync_run (repeat 60 100) Original.sync_init
  = (Original.mkSync false false 6000 100, []).
Proof.
  exact (proj1 (threshold_cycle_is_101_samples (repeat 60 100) 60
                  Original.sync_init eq_refl eq_refl eq_refl)).
Defined.

(** ** Start-up (C9) *)
Module RefactoredStartup.
Import Refactored.

Lemma kb_setup_lookup digitalRead i :
  inputs (fst (setup digitalRead)) !! i
  = (fun inp => mkInput (pin inp) (debTimestamp inp)
                  (digitalRead (pin inp)) (btn inp) (btn_shift inp))
    <$> inputs_table !! i.
Proof.
  unfold setup. cbn [fst inputs].
  exact (list_lookup_fmap _ inputs_table i).
Qed.

(** An input that reads at its confirmed level comes out of
    [handleButtons] as it was. *)
Lemma buttons_keep millisNow gpioStates idx fw fw' keys i inp :
  inputs fw !! i = Some inp ->
  gpio_level gpioStates (pin inp) = state inp ->
  for_each (handleButton millisNow gpioStates) idx fw = (fw', keys) ->
  inputs fw' !! i = Some inp.
Proof.
  intros Hi Hl. revert fw fw' keys Hi.
  induction idx as [|j idx IH]; intros fw fw' keys Hi; simpl.
  - now intros [= <- _].
  - destruct (handleButton millisNow gpioStates j fw) as [fw1 k1] eqn:E1.
    destruct (for_each _ idx fw1) as [fw2 k2] eqn:E2.
    intros [= <- _]. apply (IH fw1 fw2 k2); [|exact E2].
    destruct (Nat.eq_dec j i) as [-> | Hne].
    + rewrite (RefactoredFacts.handleButton_reject _ _ _ _ inp Hi) in E1.
      * now injection E1 as <- _.
      * rewrite Hl. apply RefactoredFacts.debounced_same_level.
    + apply RefactoredFacts.handleButton_frame in E1 as (_ & F & _).
      rewrite F by congruence. exact Hi.
Qed.

Lemma kb_loop_keeps tk fw i inp :
  inputs fw !! i = Some inp ->
  gpio_level (snapshot tk i) (pin inp) = state inp ->
  inputs (fst (loop tk fw)) !! i = Some inp.
Proof.
  intros Hi Hl. unfold loop.
  destruct (handleShiftButton _ _ fw) as [fw1 k1] eqn:E1.
  destruct (handleButtons _ _ fw1) as [fw2 k2] eqn:E2. simpl.
  destruct i as [|i]; simpl in Hl.
  - rewrite (RefactoredFacts.handleShiftButton_reject _ _ _ inp Hi) in E1.
    2:{ rewrite Hl. apply RefactoredFacts.debounced_same_level. }
    injection E1 as <- _.
    apply RefactoredFacts.handleButtons_frame in E2 as (_ & F & _).
    now rewrite F.
  - assert (H1 : inputs fw1 !! S i = Some inp).
    { revert E1. unfold handleShiftButton.
      destruct (inputs fw !! 0%nat); [|now intros [= <- _]].
      destruct (debounced _ _ _); intros [= <- _]; [|exact Hi].
      simpl. now rewrite list_lookup_insert_ne. }
    eapply buttons_keep; eauto.
Qed.

Lemma kb_loop_quiet tk fw :
  (forall i inp, inputs fw !! i = Some inp ->
                 gpio_level (snapshot tk i) (pin inp) = state inp) ->
  loop tk fw = (fw, []).
Proof.
  intros H. unfold loop.
  assert (E1 : handleShiftButton (millis_shift tk) (gpio_shift tk) fw
               = (fw, [])).
  { unfold handleShiftButton.
    destruct (inputs fw !! 0%nat) as [shift|] eqn:H0; [|reflexivity].
    pose proof (H 0%nat shift H0) as Hl. cbn [snapshot] in Hl.
    now rewrite Hl, RefactoredFacts.debounced_same_level. }
  rewrite E1, RefactoredShift.handleButtons_quiet; [reflexivity|].
  intros i inp Hne Hi. destruct i as [|i]; [congruence|].
  exact (H (S i) inp Hi).
Qed.

End RefactoredStartup.

Module OriginalStartup.
Import Original.

Lemma orig_setup_lookup digitalRead millis i :
  inputs (setup digitalRead millis) !! i
  = (fun inp => mkInput (pin inp) (digitalRead (pin inp)) (millis i)
                  (btn inp) (btn_shift inp))
    <$> inputs_table !! i.
Proof.
  unfold setup. cbn [inputs].
  exact (list_lookup_imap _ inputs_table i).
Qed.

Lemma handleInput_same_level rd i isShift fw input :
  inputs fw !! i = Some input ->
  read_gate rd = state input ->
  handleInput rd i isShift fw = (fw, []).
Proof.
  intros Hi Hl. unfold handleInput. rewrite Hi, Hl, eqb_reflx.
  now rewrite andb_false_r.
Qed.

Lemma handleInput_frame rd j isShift fw fw' keys i :
  handleInput rd j isShift fw = (fw', keys) ->
  i <> j -> inputs fw' !! i = inputs fw !! i.
Proof.
  unfold handleInput. intros E Hne.
  destruct (inputs fw !! j) as [input|]; [|now injection E as <- _].
  destruct (_ && _); [|now injection E as <- _].
  destruct (_ !! 0%nat); injection E as <- _; [|reflexivity].
  simpl. now apply list_lookup_insert_ne.
Qed.

Lemma inputs_keep (rd : nat -> reading) idx fw fw' keys i input :
  inputs fw !! i = Some input ->
  read_gate (rd i) = state input ->
  for_each (fun i => handleInput (rd i) i (i =? 0)%nat) idx fw
    = (fw', keys) ->
  inputs fw' !! i = Some input.
Proof.
  intros Hi Hl. revert fw fw' keys Hi.
  induction idx as [|j idx IH]; intros fw fw' keys Hi; simpl.
  - now intros [= <- _].
  - destruct (handleInput (rd j) j (j =? 0)%nat fw) as [fw1 k1] eqn:E1.
    destruct (for_each _ idx fw1) as [fw2 k2] eqn:E2.
    intros [= <- _]. apply (IH fw1 fw2 k2); [|exact E2].
    destruct (Nat.eq_dec j i) as [-> | Hne].
    + rewrite (handleInput_same_level _ _ _ _ input Hi Hl) in E1.
      now injection E1 as <- _.
    + rewrite (handleInput_frame _ _ _ _ _ _ i E1) by congruence.
      exact Hi.
Qed.

Lemma orig_loop_keeps rd fw i input :
  inputs fw !! i = Some input ->
  read_gate (rd i) = state input ->
  inputs (fst (loop rd fw)) !! i = Some input.
Proof.
  intros Hi Hl. unfold loop.
  destruct (for_each _ (seq 0 SW_INPUTS) fw) as [fw' keys] eqn:E.
  simpl. eapply inputs_keep; eauto.
Qed.

Lemma inputs_quiet (rd : nat -> reading) idx fw :
  (forall i input, inputs fw !! i = Some input ->
                   read_gate (rd i) = state input) ->
  for_each (fun i => handleInput (rd i) i (i =? 0)%nat) idx fw = (fw, []).
Proof.
  intros H. induction idx as [|j idx IH]; simpl; [reflexivity|].
  assert (E : handleInput (rd j) j (j =? 0)%nat fw = (fw, [])).
  { destruct (inputs fw !! j) as [input|] eqn:Hj.
    - apply (handleInput_same_level _ _ _ _ input Hj). now apply H.
    - unfold handleInput. now rewrite Hj. }
  now rewrite E, IH.
Qed.

Lemma orig_loop_quiet rd fw :
  (forall i input, inputs fw !! i = Some input ->
                   read_gate (rd i) = state input) ->
  loop rd fw = (fw, []).
Proof. intros H. now apply inputs_quiet. Qed.

End OriginalStartup.

Module GamepadStartup.
Import Gamepad.

(** What an iteration of the button loop does to its own button. *)
Lemma debounce_button_at gpio_now time_now i fw timer old b :
  timers fw !! i = Some timer ->
  states fw !! i = Some old ->
  buttons !! i = Some b ->
  states (debounce_button gpio_now time_now i fw) !! i
  = Some (if (DEBOUNCE_MS <? sub32 time_now timer)
             && negb (level gpio_now b =? old)
          then level gpio_now b else old).
Proof.
  intros Ht Hs Hb. unfold debounce_button. rewrite Ht, Hs, Hb.
  destruct (DEBOUNCE_MS <? sub32 time_now timer); [|exact Hs].
  destruct (level gpio_now b =? old); simpl; [exact Hs|].
  apply list_lookup_insert_eq. eapply lookup_lt_Some; eauto.
Qed.

(** ... and to the others. *)
Lemma debounce_button_other gpio_now time_now i fw j :
  j <> i ->
  states (debounce_button gpio_now time_now i fw) !! j = states fw !! j.
Proof.
  intros Hne. unfold debounce_button.
  destruct (timers fw !! i), (states fw !! i), (buttons !! i);
    try reflexivity.
  destruct (_ <? _); [|reflexivity].
  destruct (negb _); [|reflexivity].
  simpl. now apply list_lookup_insert_ne.
Qed.

(** After the button loop every button has been through its own
    iteration, from the state it had at the start of the pass. *)
Lemma buttons_pass_at gpio_now time_now fw n i timer old b :
  consistent fw ->
  (i < n <= PICO_GPIO_COUNT)%nat ->
  timers fw !! i = Some timer ->
  states fw !! i = Some old ->
  buttons !! i = Some b ->
  states (buttons_pass gpio_now time_now n fw) !! i
  = Some (if (DEBOUNCE_MS <? sub32 time_now timer)
             && negb (level gpio_now b =? old)
          then level gpio_now b else old).
Proof.
  intros (Lt & Ls & _ & Hbits & _) Hn Ht Hs Hb.
  induction n as [|n IH]; [lia|].
  rewrite GamepadPass.buttons_pass_S.
  destruct (Nat.eq_dec i n) as [-> | Hne].
  - destruct (GamepadPass.buttons_pass_spec gpio_now time_now fw n
                ltac:(lia) Lt Ls Hbits) as (_ & _ & _ & _ & Hun & _).
    destruct (Hun n (le_n n)) as [Htn Hsn].
    apply debounce_button_at; congruence.
  - rewrite debounce_button_other by assumption. apply IH. lia.
Qed.

(** The gamepad loop leaves the confirmed states alone. *)
Lemma loop_states tk fw fw' sent :
  consistent fw ->
  loop tk fw = Continued fw' sent ->
  states fw'
  = states (buttons_pass (gpio_now_of tk) (time_now_of tk)
              PICO_GPIO_COUNT fw).
Proof.
  intros (Lt & Ls & Lg & Hbits & _). unfold loop.
  destruct (usb_suspended tk && negb (gpio_now_of tk =? 0)); [discriminate|].
  destruct (GamepadPass.buttons_pass_spec (gpio_now_of tk) (time_now_of tk)
              fw PICO_GPIO_COUNT (le_n _) Lt Ls Hbits)
    as (_ & _ & Lg1 & _).
  cbv zeta in Lg1.
  remember (buttons_pass (gpio_now_of tk) (time_now_of tk)
              PICO_GPIO_COUNT fw) as fw1 eqn:Efw1 in *.
  clear Efw1. rewrite Lg in Lg1.
  destruct (gamepads fw1) as [|q0 [|q1 [|]]] eqn:Epads1; try discriminate.
  rewrite (GamepadLoop.send_spec fw1 _ _ Epads1).
  now intros [= <- _].
Qed.

(** The first pass: every button starts from state 0 and timestamp 0. *)
Lemma first_pass tk fw' sent i b :
  loop tk init = Continued fw' sent ->
  buttons !! i = Some b ->
  states fw' !! i
  = Some (if DEBOUNCE_MS <? time_now_of tk
          then level (gpio_now_of tk) b else 0).
Proof.
  intros Hl Hb.
  rewrite (loop_states _ _ _ _ GamepadLoop.init_consistent Hl).
  assert (Hi : (i < PICO_GPIO_COUNT)%nat)
    by (apply lookup_lt_Some in Hb; exact Hb).
  rewrite (buttons_pass_at _ _ init PICO_GPIO_COUNT i 0 0 b
             GamepadLoop.init_consistent);
    [| lia | now apply lookup_replicate_2 | now apply lookup_replicate_2
     | exact Hb].
  assert (E : sub32 (time_now_of tk) 0 = time_now_of tk).
  { unfold sub32, time_now_of, wrap32. rewrite Z.sub_0_r.
    apply Z.mod_mod. lia. }
  rewrite E. destruct (DEBOUNCE_MS <? time_now_of tk); [|reflexivity].
  simpl. destruct (GamepadPass.level_bit (gpio_now_of tk) b) as [-> | ->];
    reflexivity.
Qed.

End GamepadStartup.

(** ** The gamepad sketch: the GPIO mask *)
Module GamepadMask.
Import Gamepad.

Lemma land_bit_zero x b :
  Z.testbit x b = false -> Z.land x (Z.shiftl 1 b) = 0.
Proof.
  intros Hx. destruct (Z.neg_nonneg_cases b) as [Hb | Hb].
  - rewrite Z.shiftl_1_l, Z.pow_neg_r by assumption. apply Z.land_0_r.
  - apply Z.bits_inj'. intros k Hk.
    rewrite Z.land_spec, Z.bits_0, Z.shiftl_1_l, Z.pow2_bits_eqb
      by assumption.
    destruct (Z.eqb_spec b k) as [<- | _];
      [now rewrite Hx | apply andb_false_r].
Qed.

Lemma land_bit_nonzero x b :
  0 <= b -> Z.testbit x b = true -> Z.land x (Z.shiftl 1 b) <> 0.
Proof.
  intros Hb Hx E.
  assert (H : Z.testbit (Z.land x (Z.shiftl 1 b)) b = true).
  { rewrite Z.land_spec, Hx, Z.shiftl_1_l, Z.pow2_bits_eqb by assumption.
    now rewrite Z.eqb_refl. }
  rewrite E, Z.bits_0 in H. discriminate.
Qed.

(** The sampled level of a pin is its bit of the inverted snapshot. *)
Lemma level_testbit x b :
  0 <= b -> level x b = Z.b2z (Z.testbit x b).
Proof.
  intros Hb. unfold level. destruct (Z.testbit x b) eqn:E.
  - apply (land_bit_nonzero _ _ Hb) in E. apply Z.eqb_neq in E.
    now rewrite E.
  - apply land_bit_zero in E. now rewrite E.
Qed.

Lemma gpio_now_testbit tk k :
  0 <= k ->
  Z.testbit (gpio_now_of tk) k
  = negb (Z.testbit (gpio_all tk) k) && Z.testbit PICO_GPIO_MASK k.
Proof.
  intros Hk. unfold gpio_now_of. now rewrite Z.land_spec, Z.lnot_spec.
Qed.

(** A pin outside the mask always samples as released. *)
Lemma level_masked tk b :
  Z.testbit PICO_GPIO_MASK b = false -> level (gpio_now_of tk) b = 0.
Proof.
  intros Hm. unfold level, gpio_now_of.
  rewrite land_bit_zero; [reflexivity|].
  rewrite Z.land_spec, Hm. apply andb_false_r.
Qed.

Lemma gpio_now_nonneg tk : 0 <= gpio_now_of tk.
Proof.
  unfold gpio_now_of. apply Z.land_nonneg. right. now vm_compute.
Qed.

Lemma nonzero_has_bit x : 0 <= x -> x <> 0 -> exists k, Z.testbit x k = true.
Proof.
  intros Hx Hne. exists (Z.log2 x). apply Z.bit_log2. lia.
Qed.

Lemma buttons_pass_fixed gpio_now time_now fw n :
  (forall i timer old b,
      timers fw !! i = Some timer ->
      states fw !! i = Some old ->
      buttons !! i = Some b ->
      gamepad_accepts gpio_now time_now timer old b = false) ->
  buttons_pass gpio_now time_now n fw = fw.
Proof.
  intros Hrej. induction n as [|n IH]; [reflexivity|].
  rewrite GamepadPass.buttons_pass_S, IH. unfold debounce_button.
  destruct (timers fw !! n) as [timer|] eqn:Et; [|reflexivity].
  destruct (states fw !! n) as [old|] eqn:Es; [|reflexivity].
  destruct (buttons !! n) as [b|] eqn:Eb; [|reflexivity].
  specialize (Hrej n timer old b Et Es Eb).
  unfold gamepad_accepts in Hrej.
  destruct (DEBOUNCE_MS <? sub32 time_now timer); [|reflexivity].
  simpl in Hrej. cbv zeta. now rewrite Hrej.
Qed.

End GamepadMask.

(** ** The gamepad sketch: the first pass after power-up *)
Module GamepadPowerUp.
Import Gamepad.

(** The level a pass samples for a pin, from the raw GPIO word. *)
Lemma level_of_pin tk b :
  0 <= b ->
  level (gpio_now_of tk) b
  = Z.b2z (negb (Z.testbit (gpio_all tk) b) && Z.testbit PICO_GPIO_MASK b).
Proof.
  intros Hb.
  now rewrite GamepadMask.level_testbit, GamepadMask.gpio_now_testbit.
Qed.

Lemma testbit_true_nonneg x b : Z.testbit x b = true -> 0 <= b.
Proof.
  intros H. destruct (Z.neg_nonneg_cases b) as [Hn|]; [|assumption].
  rewrite Z.testbit_neg_r in H by assumption. discriminate.
Qed.

(** A button whose confirmed state a pass changes is reported in that
    pass, in the mask of its gamepad. *)
Lemma changed_button_reported tk fw fw' sent i :
  consistent fw ->
  loop tk fw = Continued fw' sent ->
  (i < PICO_GPIO_COUNT)%nat ->
  states fw' !! i <> states fw !! i ->
  In (SendReport (REPORT_ID_GAMEPAD_A + Z.of_nat (group i))
        (pack (states fw') (group i)))
     sent.
Proof.
  intros Hc Hl Hi Hne.
  destruct (GamepadLoop.loop_spec _ _ _ _ Hc Hl) as (_ & -> & _).
  assert (Hgi : (group i * 13 <= i < group i * 13 + 13)%nat).
  { unfold group, PICO_GPIO_COUNT in *.
    destruct (i <? 13)%nat eqn:E;
      [apply Nat.ltb_lt in E | apply Nat.ltb_ge in E]; lia. }
  assert (Hg : (group i < 2)%nat)
    by (unfold group; destruct (i <? 13)%nat; lia).
  assert (Hch : changed fw fw' (group i) = true).
  { apply GamepadLoop.changed_iff; [exact Hg|].
    exists (i - group i * 13)%nat. split; [lia|].
    now replace (group i * 13 + (i - group i * 13))%nat with i by lia. }
  apply in_or_app. unfold report_of.
  destruct (group i) as [|[|]] eqn:Eg; [| |lia].
  - left. rewrite Hch. now left.
  - right. rewrite Hch. now left.
Qed.

(** A pass that does not reboot and accepts no button. *)
Lemma quiet_pass_fixed tk fw fw' sent :
  consistent fw ->
  loop tk fw = Continued fw' sent ->
  (forall i timer old b,
      timers fw !! i = Some timer ->
      states fw !! i = Some old ->
      buttons !! i = Some b ->
      gamepad_accepts (gpio_now_of tk) (time_now_of tk) timer old b
      = false) ->
  fw' = fw /\ sent = [].
Proof.
  intros (_ & _ & Lg & _ & Hpads) Hl Hrej.
  apply GamepadLoop.loop_two_loops in Hl.
  rewrite (GamepadMask.buttons_pass_fixed _ _ fw _ Hrej) in Hl.
  destruct (gamepads fw) as [|p0 [|p1 [|]]] eqn:Epads; try discriminate.
  rewrite (GamepadLoop.send_spec fw _ _ Epads) in Hl.
  destruct (Hpads 0%nat p0 eq_refl) as [E0 _].
  destruct (Hpads 1%nat p1 eq_refl) as [E1 _].
  rewrite E0, E1 in Hl. injection Hl as <- <-.
  split; [|reflexivity]. rewrite <- Epads. now destruct fw.
Qed.

End GamepadPowerUp.

(** C9, as the three sketches have it.  Both keyboard sketches set every
    input's confirmed state in [setup] to what [digitalRead] returns for
    its pin; an input whose level in the first pass of [loop] is the one
    read at start-up, resting or held, comes out of that pass as [setup]
    left it, and when this holds of every input the pass changes nothing
    and sends no key.  The gamepad sketch reads no pin at start-up: every
    confirmed state starts at the constant 0 (released).  In its first
    pass a button whose pin is at rest (high) keeps state 0, and when
    every pin is at rest the pass changes nothing and sends no report;
    no button is confirmed while the clock has not passed [DEBOUNCE_MS];
    and once it has, a button held at power-up (pin low) on a GPIO of
    [PICO_GPIO_MASK] takes state 1 and its gamepad's report is sent in
    that pass, with the mask of the new states. *)
Theorem startup_states :
  (forall digitalRead,
      let fw0 := fst (Refactored.setup digitalRead) in
      (forall i e,
          Refactored.inputs_table !! i = Some e ->
          Refactored.inputs fw0 !! i
          = Some (Refactored.mkInput (Refactored.pin e)
                    (Refactored.debTimestamp e)
                    (digitalRead (Refactored.pin e))
                    (Refactored.btn e) (Refactored.btn_shift e)))
      /\ (forall tk i e,
             Refactored.inputs_table !! i = Some e ->
             Refactored.gpio_level (Refactored.snapshot tk i)
               (Refactored.pin e) = digitalRead (Refactored.pin e) ->
             Refactored.inputs (fst (Refactored.loop tk fw0)) !! i
             = Refactored.inputs fw0 !! i)
      /\ (forall tk,
             (forall i e,
                 Refactored.inputs_table !! i = Some e ->
                 Refactored.gpio_level (Refactored.snapshot tk i)
                   (Refactored.pin e) = digitalRead (Refactored.pin e)) ->
             Refactored.loop tk fw0 = (fw0, [])))
  /\ (forall digitalRead millis,
      let fw0 := Original.setup digitalRead millis in
      (forall i e,
          Original.inputs_table !! i = Some e ->
          Original.inputs fw0 !! i
          = Some (Original.mkInput (Original.pin e)
                    (digitalRead (Original.pin e)) (millis i)
                    (Original.btn e) (Original.btn_shift e)))
      /\ (forall rd i e,
             Original.inputs_table !! i = Some e ->
             Original.read_gate (rd i) = digitalRead (Original.pin e) ->
             Original.inputs (fst (Original.loop rd fw0)) !! i
             = Original.inputs fw0 !! i)
      /\ (forall rd,
             (forall i e,
                 Original.inputs_table !! i = Some e ->
                 Original.read_gate (rd i) = digitalRead (Original.pin e)) ->
             Original.loop rd fw0 = (fw0, [])))
  /\ (Gamepad.states Gamepad.init = replicate Gamepad.PICO_GPIO_COUNT 0
      /\ forall tk fw' sent,
          Gamepad.loop tk Gamepad.init = Gamepad.Continued fw' sent ->
          (forall i b,
              Gamepad.buttons !! i = Some b ->
              (Z.testbit (Gamepad.gpio_all tk) b = true ->
               Gamepad.states fw' !! i = Some 0)
              /\ (Gamepad.time_now_of tk <= Gamepad.DEBOUNCE_MS ->
                  Gamepad.states fw' !! i = Some 0)
              /\ (Z.testbit Gamepad.PICO_GPIO_MASK b = true ->
                  Z.testbit (Gamepad.gpio_all tk) b = false ->
                  Gamepad.DEBOUNCE_MS < Gamepad.time_now_of tk ->
                  Gamepad.states fw' !! i = Some 1
                  /\ In (Gamepad.SendReport
                           (Gamepad.REPORT_ID_GAMEPAD_A
                            + Z.of_nat (Gamepad.group i))
                           (Gamepad.pack (Gamepad.states fw')
                              (Gamepad.group i)))
                        sent))
          /\ ((forall i b,
                  Gamepad.buttons !! i = Some b ->
                  Z.testbit (Gamepad.gpio_all tk) b = true) ->
              fw' = Gamepad.init /\ sent = [])).
Proof.
  split; [|split].
  - intros digitalRead fw0.
    assert (L : forall i e,
               Refactored.inputs_table !! i = Some e ->
               Refactored.inputs fw0 !! i
               = Some (Refactored.mkInput (Refactored.pin e)
                         (Refactored.debTimestamp e)
                         (digitalRead (Refactored.pin e))
                         (Refactored.btn e) (Refactored.btn_shift e))).
    { intros i e He. subst fw0.
      now rewrite RefactoredStartup.kb_setup_lookup, He. }
    split; [exact L|]. split.
    + intros tk i e He Hl. rewrite (L i e He).
      apply RefactoredStartup.kb_loop_keeps; [now apply L | exact Hl].
    + intros tk H. apply RefactoredStartup.kb_loop_quiet. intros i inp Hi.
      subst fw0. rewrite RefactoredStartup.kb_setup_lookup in Hi.
      destruct (Refactored.inputs_table !! i) as [e|] eqn:He; [|discriminate].
      injection Hi as <-. simpl. now apply (H i).
  - intros digitalRead millis fw0.
    assert (L : forall i e,
               Original.inputs_table !! i = Some e ->
               Original.inputs fw0 !! i
               = Some (Original.mkInput (Original.pin e)
                         (digitalRead (Original.pin e)) (millis i)
                         (Original.btn e) (Original.btn_shift e))).
    { intros i e He. subst fw0.
      now rewrite OriginalStartup.orig_setup_lookup, He. }
    split; [exact L|]. split.
    + intros rd i e He Hl. rewrite (L i e He).
      apply OriginalStartup.orig_loop_keeps; [now apply L | exact Hl].
    + intros rd H. apply OriginalStartup.orig_loop_quiet. intros i input Hi.
      subst fw0. rewrite OriginalStartup.orig_setup_lookup in Hi.
      destruct (Original.inputs_table !! i) as [e|] eqn:He; [|discriminate].
      injection Hi as <-. simpl. now apply (H i).
  - split; [reflexivity|]. intros tk fw' sent Hl.
    assert (Hlevel : forall b,
               Z.testbit (Gamepad.gpio_all tk) b = true ->
               Gamepad.level (Gamepad.gpio_now_of tk) b = 0).
    { intros b Hr.
      rewrite GamepadPowerUp.level_of_pin
        by (eapply GamepadPowerUp.testbit_true_nonneg; eauto).
      now rewrite Hr. }
    split.
    + intros i b Hb.
      pose proof (GamepadStartup.first_pass _ _ _ _ _ Hl Hb) as Hst.
      split; [|split].
      * intros Hr. rewrite Hst, (Hlevel b Hr).
        now destruct (_ <? _).
      * intros Ht. apply Z.ltb_ge in Ht. now rewrite Hst, Ht.
      * intros Hm Hg Ht.
        assert (H1 : Gamepad.states fw' !! i = Some 1).
        { rewrite Hst. apply Z.ltb_lt in Ht. rewrite Ht.
          rewrite GamepadPowerUp.level_of_pin
            by (eapply GamepadPowerUp.testbit_true_nonneg; eauto).
          now rewrite Hg, Hm. }
        split; [exact H1|].
        apply lookup_lt_Some in Hb.
        apply (GamepadPowerUp.changed_button_reported tk Gamepad.init);
          [exact GamepadLoop.init_consistent | exact Hl | exact Hb |].
        rewrite H1.
        rewrite (lookup_replicate_2 Gamepad.PICO_GPIO_COUNT 0 i Hb
                 : Gamepad.states Gamepad.init !! i = Some 0).
        discriminate.
    + intros Hrest.
      apply (GamepadPowerUp.quiet_pass_fixed tk Gamepad.init fw' sent
               GamepadLoop.init_consistent Hl).
      intros i timer old b Ht Hs Hb.
      apply lookup_replicate_1 in Hs as [-> _].
      unfold gamepad_accepts. rewrite (Hlevel b (Hrest i b Hb)).
      apply andb_false_r.
Qed.

(** P2 START held at power-up and still held in the first pass of the
    refactored sketch: its entry is left as [setup] made it.  Button 0
    of the gamepad sketch (GPIO 8) held at power-up and sampled 9 ms
    later: it is confirmed pressed and gamepad A's report is sent. *)
Lemma startup_states_witness :
  (let digitalRead := fun p => negb (p =? 7) in
   let tk := Refactored.mkTick 50 (2 ^ 32 - 1) 50 (2 ^ 32 - 1 - 2 ^ 7) in
   Refactored.inputs (fst (Refactored.loop tk
                             (fst (Refactored.setup digitalRead)))) !! 1%nat
   = Refactored.inputs (fst (Refactored.setup digitalRead)) !! 1%nat)
  /\ (let tk := Gamepad.mkTick (2 ^ 32 - 1 - 2 ^ 8) 9000 false in
      exists fw' sent,
        Gamepad.loop tk Gamepad.init = Gamepad.Continued fw' sent
        /\ Gamepad.states fw' !! 0%nat = Some 1
        /\ In (Gamepad.SendReport Gamepad.REPORT_ID_GAMEPAD_A
                 (Gamepad.pack (Gamepad.states fw') 0)) sent).
Proof.
  split.
  - intros digitalRead tk.
    exact (proj1 (proj2 (proj1 startup_states digitalRead)) tk 1%nat
             (Refactored.mkInput 7 0 HIGH 50 Keyboard.KEY_ESC)
             eq_refl eq_refl).
  - intros tk.
    destruct (Gamepad.loop tk Gamepad.init) as [|fw' sent] eqn:Hl;
      [vm_compute in Hl; discriminate|].
    exists fw', sent. split; [reflexivity|].
    exact (proj2 (proj2 (proj1 (proj2 (proj2 (proj2 startup_states))
                                  tk fw' sent Hl) 0%nat 8 eq_refl))
             eq_refl eq_refl eq_refl).
Defined.

(** C9 as stated fails on the gamepad sketch: its confirmed states start
    from the constant 0, and button 0 (GPIO 8), held low at power-up and
    in the first pass 9 ms later, gets a confirmed transition and a
    report in that pass. *)
Lemma gamepad_first_pass_reports_held_button :
  let tk := Gamepad.mkTick (2 ^ 32 - 1 - 2 ^ 8) 9000 false in
  Gamepad.states Gamepad.init !! 0%nat = Some 0
  /\ Gamepad.level (Gamepad.gpio_now_of tk) 8 = 1
  /\ exists fw',
      Gamepad.loop tk Gamepad.init
      = Gamepad.Continued fw' [Gamepad.SendReport 1 1]
      /\ Gamepad.states fw' !! 0%nat = Some 1.
Proof.
  intros tk. split; [reflexivity|]. split; [reflexivity|].
  eexists. split; vm_compute; reflexivity.
Qed.

(** * Further properties of the sketches *)

(** ** The refactored sketch: one pass of [handleButtons] *)
Module RefactoredPass.
Import Refactored.

(** An iteration reads its own input and the shift button only. *)
Lemma handleButton_local millisNow gpioStates i fw1 fw2 :
  inputs fw1 !! i = inputs fw2 !! i ->
  inputs fw1 !! 0%nat = inputs fw2 !! 0%nat ->
  snd (handleButton millisNow gpioStates i fw1)
  = snd (handleButton millisNow gpioStates i fw2)
  /\ inputs (fst (handleButton millisNow gpioStates i fw1)) !! i
     = inputs (fst (handleButton millisNow gpioStates i fw2)) !! i.
Proof.
  intros Hi H0. unfold handleButton. rewrite <- Hi, <- H0.
  destruct (inputs fw1 !! i) as [inp|] eqn:E1;
    [destruct (inputs fw1 !! 0%nat) as [shift|] eqn:E0|];
    simpl; try (split; [reflexivity | congruence]).
  destruct (debounced _ _ _); simpl; [|split; [reflexivity | congruence]].
  split; [reflexivity|].
  rewrite !list_lookup_insert_eq; [reflexivity | |].
  - apply lookup_lt_is_Some. rewrite <- Hi. eauto.
  - apply lookup_lt_is_Some. eauto.
Qed.

Lemma for_each_pointwise millisNow gpioStates idx fw :
  NoDup idx -> 0%nat ∉ idx ->
  let r := for_each (handleButton millisNow gpioStates) idx fw in
  (forall i, i ∈ idx ->
             inputs (fst r) !! i
             = inputs (fst (handleButton millisNow gpioStates i fw)) !! i)
  /\ (forall i, i ∉ idx -> inputs (fst r) !! i = inputs fw !! i)
  /\ snd r
     = concat (map (fun i => snd (handleButton millisNow gpioStates i fw))
                 idx).
Proof.
  intros Hnd. revert fw. induction Hnd as [|j idx Hj Hnd IH]; intros fw H0.
  - simpl. split; [intros i Hi; inversion Hi|]. split; [auto | reflexivity].
  - apply not_elem_of_cons in H0 as [H0j H0].
    cbn [for_each map concat].
    destruct (handleButton millisNow gpioStates j fw) as [fw1 k1] eqn:E1.
    specialize (IH fw1 H0).
    destruct (for_each _ idx fw1) as [fw2 k2] eqn:E2. cbn [fst snd] in *.
    destruct IH as (IHin & IHout & IHkeys).
    pose proof (RefactoredFacts.handleButton_frame _ _ _ _ _ _ E1)
      as (_ & F & _).
    assert (L : forall i, i ∈ idx ->
                snd (handleButton millisNow gpioStates i fw1)
                = snd (handleButton millisNow gpioStates i fw)
                /\ inputs (fst (handleButton millisNow gpioStates i fw1)) !! i
                   = inputs (fst (handleButton millisNow gpioStates i fw))
                     !! i).
    { intros i Hi. apply handleButton_local; apply F; [|congruence].
      intros ->. contradiction. }
    split; [|split].
    + intros i Hi. apply elem_of_cons in Hi as [-> | Hi].
      * rewrite IHout by assumption. now rewrite E1.
      * rewrite IHin by assumption. now apply L.
    + intros i Hi. apply not_elem_of_cons in Hi as [Hij Hi].
      rewrite IHout by assumption. now apply F.
    + rewrite IHkeys. f_equal. f_equal. apply map_ext_in. intros i Hi.
      apply L. now apply list_elem_of_In.
Qed.

Lemma handleButton_one_key millisNow gpioStates i fw :
  (length (snd (handleButton millisNow gpioStates i fw)) <= 1)%nat.
Proof.
  unfold handleButton.
  destruct (inputs fw !! i); [destruct (inputs fw !! 0%nat)|]; simpl; try lia.
  destruct (debounced _ _ _); simpl; [|lia].
  rewrite RefactoredFacts.button_keys_one. simpl. lia.
Qed.

Lemma concat_short {A : Type} (f : nat -> list A) (idx : list nat) :
  (forall i, (length (f i) <= 1)%nat) ->
  (length (concat (map f idx)) <= length idx)%nat.
Proof.
  intros H. induction idx as [|i idx IH]; simpl; [lia|].
  rewrite length_app. specialize (H i). lia.
Qed.

End RefactoredPass.

(** X1.  One pass of [handleButtons] treats every input on its own,
    against the state the pass started from: input [i] (1 to 25) comes
    out as its own iteration alone would leave it, the shift button and
    anything beyond the table are not touched, the keys sent are those
    of the 25 iterations in index order, at most one per input and so at
    most 25 in a pass. *)
Theorem handleButtons_input_by_input :
  forall millisNow gpioStates fw,
    let r := Refactored.handleButtons millisNow gpioStates fw in
    let alone i := Refactored.handleButton millisNow gpioStates i fw in
    (forall i, (1 <= i < Refactored.SW_INPUTS)%nat ->
               Refactored.inputs (fst r) !! i
               = Refactored.inputs (fst (alone i)) !! i)
    /\ (forall i, (i = 0 \/ Refactored.SW_INPUTS <= i)%nat ->
                  Refactored.inputs (fst r) !! i
                  = Refactored.inputs fw !! i)
    /\ snd r = concat (map (fun i => snd (alone i))
                         (seq 1 (Refactored.SW_INPUTS - 1)))
    /\ (forall i, (length (snd (alone i)) <= 1)%nat)
    /\ (length (snd r) <= 25)%nat.
Proof.
  intros millisNow gpioStates fw r alone.
  assert (Hnd : NoDup (seq 1 (Refactored.SW_INPUTS - 1)))
    by apply NoDup_seq.
  assert (H0 : 0%nat ∉ seq 1 (Refactored.SW_INPUTS - 1)).
  { rewrite list_elem_of_In, in_seq. lia. }
  destruct (RefactoredPass.for_each_pointwise millisNow gpioStates _ fw
              Hnd H0) as (Hin & Hout & Hkeys).
  fold (Refactored.handleButtons millisNow gpioStates fw) in Hin, Hout, Hkeys.
  fold r in Hin, Hout, Hkeys.
  split; [|split; [|split; [|split]]].
  - intros i Hi. apply Hin. rewrite list_elem_of_In, in_seq.
    unfold Refactored.SW_INPUTS in *. lia.
  - intros i Hi. apply Hout. rewrite list_elem_of_In, in_seq.
    unfold Refactored.SW_INPUTS in *. lia.
  - exact Hkeys.
  - intros i. apply RefactoredPass.handleButton_one_key.
  - rewrite Hkeys.
    etransitivity;
      [apply RefactoredPass.concat_short;
       intros i; apply RefactoredPass.handleButton_one_key|].
    now rewrite length_seq.
Qed.

(** Input 1 after a pass in which P2 START and P1 UP go down
    together. *)
Lemma handleButtons_input_by_input_witness :
  let fw := fst (Refactored.setup (fun _ => HIGH)) in
  let gpio := 2 ^ 32 - 1 - 2 ^ 7 - 2 ^ 8 in
  Refactored.inputs (fst (Refactored.handleButtons 10 gpio fw)) !! 1%nat
  = Refactored.inputs (fst (Refactored.handleButton 10 gpio 1%nat fw))
    !! 1%nat.
Proof.
  intros fw gpio.
  apply (proj1 (handleButtons_input_by_input 10 gpio fw) 1%nat).
  unfold Refactored.SW_INPUTS. lia.
Defined.

(** ** The refactored sketch: what every reachable state keeps *)

(** X2.  No pass of [loop] ever changes a pin number or a key code: in
    every reachable state the table has its 26 entries, each with the
    pin, the primary code and the shifted code it was compiled with. *)
Theorem reachable_keeps_table :
  forall fw,
    Refactored.reachable fw ->
    length (Refactored.inputs fw) = Refactored.SW_INPUTS
    /\ map Refactored.codes (Refactored.inputs fw)
       = map Refactored.codes Refactored.inputs_table.
Proof.
  intros fw Hr.
  assert (H : map Refactored.codes (Refactored.inputs fw)
              = map Refactored.codes Refactored.inputs_table).
  { induction Hr as [digitalRead | tk fw Hr IH].
    - unfold Refactored.setup. cbn [fst Refactored.inputs].
      rewrite map_map. apply map_ext. intros inp. reflexivity.
    - rewrite <- IH. symmetry.
      destruct (Refactored.loop tk fw) as [fw' keys] eqn:E.
      exact (RefactoredTable.loop_same_table tk fw fw' keys E). }
  split; [|exact H].
  apply (f_equal (@length _)) in H. rewrite !length_map in H. exact H.
Qed.

(** After two passes from start-up the table is still the compiled
    one. *)
Lemma reachable_keeps_table_witness :
  let fw0 := fst (Refactored.setup (fun p => negb (p =? 7))) in
  let tk := Refactored.mkTick 20 0 20 (2 ^ 7) in
  map Refactored.codes
    (Refactored.inputs
       (fst (Refactored.loop tk (fst (Refactored.loop tk fw0)))))
  = map Refactored.codes Refactored.inputs_table.
Proof.
  intros fw0 tk.
  apply (proj2 (reachable_keeps_table _
                  (Refactored.reachable_loop tk _
                     (Refactored.reachable_loop tk _
                        (Refactored.reachable_setup _))))).
Defined.

(** X3.  The shift lock is never left set once the shift button is
    released: in every reachable state, [startBlock] true implies that
    the shift button is confirmed held; with the shift button confirmed
    released, [startBlock] is false. *)
Theorem lock_implies_shift_held :
  forall fw,
    Refactored.reachable fw ->
    (Refactored.startBlock fw = true -> Refactored.shift_held fw = true)
    /\ (forall shift,
           Refactored.inputs fw !! 0%nat = Some shift ->
           Refactored.state shift = HIGH ->
           Refactored.startBlock fw = false).
Proof.
  intros fw Hr. split.
  - now apply RefactoredShift.lock_only_while_held.
  - intros shift H0 Hst. now apply (RefactoredTap.idle_unlocked fw shift).
Qed.

(** Shift held, a shifted press, shift released: the lock is set and
    then cleared. *)
Lemma lock_implies_shift_held_witness :
  let fw0 := fst (Refactored.setup (fun _ => HIGH)) in
  let held := 2 ^ 32 - 1 - 2 ^ 6 in
  let fw1 :=
    fst (Refactored.loop (Refactored.mkTick 10 held 10 (held - 2 ^ 7)) fw0) in
  let fw2 :=
    fst (Refactored.loop
           (Refactored.mkTick 30 (2 ^ 32 - 1) 30 (2 ^ 32 - 1)) fw1) in
  Refactored.startBlock fw1 = true
  /\ Refactored.startBlock fw2 = false.
Proof.
  intros fw0 held fw1 fw2. split; [reflexivity|].
  refine (proj2 (lock_implies_shift_held fw2 _)
            (Refactored.mkInput 6 30 HIGH 49 49) eq_refl eq_refl).
  apply Refactored.reachable_loop, Refactored.reachable_loop,
    Refactored.reachable_setup.
Defined.

(** ** The refactored sketch: a release under another code *)

(** X4.  The release of a key names the code of the shift state at the
    release, so a key can be left down: an input pressed while the shift
    button is up sends a press of its primary code; if the shift button
    is then pressed and the input released during the hold, the release
    sent is that of the shifted code.  For an input whose two codes
    differ, no release of the primary code is sent in the three steps:
    the key pressed stays down.  (For an input whose two codes are the
    same, the release sent is that of the code pressed.) *)
Theorem release_under_shift_names_shifted_code :
  forall fw i inp shift t1 g1 t2 g2 t3 g3,
    Refactored.inputs fw !! i = Some inp ->
    Refactored.inputs fw !! 0%nat = Some shift ->
    i <> 0%nat ->
    Refactored.state inp = HIGH ->
    Refactored.state shift = HIGH ->
    Refactored.gpio_level g1 (Refactored.pin inp) = LOW ->
    Refactored.DEBOUNCE_TIME
      <= sub32 t1 (Refactored.debTimestamp inp) ->
    Refactored.gpio_level g2 (Refactored.pin shift) = LOW ->
    Refactored.DEBOUNCE_TIME
      <= sub32 t2 (Refactored.debTimestamp shift) ->
    Refactored.gpio_level g3 (Refactored.pin inp) = HIGH ->
    Refactored.DEBOUNCE_TIME <= sub32 t3 t1 ->
    let r1 := Refactored.handleButton t1 g1 i fw in
    let r2 := Refactored.handleShiftButton t2 g2 (fst r1) in
    let r3 := Refactored.handleButton t3 g3 i (fst r2) in
    snd r1 = [KeyPress (Refactored.btn inp)]
    /\ snd r2 = []
    /\ snd r3 = [KeyRelease (Refactored.btn_shift inp)]
    /\ Refactored.state <$> Refactored.inputs (fst r3) !! i = Some HIGH
    /\ (Refactored.btn inp <> Refactored.btn_shift inp ->
        ~ In (KeyRelease (Refactored.btn inp))
            (snd r1 ++ snd r2 ++ snd r3)).
Proof.
  intros fw i inp shift t1 g1 t2 g2 t3 g3 Hi H0 Hne Hst Hsh Hg1 He1 Hg2 He2
    Hg3 He3 r1 r2 r3.
  pose proof (lookup_lt_Some _ _ _ Hi) as Li.
  pose proof (lookup_lt_Some _ _ _ H0) as L0.
  assert (E1 : r1 = (Refactored.mkFirmware
                       (<[i := Refactored.commit inp LOW t1]>
                          (Refactored.inputs fw))
                       (Refactored.startBlock fw),
                     [KeyPress (Refactored.btn inp)])).
  { subst r1.
    rewrite (RefactoredFacts.handleButton_accept _ _ _ _ inp shift Hi H0).
    - rewrite Hg1, Hsh, RefactoredFacts.button_keys_one. reflexivity.
    - apply RefactoredFacts.debounced_iff. rewrite Hg1, Hst. now split. }
  assert (E2 : r2 = (Refactored.mkFirmware
                       (<[0%nat := Refactored.commit shift LOW t2]>
                          (<[i := Refactored.commit inp LOW t1]>
                             (Refactored.inputs fw)))
                       (Refactored.startBlock fw), [])).
  { subst r2. rewrite E1. cbn [fst].
    rewrite (RefactoredFacts.handleShiftButton_accept _ _ _ shift).
    - rewrite Hg2. cbn [Refactored.inputs Refactored.startBlock].
      now rewrite andb_false_r.
    - cbn [Refactored.inputs]. now rewrite list_lookup_insert_ne.
    - apply RefactoredFacts.debounced_iff. rewrite Hg2, Hsh. now split. }
  assert (E3 : r3 = (Refactored.mkFirmware
                       (<[i := Refactored.commit
                                 (Refactored.commit inp LOW t1) HIGH t3]>
                          (<[0%nat := Refactored.commit shift LOW t2]>
                             (<[i := Refactored.commit inp LOW t1]>
                                (Refactored.inputs fw))))
                       (Refactored.startBlock fw),
                     [KeyRelease (Refactored.btn_shift inp)])).
  { subst r3. rewrite E2. cbn [fst].
    rewrite (RefactoredFacts.handleButton_accept _ _ _ _
               (Refactored.commit inp LOW t1)
               (Refactored.commit shift LOW t2)).
    - cbn [Refactored.pin Refactored.commit Refactored.state
           Refactored.inputs Refactored.startBlock].
      rewrite Hg3, RefactoredFacts.button_keys_one. reflexivity.
    - cbn [Refactored.inputs].
      rewrite list_lookup_insert_ne by congruence.
      now apply list_lookup_insert_eq.
    - cbn [Refactored.inputs]. apply list_lookup_insert_eq.
      now rewrite length_insert.
    - apply RefactoredFacts.debounced_iff.
      cbn [Refactored.pin Refactored.commit Refactored.state
           Refactored.debTimestamp].
      rewrite Hg3. now split. }
  rewrite E1, E2, E3. cbn [fst snd Refactored.inputs app].
  split; [reflexivity|]. split; [reflexivity|]. split; [reflexivity|].
  split.
  - rewrite list_lookup_insert_eq by (now rewrite !length_insert).
    reflexivity.
  - intros Hd [H | [H | []]]; [discriminate|].
    injection H as H. congruence.
Qed.

(** P2 START: pressed ('2' goes down), P1 START pressed, P2 START
    released: ESC is released and '2' stays down. *)
Lemma release_under_shift_names_shifted_code_witness :
  let fw := fst (Refactored.setup (fun _ => HIGH)) in
  let r1 := Refactored.handleButton 10 0 1%nat fw in
  let r2 := Refactored.handleShiftButton 20 0 (fst r1) in
  let r3 := Refactored.handleButton 30 (2 ^ 7) 1%nat (fst r2) in
  snd r1 = [KeyPress 50] /\ snd r2 = []
  /\ snd r3 = [KeyRelease Keyboard.KEY_ESC]
  /\ Refactored.state <$> Refactored.inputs (fst r3) !! 1%nat = Some HIGH
  /\ ~ In (KeyRelease 50) (snd r1 ++ snd r2 ++ snd r3).
Proof.
  intros fw r1 r2 r3.
  assert (H : 1%nat <> 0%nat
              /\ Refactored.DEBOUNCE_TIME <= sub32 10 0
              /\ Refactored.DEBOUNCE_TIME <= sub32 20 0
              /\ Refactored.DEBOUNCE_TIME <= sub32 30 10
              /\ (50 : Z) <> Keyboard.KEY_ESC).
  { repeat split; try discriminate; vm_compute; discriminate. }
  destruct H as (Hne & He1 & He2 & He3 & Hd).
  destruct (release_under_shift_names_shifted_code fw 1%nat
              (Refactored.mkInput 7 0 HIGH 50 Keyboard.KEY_ESC)
              (Refactored.mkInput 6 0 HIGH 49 49) 10 0 20 0 30 (2 ^ 7)
              eq_refl eq_refl Hne eq_refl eq_refl eq_refl He1 eq_refl He2
              eq_refl He3)
    as (H1 & H2 & H3 & H4 & H5).
  split; [exact H1|]. split; [exact H2|]. split; [exact H3|].
  split; [exact H4|]. exact (H5 Hd).
Defined.

(** ** The refactored sketch: the outputs of the sync monitor *)
Module RefactoredOutputs.
Import Refactored.

Lemma measure_calls pulseIn left c t :
  let '(_, hasNoPulse, calls) := measure pulseIn left c t in
  (c <= calls <= c + left)%nat
  /\ (if hasNoPulse then (c < calls)%nat else calls = (c + left)%nat).
Proof.
  revert c t. induction left as [|left IH]; intros c t; simpl.
  - split; lia.
  - destruct (pulseIn c =? 0); [split; lia|].
    specialize (IH (S c) (add32 t (pulseIn c))).
    destruct (measure pulseIn left (S c) (add32 t (pulseIn c)))
      as [[total flag] calls].
    destruct IH as [H1 H2]. split; [lia|]. destruct flag; lia.
Qed.

(** The flag of the measuring loop says whether a zero was read. *)
Lemma measure_flag pulseIn left c t :
  snd (fst (measure pulseIn left c t)) = false
  <-> forall k, (c <= k < c + left)%nat -> pulseIn k <> 0.
Proof.
  revert c t. induction left as [|left IH]; intros c t; simpl.
  - split; [intros _ k Hk; lia | reflexivity].
  - destruct (Z.eqb_spec (pulseIn c) 0) as [E|N]; simpl.
    + split; [discriminate|]. intros H. exfalso. apply (H c); [lia | exact E].
    + rewrite IH. split; intros H k Hk.
      * destruct (Nat.eq_dec k c) as [->|]; [exact N | apply H; lia].
      * apply H. lia.
Qed.

(** The band test over the integers: 12 to 18 kHz is a total of 5556
    to 8333 microseconds. *)
Lemma frequency_in_range_total fl total :
  ieee_like fl -> 0 <= total ->
  frequency_in_range fl total = true <-> 5556 <= total <= 8333.
Proof.
  intros Hfl H0. destruct total as [|t|t]; [| |lia].
  - unfold frequency_in_range. simpl. split; [discriminate | lia].
  - rewrite (RefactoredSync.frequency_in_range_exact fl t Hfl).
    pose proof (RefactoredSync.Qge_quotient 100000 t 12 1) as H12.
    pose proof (RefactoredSync.Qle_quotient 100000 t 18 1) as H18.
    split.
    + intros [Ha Hb]. apply (proj1 H12) in Ha. apply (proj1 H18) in Hb.
      lia.
    + intros [Ha Hb]. split; [apply (proj2 H12) | apply (proj2 H18)]; lia.
Qed.

End RefactoredOutputs.

(** X5.  Whatever is measured and however the frequency is rounded, a
    cycle of [freqBlock] takes at least one and at most [PULSE_COUNT]
    measurements and then writes the LED and the amplifier disable line
    once each, in this order, at opposite levels: the LED is never lit
    with the amplifier disabled, nor dark with the amplifier enabled. *)
Theorem freqBlock_writes_opposite_levels :
  forall fl pulseIn,
    (exists ok,
        fst (Refactored.freqBlock fl pulseIn)
        = [DigitalWrite Refactored.ledPin ok;
           DigitalWrite Refactored.disablePin (negb ok)])
    /\ (1 <= snd (Refactored.freqBlock fl pulseIn)
        <= Refactored.PULSE_COUNT)%nat.
Proof.
  intros fl pulseIn. unfold Refactored.freqBlock.
  pose proof (RefactoredOutputs.measure_calls pulseIn Refactored.PULSE_COUNT
                0%nat 0) as H.
  destruct (Refactored.measure pulseIn Refactored.PULSE_COUNT 0%nat 0)
    as [[total flag] calls].
  destruct H as [Hc Hz]. cbn [fst snd] in *.
  destruct flag; cbn [negb fst snd].
  - split; [exists false; reflexivity|]. lia.
  - split.
    + exists (if Refactored.frequency_in_range fl total then HIGH else LOW).
      now destruct (Refactored.frequency_in_range fl total).
    + subst calls. unfold Refactored.PULSE_COUNT. lia.
Qed.

(** X6.  The amplifier is enabled by a cycle exactly when none of the
    [PULSE_COUNT] measurements is zero and their sum, as the 32-bit
    accumulator holds it, lies between 5556 and 8333 microseconds (the
    whole numbers whose frequency is within 12 to 18 kHz); every other
    cycle disables it.  This holds for every rounding of the frequency
    that is monotone and exact on representable numbers. *)
Theorem freqBlock_enables_iff_total_in_band :
  forall fl pulseIn,
    Refactored.ieee_like fl ->
    let good :=
      (forall k, (k < Refactored.PULSE_COUNT)%nat -> pulseIn k <> 0)
      /\ 5556 <= wrap32 (Refactored.total_of pulseIn Refactored.PULSE_COUNT)
         <= 8333 in
    (good ->
     fst (Refactored.freqBlock fl pulseIn)
     = [DigitalWrite Refactored.ledPin HIGH;
        DigitalWrite Refactored.disablePin LOW])
    /\ (~ good ->
        fst (Refactored.freqBlock fl pulseIn)
        = [DigitalWrite Refactored.ledPin LOW;
           DigitalWrite Refactored.disablePin HIGH]).
Proof.
  intros fl pulseIn Hfl good.
  pose proof (RefactoredOutputs.measure_flag pulseIn Refactored.PULSE_COUNT
                0%nat 0) as Hflag.
  assert (Hfull : (forall k, (k < Refactored.PULSE_COUNT)%nat ->
                             pulseIn k <> 0) ->
                  Refactored.measure pulseIn Refactored.PULSE_COUNT 0%nat 0
                  = (wrap32 (Refactored.total_of pulseIn
                               Refactored.PULSE_COUNT),
                     false, Refactored.PULSE_COUNT)).
  { intros H. change 0 with (wrap32 0) at 1.
    rewrite RefactoredSync.measure_full; [reflexivity|].
    intros k Hk. apply H. lia. }
  assert (Hband := RefactoredOutputs.frequency_in_range_total fl
                     (wrap32 (Refactored.total_of pulseIn
                                Refactored.PULSE_COUNT)) Hfl
                     (GamepadPack.wrap32_nonneg _)).
  unfold Refactored.freqBlock. split.
  - intros [Hnz Hin]. rewrite (Hfull Hnz). cbn [negb fst].
    now rewrite (proj2 Hband Hin).
  - intros Hbad.
    destruct (Refactored.measure pulseIn Refactored.PULSE_COUNT 0%nat 0)
      as [[total flag] calls] eqn:E.
    cbn [fst snd] in Hflag. destruct flag; cbn [negb fst]; [reflexivity|].
    assert (Hnz : forall k, (k < Refactored.PULSE_COUNT)%nat ->
                            pulseIn k <> 0).
    { intros k Hk. apply (proj1 Hflag eq_refl). lia. }
    pose proof (Hfull Hnz) as E'. injection E' as -> _.
    destruct (Refactored.frequency_in_range fl _) eqn:F; [|reflexivity].
    exfalso. apply Hbad. split; [exact Hnz | now apply Hband].
Qed.

(** 100 pulses of 60 microseconds (16.7 kHz) enable the amplifier; 100
    pulses of 90 microseconds (11.1 kHz) do not. *)
Lemma freqBlock_enables_iff_total_in_band_witness :
  fst (Refactored.freqBlock (fun x => x) (fun _ => 60))
  = [DigitalWrite Refactored.ledPin HIGH;
     DigitalWrite Refactored.disablePin LOW]
  /\ fst (Refactored.freqBlock (fun x => x) (fun _ => 90))
     = [DigitalWrite Refactored.ledPin LOW;
        DigitalWrite Refactored.disablePin HIGH].
Proof.
  assert (Hfl : Refactored.ieee_like (fun x => x)).
  { split; [auto|]. repeat split; reflexivity. }
  split.
  - apply (proj1 (freqBlock_enables_iff_total_in_band (fun x => x)
                    (fun _ => 60) Hfl)).
    split; [intros k _; discriminate | vm_compute; split; discriminate].
  - apply (proj2 (freqBlock_enables_iff_total_in_band (fun x => x)
                    (fun _ => 90) Hfl)).
    intros [_ [_ H]]. vm_compute in H. apply H. reflexivity.
Defined.

(** ** The debounce gate across the overflow of the clock *)

Lemma sub32_wrapped (t0 t1 : Z) :
  0 <= t1 - t0 < 2 ^ 32 -> sub32 (wrap32 t1) (wrap32 t0) = t1 - t0.
Proof.
  intros H. unfold sub32, wrap32.
  rewrite Zminus_mod_idemp_l, Zminus_mod_idemp_r. now apply Z.mod_small.
Qed.

(** X7.  The gate measures real elapsed time even when the 32-bit
    millisecond clock overflows between the last change and the sample.
    With the last change at time [t0] and the sample at time [t1]
    (milliseconds since start, as large as one likes, stored modulo
    2^32) less than 2^32 ms apart: the refactored sketch accepts exactly
    when the level differs and [t1 - t0] is at least [DEBOUNCE_TIME];
    the gamepad sketch takes the new level exactly when it differs and
    [t1 - t0] exceeds [DEBOUNCE_MS]. *)
Theorem debounce_across_clock_overflow :
  (forall inp raw t0 t1,
      Refactored.debTimestamp inp = wrap32 t0 ->
      0 <= t1 - t0 < 2 ^ 32 ->
      Refactored.debounced inp raw (wrap32 t1) = true
      <-> raw <> Refactored.state inp
          /\ Refactored.DEBOUNCE_TIME <= t1 - t0)
  /\ (forall gpio_now i fw old b t0 t1,
      Gamepad.timers fw !! i = Some (wrap32 t0) ->
      Gamepad.states fw !! i = Some old ->
      Gamepad.buttons !! i = Some b ->
      0 <= t1 - t0 < 2 ^ 32 ->
      Gamepad.states (Gamepad.debounce_button gpio_now (wrap32 t1) i fw) !! i
      = Some (if (Gamepad.DEBOUNCE_MS <? t1 - t0)
                 && negb (Gamepad.level gpio_now b =? old)
              then Gamepad.level gpio_now b else old)).
Proof.
  split.
  - intros inp raw t0 t1 Ht H.
    rewrite RefactoredFacts.debounced_iff, Ht, sub32_wrapped by assumption.
    reflexivity.
  - intros gpio_now i fw old b t0 t1 Ht Hs Hb H.
    rewrite (GamepadStartup.debounce_button_at _ _ _ _ _ _ _ Ht Hs Hb).
    now rewrite sub32_wrapped.
Qed.

(** An input last changed 3 ms before the clock overflows and sampled
    8 ms after it: 11 ms have elapsed and the press is accepted. *)
Lemma debounce_across_clock_overflow_witness :
  Refactored.debounced
    (Refactored.mkInput 7 (2 ^ 32 - 3) HIGH 50 Keyboard.KEY_ESC) LOW 8
  = true.
Proof.
  apply (proj1 debounce_across_clock_overflow
           (Refactored.mkInput 7 (2 ^ 32 - 3) HIGH 50 Keyboard.KEY_ESC)
           LOW (2 ^ 32 - 3) (2 ^ 32 + 8) eq_refl).
  - lia.
  - split; [discriminate | unfold Refactored.DEBOUNCE_TIME; lia].
Defined.

(** ** The original sketch: the lock that locks nothing *)
Module OriginalLock.
Import Original.

(** [handleInput] on two states with the same inputs. *)
Lemma handleInput_ignores_lock rd i isShift ins block1 block2 :
  inputs (fst (handleInput rd i isShift (mkFirmware ins block1)))
  = inputs (fst (handleInput rd i isShift (mkFirmware ins block2)))
  /\ snd (handleInput rd i isShift (mkFirmware ins block1))
     = snd (handleInput rd i isShift (mkFirmware ins block2)).
Proof.
  unfold handleInput. cbn [inputs startBlock].
  destruct (ins !! i) as [input|]; [|split; reflexivity].
  destruct (_ && _); [|split; reflexivity].
  destruct (_ !! 0%nat); split; reflexivity.
Qed.

Lemma for_each_ignores_lock (rd : nat -> reading) idx ins block1 block2 :
  let body := fun i => handleInput (rd i) i (i =? 0)%nat in
  inputs (fst (for_each body idx (mkFirmware ins block1)))
  = inputs (fst (for_each body idx (mkFirmware ins block2)))
  /\ snd (for_each body idx (mkFirmware ins block1))
     = snd (for_each body idx (mkFirmware ins block2)).
Proof.
  intros body. revert ins block1 block2.
  induction idx as [|j idx IH]; intros ins block1 block2;
    [split; reflexivity|].
  cbn [for_each]. subst body. cbv beta.
  destruct (handleInput_ignores_lock (rd j) j (j =? 0)%nat ins block1 block2)
    as [Hi Hk].
  destruct (handleInput (rd j) j (j =? 0)%nat (mkFirmware ins block1))
    as [[ins1 b1] k1].
  destruct (handleInput (rd j) j (j =? 0)%nat (mkFirmware ins block2))
    as [[ins2 b2] k2].
  cbn [fst snd inputs] in Hi, Hk. subst ins2 k2.
  specialize (IH ins1 b1 b2). destruct IH as [IHi IHk].
  destruct (for_each _ idx (mkFirmware ins1 b1)) as [fwa ka].
  destruct (for_each _ idx (mkFirmware ins1 b2)) as [fwb kb].
  cbn [fst snd] in *. split; [exact IHi | now rewrite IHk].
Qed.

End OriginalLock.

(** X8.  In the original sketch [startBlock] is written and never
    consulted: from two states that differ in [startBlock] only, a call
    of [handleInput], and a whole pass of [loop], leave the same inputs
    and send the same keys, whatever is read. *)
Theorem original_lock_has_no_effect :
  forall ins block1 block2,
    (forall rd i isShift,
        Original.inputs
          (fst (Original.handleInput rd i isShift
                  (Original.mkFirmware ins block1)))
        = Original.inputs
            (fst (Original.handleInput rd i isShift
                    (Original.mkFirmware ins block2)))
        /\ snd (Original.handleInput rd i isShift
                  (Original.mkFirmware ins block1))
           = snd (Original.handleInput rd i isShift
                    (Original.mkFirmware ins block2)))
    /\ (forall rd,
           Original.inputs
             (fst (Original.loop rd (Original.mkFirmware ins block1)))
           = Original.inputs
               (fst (Original.loop rd (Original.mkFirmware ins block2)))
           /\ snd (Original.loop rd (Original.mkFirmware ins block1))
              = snd (Original.loop rd (Original.mkFirmware ins block2))).
Proof.
  intros ins block1 block2. split.
  - intros rd i isShift. apply OriginalLock.handleInput_ignores_lock.
  - intros rd. apply OriginalLock.for_each_ignores_lock.
Qed.

(** ** The original sketch: the pin is read twice *)

(** X9.  [handleInput] reads the pin once to decide and once more to
    store.  When the first read differs from the confirmed state, the
    window has passed, and the second read is back at the confirmed
    state, the call keeps the state, restarts the debounce time and
    still sends a key for the unchanged level: a second press for an
    input that is down, a release for an input that is up (for a code
    above 32). *)
Theorem original_second_read_decides :
  forall rd i fw input first,
    Original.inputs fw !! i = Some input ->
    Original.inputs fw !! 0%nat = Some first ->
    i <> 0%nat ->
    Original.read_gate rd <> Original.state input ->
    Original.read_commit rd = Original.state input ->
    Original.debTime
      < sub32 (Original.millis_gate rd) (Original.dbTime input) ->
    let code := Original.resolved false (Original.state first) input in
    Original.handleInput rd i false fw
    = (Original.mkFirmware
         (<[i := Original.mkInput (Original.pin input)
                   (Original.state input) (Original.millis_commit rd)
                   (Original.btn input) (Original.btn_shift input)]>
            (Original.inputs fw))
         (Original.startBlock fw),
       if 32 <? code
       then [if Original.state input then KeyRelease code
             else KeyPress code]
       else []).
Proof.
  intros rd i fw input first Hi H0 Hne Hg Hc He code.
  unfold Original.handleInput. rewrite Hi.
  apply Z.ltb_lt in He. rewrite He.
  apply bool_neq_eqb in Hg. rewrite Hg. cbn [andb].
  rewrite list_lookup_insert_ne by congruence. rewrite H0, Hc.
  cbn [Original.state Original.btn Original.btn_shift andb].
  subst code. unfold Original.resolved. cbn [orb Original.btn
    Original.btn_shift].
  f_equal.
  destruct (eqb (Original.state first) HIGH); cbn;
    destruct (Original.state input); reflexivity.
Qed.

(** P2 COIN is down; its pin bounces up at the first read and is down
    again at the second: '6' is pressed once more. *)
Lemma original_second_read_decides_witness :
  let fw := Original.setup (fun p => negb (p =? 5)) (fun _ => 0) in
  let rd := Original.mkReading 50 HIGH 50 LOW in
  snd (Original.handleInput rd 1%nat false fw) = [KeyPress 54]
  /\ Original.state <$> Original.inputs
       (fst (Original.handleInput rd 1%nat false fw)) !! 1%nat = Some LOW.
Proof.
  intros fw rd.
  rewrite (original_second_read_decides rd 1%nat fw
             (Original.mkInput 5 LOW 0 54 54)
             (Original.mkInput 4 HIGH 0 53 53) eq_refl eq_refl).
  - split; reflexivity.
  - discriminate.
  - discriminate.
  - reflexivity.
  - vm_compute. reflexivity.
Defined.

(** ** The original sketch: the threshold monitor over many cycles *)
Module OriginalCycles.
Import Original.

Lemma pin_level_app pin level w1 w2 :
  pin_level pin level (w1 ++ w2) = pin_level pin (pin_level pin level w1) w2.
Proof.
  revert level. induction w1 as [|[p l] w1 IH]; intros level; simpl;
    [reflexivity | apply IH].
Qed.

(** One call, from a state in which the two flags agree. *)
Lemma freqBlock_step p s :
  0 <= sCounter s <= samples ->
  prevEnState s = enableState s ->
  let r := freqBlock p s in
  0 <= sCounter (fst r) <= samples
  /\ sCounter (fst r) = (sCounter s + 1) mod (samples + 1)
  /\ prevEnState (fst r) = enableState (fst r)
  /\ pin_level ledPin (enableState s) (snd r) = enableState (fst r)
  /\ pin_level disablePin (negb (enableState s)) (snd r)
     = negb (enableState (fst r)).
Proof.
  intros Hc Hp r. subst r. unfold freqBlock, samples in *.
  destruct (Z.ltb_spec 100 (sCounter s + 1)) as [Hlt|Hle].
  - assert (sCounter s = 100) as -> by lia.
    set (e := DEFAULT_FREQ <? _).
    destruct (eqb e (prevEnState s)) eqn:E; cbn.
    + apply eqb_prop in E. rewrite <- Hp, <- E.
      repeat split; try lia; reflexivity.
    + repeat split; try lia; reflexivity.
  - cbn. rewrite Z.mod_small by lia. repeat split; try lia; auto.
Qed.

End OriginalCycles.

(** X10.  The threshold monitor, over any number of calls from a state
    whose flags agree and whose counter is in range (the initial state
    is one): the sample counter is the number of calls modulo 101; the
    previous-state flag always equals the current classification; and the
    two output lines follow the classification: after the writes of the
    run, the LED is at the level of [enableState] and the disable line
    at the opposite level, given that they started so. *)
Theorem threshold_monitor_over_cycles :
  forall periods s,
    0 <= Original.sCounter s <= Original.samples ->
    Original.prevEnState s = Original.enableState s ->
    let r := Original.sync_run periods s in
    Original.sCounter (fst r)
    = (Original.sCounter s + Z.of_nat (length periods)) mod 101
    /\ Original.prevEnState (fst r) = Original.enableState (fst r)
    /\ pin_level Original.ledPin (Original.enableState s) (snd r)
       = Original.enableState (fst r)
    /\ pin_level Original.disablePin (negb (Original.enableState s)) (snd r)
       = negb (Original.enableState (fst r)).
Proof.
  intros periods. induction periods as [|p periods IH]; intros s Hc Hp.
  - cbn. unfold Original.samples in Hc.
    rewrite Z.add_0_r, Z.mod_small by lia. auto.
  - cbn [Original.sync_run length].
    destruct (OriginalCycles.freqBlock_step p s Hc Hp)
      as (Hc1 & Hm1 & Hp1 & Hl1 & Hd1).
    change (Original.samples + 1) with 101 in Hm1.
    destruct (Original.freqBlock p s) as [s1 w1]. cbn [fst snd] in *.
    specialize (IH s1 Hc1 Hp1).
    destruct (Original.sync_run periods s1) as [s2 w2]. cbn [fst snd] in *.
    destruct IH as (Hm2 & Hp2 & Hl2 & Hd2).
    rewrite !OriginalCycles.pin_level_app, Hl1, Hd1.
    repeat split; try assumption.
    rewrite Hm2, Hm1, Nat2Z.inj_succ, Zplus_mod_idemp_l.
    f_equal. lia.
Qed.

(** 202 measurements of 60 microseconds from the initial state: two
    whole cycles, the counter is back at 0 and the LED is on. *)
Lemma threshold_monitor_over_cycles_witness :
  let r := Original.sync_run (repeat 60 202) Original.sync_init in
  Original.sCounter (fst r) = 0
  /\ pin_level Original.ledPin LOW (snd r) = true.
Proof.
  intros r.
  destruct (threshold_monitor_over_cycles (repeat 60 202) Original.sync_init)
    as (Hc & _ & Hl & _).
  - vm_compute. split; discriminate.
  - reflexivity.
  - split; [exact Hc|]. etransitivity; [exact Hl | reflexivity].
Defined.

(** ** The gamepad sketch: one pass, button by button *)
Module GamepadButtons.
Import Gamepad.

Lemma debounce_button_timer_at gpio_now time_now i fw timer old b :
  timers fw !! i = Some timer ->
  states fw !! i = Some old ->
  buttons !! i = Some b ->
  timers (debounce_button gpio_now time_now i fw) !! i
  = Some (if gamepad_accepts gpio_now time_now timer old b
          then time_now else timer).
Proof.
  intros Ht Hs Hb. unfold debounce_button, gamepad_accepts. rewrite Ht, Hs, Hb.
  destruct (DEBOUNCE_MS <? sub32 time_now timer); [|exact Ht].
  destruct (level gpio_now b =? old); simpl; [exact Ht|].
  apply list_lookup_insert_eq. eapply lookup_lt_Some; eauto.
Qed.

Lemma debounce_button_timer_other gpio_now time_now i fw j :
  j <> i ->
  timers (debounce_button gpio_now time_now i fw) !! j = timers fw !! j.
Proof.
  intros Hne. unfold debounce_button.
  destruct (timers fw !! i), (states fw !! i), (buttons !! i);
    try reflexivity.
  destruct (_ <? _); [|reflexivity].
  destruct (negb _); [|reflexivity].
  simpl. now apply list_lookup_insert_ne.
Qed.

Lemma buttons_pass_timer_at gpio_now time_now fw n i timer old b :
  consistent fw ->
  (i < n <= PICO_GPIO_COUNT)%nat ->
  timers fw !! i = Some timer ->
  states fw !! i = Some old ->
  buttons !! i = Some b ->
  timers (buttons_pass gpio_now time_now n fw) !! i
  = Some (if gamepad_accepts gpio_now time_now timer old b
          then time_now else timer).
Proof.
  intros (Lt & Ls & _ & Hbits & _) Hn Ht Hs Hb.
  induction n as [|n IH]; [lia|].
  rewrite GamepadPass.buttons_pass_S.
  destruct (Nat.eq_dec i n) as [-> | Hne].
  - destruct (GamepadPass.buttons_pass_spec gpio_now time_now fw n
                ltac:(lia) Lt Ls Hbits) as (_ & _ & _ & _ & Hun & _).
    destruct (Hun n (le_n n)) as [Htn Hsn].
    apply (debounce_button_timer_at _ _ _ _ timer old b); congruence.
  - rewrite debounce_button_timer_other by assumption. apply IH. lia.
Qed.

Lemma loop_timers tk fw fw' sent :
  consistent fw ->
  loop tk fw = Continued fw' sent ->
  timers fw'
  = timers (buttons_pass (gpio_now_of tk) (time_now_of tk)
              PICO_GPIO_COUNT fw).
Proof.
  intros (Lt & Ls & Lg & Hbits & _) Hl.
  apply GamepadLoop.loop_two_loops in Hl.
  destruct (GamepadPass.buttons_pass_spec (gpio_now_of tk) (time_now_of tk)
              fw PICO_GPIO_COUNT (le_n _) Lt Ls Hbits)
    as (_ & _ & Lg1 & _).
  cbv zeta in Lg1.
  remember (buttons_pass (gpio_now_of tk) (time_now_of tk)
              PICO_GPIO_COUNT fw) as fw1 eqn:Efw1 in *.
  clear Efw1. rewrite Lg in Lg1.
  destruct (gamepads fw1) as [|q0 [|q1 [|]]] eqn:Epads1; try discriminate.
  rewrite (GamepadLoop.send_spec fw1 _ _ Epads1) in Hl.
  now injection Hl as <- _.
Qed.

End GamepadButtons.

(** X11 (src/unnamed/part_002, [loop], the button loop and the gamepad
    loop).  One pass of the gamepad sketch, seen from one button: with
    the timestamp [timer] and the confirmed state [old] it had before
    the pass, the button is accepted when more than [DEBOUNCE_MS] have
    elapsed on the 32-bit clock and its sampled level differs from
    [old].  An accepted button leaves the pass with the sampled level
    and the time of the pass, and the report of its gamepad is sent in
    the same pass with the mask packed from the new states; a rejected
    button keeps both its state and its timestamp. *)
Theorem gamepad_pass_button_by_button
    tk fw fw' sent (i : nat) (timer old b : Z) :
  Gamepad.reachable fw ->
  Gamepad.loop tk fw = Gamepad.Continued fw' sent ->
  Gamepad.timers fw !! i = Some timer ->
  Gamepad.states fw !! i = Some old ->
  Gamepad.buttons !! i = Some b ->
  let gpio_now := Gamepad.gpio_now_of tk in
  let time_now := Gamepad.time_now_of tk in
  let ok := gamepad_accepts gpio_now time_now timer old b in
  Gamepad.states fw' !! i
  = Some (if ok then Gamepad.level gpio_now b else old)
  /\ Gamepad.timers fw' !! i = Some (if ok then time_now else timer)
  /\ (ok = true ->
      In (Gamepad.SendReport
            (Gamepad.REPORT_ID_GAMEPAD_A + Z.of_nat (Gamepad.group i))
            (Gamepad.pack (Gamepad.states fw') (Gamepad.group i)))
         sent).
Proof.
  intros Hr Hl Ht Hs Hb gpio_now time_now ok.
  pose proof (GamepadLoop.reachable_consistent _ Hr) as Hc.
  assert (Hi : (i < Gamepad.PICO_GPIO_COUNT)%nat)
    by (apply lookup_lt_Some in Hb; exact Hb).
  assert (Hst : Gamepad.states fw' !! i
                = Some (if ok then Gamepad.level gpio_now b else old)).
  { rewrite (GamepadStartup.loop_states _ _ _ _ Hc Hl).
    exact (GamepadStartup.buttons_pass_at _ _ fw _ i timer old b Hc
             (conj Hi (le_n _)) Ht Hs Hb). }
  split; [exact Hst|]. split.
  - rewrite (GamepadButtons.loop_timers _ _ _ _ Hc Hl).
    exact (GamepadButtons.buttons_pass_timer_at _ _ fw _ i timer old b Hc
             (conj Hi (le_n _)) Ht Hs Hb).
  - intros Hok. rewrite Hok in Hst.
    destruct (GamepadLoop.loop_spec _ _ _ _ Hc Hl) as (_ & -> & _).
    assert (Hg : (Gamepad.group i < 2)%nat)
      by (unfold Gamepad.group; destruct (i <? 13)%nat; lia).
    assert (Hch : Gamepad.changed fw fw' (Gamepad.group i) = true).
    { apply GamepadLoop.changed_iff; [exact Hg|].
      exists (i - Gamepad.group i * 13)%nat.
      assert (Hgi : (Gamepad.group i * 13 <= i
                     < Gamepad.group i * 13 + 13)%nat).
      { unfold Gamepad.group, Gamepad.PICO_GPIO_COUNT in *.
        destruct (i <? 13)%nat eqn:E;
          [apply Nat.ltb_lt in E | apply Nat.ltb_ge in E]; lia. }
      split; [lia|].
      replace (Gamepad.group i * 13 + (i - Gamepad.group i * 13))%nat
        with i by lia.
      rewrite Hst, Hs. intros [= E].
      unfold ok, gamepad_accepts in Hok.
      apply andb_true_iff in Hok as [_ Hne].
      apply negb_true_iff, Z.eqb_neq in Hne. contradiction. }
    apply in_or_app. unfold Gamepad.report_of.
    destruct (Gamepad.group i) as [|[|]] eqn:Eg; [| |lia].
    + left. rewrite Hch. now left.
    + right. rewrite Hch. now left.
Qed.

Lemma gamepad_pass_button_by_button_witness :
  let tk := Gamepad.mkTick 0x1C7FFEFF 9000 false in
  exists fw' sent,
    Gamepad.loop tk Gamepad.init = Gamepad.Continued fw' sent
    /\ Gamepad.states fw' !! 0%nat = Some 1
    /\ Gamepad.timers fw' !! 0%nat = Some 9
    /\ In (Gamepad.SendReport Gamepad.REPORT_ID_GAMEPAD_A
             (Gamepad.pack (Gamepad.states fw') 0)) sent.
Proof.
  intros tk.
  destruct (Gamepad.loop tk Gamepad.init) as [|fw' sent] eqn:Hl;
    [vm_compute in Hl; discriminate|].
  exists fw', sent. split; [reflexivity|].
  destruct (gamepad_pass_button_by_button tk Gamepad.init fw' sent
              0%nat 0 0 8 Gamepad.reachable_init Hl
              eq_refl eq_refl eq_refl) as (H1 & H2 & H3).
  split; [exact H1|]. split; [exact H2|]. exact (H3 eq_refl).
Defined.

(** X12 (src/unnamed/part_002, the [buttons] table, [PICO_GPIO_MASK] and
    [loop]).  A button whose GPIO is not in [PICO_GPIO_MASK] is never
    confirmed as pressed: whatever the pins and the clock did since
    start-up, its confirmed state is 0.  Two buttons of the table
    are such: index 8 (GPIO 24) and index 20 (GPIO 23). *)
Theorem masked_out_buttons_stay_released fw (i : nat) (b : Z) :
  Gamepad.reachable fw ->
  Gamepad.buttons !! i = Some b ->
  Z.testbit Gamepad.PICO_GPIO_MASK b = false ->
  Gamepad.states fw !! i = Some 0.
Proof.
  intros Hr Hb Hm. induction Hr as [|tk fw fw' sent Hr IH Hl].
  - apply lookup_lt_Some in Hb.
    exact (lookup_replicate_2 Gamepad.PICO_GPIO_COUNT 0 i Hb).
  - pose proof (GamepadLoop.reachable_consistent _ Hr) as Hc.
    assert (Hi : (i < Gamepad.PICO_GPIO_COUNT)%nat)
      by (apply lookup_lt_Some in Hb; exact Hb).
    destruct (lookup_lt_is_Some_2 (Gamepad.timers fw) i) as [timer Ht].
    { destruct Hc as (Lt & _). rewrite Lt. exact Hi. }
    rewrite (GamepadStartup.loop_states _ _ _ _ Hc Hl).
    rewrite (GamepadStartup.buttons_pass_at _ _ fw _ i timer 0 b Hc
               (conj Hi (le_n _)) Ht IH Hb).
    rewrite (GamepadMask.level_masked _ _ Hm). now destruct (_ && _).
Qed.

(** All pins low 9 ms after start-up: button 0 (GPIO 8) is confirmed
    pressed, buttons 8 and 20 (GPIO 24 and 23) are not. *)
Lemma masked_out_buttons_stay_released_witness :
  exists fw' sent,
    Gamepad.loop (Gamepad.mkTick 0 9000 false) Gamepad.init
    = Gamepad.Continued fw' sent
    /\ Gamepad.states fw' !! 8%nat = Some 0
    /\ Gamepad.states fw' !! 20%nat = Some 0.
Proof.
  destruct (Gamepad.loop (Gamepad.mkTick 0 9000 false) Gamepad.init)
    as [|fw' sent] eqn:Hl; [vm_compute in Hl; discriminate|].
  exists fw', sent. split; [reflexivity|].
  pose proof (Gamepad.reachable_loop _ _ _ _ Gamepad.reachable_init Hl)
    as Hr.
  split.
  - exact (masked_out_buttons_stay_released fw' 8%nat 24 Hr
             eq_refl eq_refl).
  - exact (masked_out_buttons_stay_released fw' 20%nat 23 Hr
             eq_refl eq_refl).
Defined.

(** X13 (src/unnamed/part_002, [loop], the wake-up branch).  A pass
    ends in the reboot exactly when the USB bus is suspended and some
    GPIO of [PICO_GPIO_MASK] reads low, that is, is pressed; in every
    other case the pass runs on to both loops. *)
Theorem reboot_iff_suspended_and_pressed tk fw :
  Gamepad.loop tk fw = Gamepad.Rebooted
  <-> Gamepad.usb_suspended tk = true
      /\ exists k, Z.testbit Gamepad.PICO_GPIO_MASK k = true
                   /\ Z.testbit (Gamepad.gpio_all tk) k = false.
Proof.
  assert (Hnz : Gamepad.gpio_now_of tk <> 0
                <-> exists k, Z.testbit Gamepad.PICO_GPIO_MASK k = true
                      /\ Z.testbit (Gamepad.gpio_all tk) k = false).
  { split.
    - intros Hne.
      destruct (GamepadMask.nonzero_has_bit _
                  (GamepadMask.gpio_now_nonneg tk) Hne) as [k Hk].
      assert (Hk0 : 0 <= k).
      { destruct (Z.neg_nonneg_cases k) as [Hn|]; [|assumption].
        rewrite Z.testbit_neg_r in Hk by assumption. discriminate. }
      rewrite GamepadMask.gpio_now_testbit in Hk by assumption.
      apply andb_true_iff in Hk as [Hg Hm]. apply negb_true_iff in Hg.
      now exists k.
    - intros (k & Hm & Hg) E.
      assert (Hk0 : 0 <= k).
      { destruct (Z.neg_nonneg_cases k) as [Hn|]; [|assumption].
        rewrite Z.testbit_neg_r in Hm by assumption. discriminate. }
      pose proof (GamepadMask.gpio_now_testbit tk k Hk0) as Hk.
      rewrite E, Z.bits_0, Hg, Hm in Hk. discriminate. }
  rewrite <- Hnz, <- Z.eqb_neq, <- negb_true_iff, <- andb_true_iff.
  unfold Gamepad.loop. cbv zeta.
  destruct (Gamepad.usb_suspended tk
            && negb (Gamepad.gpio_now_of tk =? 0)).
  - now split.
  - split; [|discriminate]. destruct (for_each _ _ _). discriminate.
Qed.

(** Suspended bus, GPIO 8 held low: the pass reboots. *)
Lemma reboot_iff_suspended_and_pressed_witness :
  Gamepad.loop (Gamepad.mkTick 0x1C7FFEFF 0 true) Gamepad.init
  = Gamepad.Rebooted.
Proof.
  apply (proj2 (reboot_iff_suspended_and_pressed
                  (Gamepad.mkTick 0x1C7FFEFF 0 true) Gamepad.init)).
  split; [reflexivity|]. exists 8. split; reflexivity.
Defined.

(** X14 (src/unnamed/part_002, [loop]).  A pass in which no button is
    accepted (each one samples at its confirmed state, or its window
    has not elapsed) and that does not reboot changes nothing and sends
    nothing: timestamps, states and both reports are as before. *)
Theorem quiet_pass_changes_nothing tk fw :
  Gamepad.reachable fw ->
  Gamepad.loop tk fw <> Gamepad.Rebooted ->
  (forall i timer old b,
      Gamepad.timers fw !! i = Some timer ->
      Gamepad.states fw !! i = Some old ->
      Gamepad.buttons !! i = Some b ->
      gamepad_accepts (Gamepad.gpio_now_of tk) (Gamepad.time_now_of tk)
        timer old b = false) ->
  Gamepad.loop tk fw = Gamepad.Continued fw [].
Proof.
  intros Hr Hu Hrej.
  pose proof (GamepadLoop.reachable_consistent _ Hr)
    as (_ & _ & Lg & _ & Hpads).
  revert Hu. unfold Gamepad.loop. cbv zeta.
  destruct (Gamepad.usb_suspended tk
            && negb (Gamepad.gpio_now_of tk =? 0));
    [intros Hu; now contradiction Hu | intros _].
  rewrite (GamepadMask.buttons_pass_fixed _ _ fw _ Hrej).
  destruct (Gamepad.gamepads fw) as [|p0 [|p1 [|]]] eqn:Epads;
    try discriminate.
  rewrite (GamepadLoop.send_spec fw _ _ Epads).
  destruct (Hpads 0%nat p0 eq_refl) as [-> _].
  destruct (Hpads 1%nat p1 eq_refl) as [-> _].
  simpl. rewrite <- Epads. now destruct fw.
Qed.

Lemma quiet_pass_changes_nothing_witness :
  let tk := Gamepad.mkTick 0x1C7FFFFF 5000 false in
  Gamepad.loop tk Gamepad.init = Gamepad.Continued Gamepad.init [].
Proof.
  intros tk. apply (quiet_pass_changes_nothing tk Gamepad.init).
  - exact Gamepad.reachable_init.
  - vm_compute. discriminate.
  - intros i timer old b Ht Hs Hb.
    apply lookup_replicate_1 in Ht as [-> _].
    unfold gamepad_accepts. reflexivity.
Defined.

(** X15 (src/unnamed/part_002, [loop], the inner loop of the gamepad
    loop).  The mask packed for gamepad [g] can be read back: bit [j]
    of it, for [j < 13], is the confirmed state of button [13 g + j].
    The 13 states of a group are thus determined by its mask. *)
Theorem pack_reads_back sts (g j : nat) (st : Z) :
  Forall (fun st => st = 0 \/ st = 1) sts ->
  (j < 13)%nat ->
  sts !! (g * 13 + j)%nat = Some st ->
  Z.b2z (Z.testbit (Gamepad.pack sts g) (Z.of_nat j)) = st.
Proof.
  intros Hbits Hj Hst.
  rewrite (GamepadPack.pack_testbit_low sts g j Hbits Hj), Hst.
  rewrite Forall_forall in Hbits.
  destruct (Hbits st (list_elem_of_lookup_2 _ _ _ Hst)) as [-> | ->];
    reflexivity.
Qed.

Lemma pack_reads_back_witness :
  Z.b2z (Z.testbit (Gamepad.pack [0; 1; 1; 0; 0; 0; 0; 0; 0; 0; 0; 0; 1] 0)
           2) = 1.
Proof.
  apply (pack_reads_back [0; 1; 1; 0; 0; 0; 0; 0; 0; 0; 0; 0; 1]
           0%nat 2%nat 1).
  - repeat constructor; lia.
  - lia.
  - reflexivity.
Defined.
